(** * Uranium: UM/Settings/MachineSettings.py

    A shallow embedding of class [MachineSettings] and of its specification.

    The class owns a tree of settings: an ordered list of categories, each with
    an ordered list of settings, and a list of category-less machine settings.
    Python objects are mutated in place through references; every Setting
    object lives in exactly one container of exactly one tree, so the tree is
    modelled as a value and a reference as a position in it ([SettingRef]).
    An exception leaves the mutations made before it in place, so every
    fallible operation returns an [Outcome] together with the state.

    The sibling classes Setting, SettingsCategory and Profile, the Signal
    class, ResultCodes and Resources are not part of the sources at hand; the
    parts of them that MachineSettings calls are modelled from the
    specification and marked as such. *)

From Stdlib Require Import ZArith QArith Qcanon String Ascii List Lia.
From stdpp Require Import base option list strings gmap.

Open Scope string_scope.
Open Scope list_scope.
Set Warnings "-register-all".

(** ** Python values and built-ins *)

(** What [json.load] delivers. An object keeps its pairs in file order
    ([object_pairs_hook=collections.OrderedDict]); a float is the rational its
    finite double denotes. Python's [None] is [JNull]. *)
Inductive Json : Type :=
| JNull
| JBool (b : bool)
| JInt (z : Z)
| JFloat (q : Qc)
| JStr (s : string)
| JArr (items : list Json)
| JObj (pairs : list (string * Json)).

(** A Python dict with string keys, in insertion order. The keys of a dict are
    distinct; [dict_get] reads the first pair of a key and [dict_set] keeps the
    position of a key that is already there. *)
Definition Dict : Type := list (string * Json).

Fixpoint dict_get (key : string) (d : Dict) : option Json :=
  match d with
  | [] => None
  | (k, v) :: rest => if decide (k = key) then Some v else dict_get key rest
  end.

Definition dict_has (key : string) (d : Dict) : bool :=
  bool_decide (is_Some (dict_get key d)).

Fixpoint dict_set (key : string) (v : Json) (d : Dict) : Dict :=
  match d with
  | [] => [(key, v)]
  | (k, w) :: rest =>
      if decide (k = key) then (k, v) :: rest else (k, w) :: dict_set key v rest
  end.

Definition dict_keys (d : Dict) : list string := d.*1.

(** The exceptions that the modelled code can let escape. *)
Inductive Exception : Type :=
| InvalidFileError (path : string)
| InvalidVersionError (path : string)
| FileNotFoundError (path : string)
| JSONDecodeError
| ConfigParserError
| AttributeError (attribute : string)
| TypeError
| ValueError
| KeyError (key : string)
| RecursionError.

Inductive Outcome (A : Type) : Type :=
| Returned (a : A)
| Raised (e : Exception).
Arguments Returned {A} a.
Arguments Raised {A} e.

(** [key in data] for a parsed document: membership in a dict is a key test, in
    a list an element test, in a string a substring test; other values are not
    containers. *)
Fixpoint is_prefix (p s : string) : bool :=
  match p, s with
  | EmptyString, _ => true
  | String a p', String b s' => if decide (a = b) then is_prefix p' s' else false
  | String _ _, EmptyString => false
  end.

Fixpoint is_substring (p s : string) : bool :=
  is_prefix p s ||
  match s with
  | EmptyString => false
  | String _ s' => is_substring p s'
  end.

Definition is_JStr (key : string) (j : Json) : bool :=
  match j with
  | JStr s => bool_decide (s = key)
  | _ => false
  end.

Definition py_in (key : string) (data : Json) : Outcome bool :=
  match data with
  | JObj d => Returned (dict_has key d)
  | JArr items => Returned (existsb (is_JStr key) items)
  | JStr s => Returned (is_substring key s)
  | _ => Raised TypeError
  end.

(** [data[key]] with a string key. *)
Definition py_getitem (key : string) (data : Json) : Outcome Json :=
  match data with
  | JObj d => match dict_get key d with
              | Some v => Returned v
              | None => Raised TypeError
              end
  | _ => Raised TypeError
  end.

(** [value != 1]: numbers compare by value, [True] is the number one, any other
    value differs from a number. *)
Definition py_ne_int (value : Json) (n : Z) : bool :=
  match value with
  | JInt z => negb (z =? n)%Z
  | JFloat q => negb (Qeq_bool (this q) (inject_Z n))
  | JBool b => negb ((if b then 1 else 0) =? n)%Z
  | _ => true
  end.

(** Truth value of a parsed value ([if value:]). *)
Definition py_truthy (value : Json) : bool :=
  match value with
  | JNull => false
  | JBool b => b
  | JInt z => negb (z =? 0)%Z
  | JFloat q => negb (Qeq_bool (this q) 0)
  | JStr s => negb (bool_decide (s = ""))
  | JArr items => negb (bool_decide (items = []))
  | JObj d => negb (bool_decide (d = []))
  end.

(** *** os.path (posixpath) *)

Definition is_slash (c : ascii) : bool := bool_decide (c = "/"%char).

(** [(p[:i], p[i:])] for [i = p.rfind("/") + 1]. *)
Fixpoint rsplit_slash (p : string) : string * string :=
  match p with
  | EmptyString => ("", "")
  | String c rest =>
      let '(head, tail) := rsplit_slash rest in
      match head with
      | String _ _ => (String c head, tail)
      | EmptyString => if is_slash c then ("/", tail) else ("", String c tail)
      end
  end.

Fixpoint all_slashes (s : string) : bool :=
  match s with
  | EmptyString => true
  | String c rest => is_slash c && all_slashes rest
  end.

Fixpoint rstrip_slashes (s : string) : string :=
  match s with
  | EmptyString => ""
  | String c rest =>
      match rstrip_slashes rest with
      | EmptyString => if is_slash c then "" else String c ""
      | kept => String c kept
      end
  end.

Definition basename (p : string) : string := (rsplit_slash p).2.

Definition dirname (p : string) : string :=
  let head := (rsplit_slash p).1 in
  if all_slashes head then head else rstrip_slashes head.

(** *** Statements that may raise *)

(** A [for] loop whose body mutates the state [S] and may raise: the loop
    stops at the first exception, and the state is the one the exception
    leaves. *)
Fixpoint for_each {A S : Type} (body : A → S → Outcome unit * S)
    (items : list A) (s : S) : Outcome unit * S :=
  match items with
  | [] => (Returned (), s)
  | item :: rest =>
      match body item s with
      | (Returned _, s1) => for_each body rest s1
      | (Raised e, s1) => (Raised e, s1)
      end
  end.

Definition and_then {A B : Type} (o : Outcome A) (k : A → Outcome B) : Outcome B :=
  match o with
  | Returned a => k a
  | Raised e => Raised e
  end.

(** ** Setting *)

(** The classes Setting, SettingsCategory and Profile are not among the
    sources; MachineSettings calls the methods modelled here. *)
Module Setting.

(** Modelled from the spec: the state of a Setting (UM/Settings/Setting.py is
    missing): an immutable key, a default value, a current value, a visibility
    flag and the further structural fields (value type, validation bounds,
    ...), kept as the dict of the fragments applied so far. [_valueChanged]
    records whether the setting's value-change signal is connected to the
    [settingChanged] signal of the MachineSettings that holds it. *)
Record t : Type := mk {
  _key : string;
  _default_value : Json;
  _value : Json;
  _visible : bool;
  _fields : Dict;
  _valueChanged : bool
}.

(** Modelled from the spec: the missing constructor [Setting(key, catalog)],
    "create = structural fields all unset". *)
Definition new (key : string) : t :=
  {| _key := key; _default_value := JNull; _value := JNull;
     _visible := true; _fields := []; _valueChanged := false |}.

(** Modelled from the spec: the missing getters of Setting. *)
Definition getKey (self : t) : string := _key self.
Definition getDefaultValue (self : t) : Json := _default_value self.
Definition getValue (self : t) : Json := _value self.
Definition isVisible (self : t) : bool := _visible self.

(** Modelled from the spec: the missing [Setting.setValue]. It stores the
    value; the notification it fires is delivered by the holder of the setting
    (see [valueChanged_emit] below). *)
Definition setValue (value : Json) (self : t) : t :=
  {| _key := _key self; _default_value := _default_value self;
     _value := value; _visible := _visible self; _fields := _fields self;
     _valueChanged := _valueChanged self |}.

(** Modelled from the spec: [setting.valueChanged.connect(self.settingChanged)]
    on the missing Signal class, "wire the setting's value-change notification
    to bubble into this instance's own signal". *)
Definition connect_valueChanged (self : t) : t :=
  {| _key := _key self; _default_value := _default_value self;
     _value := _value self; _visible := _visible self;
     _fields := _fields self; _valueChanged := true |}.

(** Modelled from the spec: the setting as held by another MachineSettings
    than the one that connected it; the connections made to the signal of one
    instance do not reach another. *)
Definition foreign (self : t) : t :=
  {| _key := _key self; _default_value := _default_value self;
     _value := _value self; _visible := _visible self;
     _fields := _fields self; _valueChanged := false |}.

(** Modelled from the spec: the missing [Setting.getSettingByKey]; a setting
    answers a lookup by key with itself or with nothing. *)
Definition getSettingByKey (self : t) (key : string) : option t :=
  if decide (_key self = key) then Some self else None.

(** Modelled from the spec: one field of a fragment applied by the missing
    [Setting.fillByDict], "field-by-field overwrite-if-present"; the default
    value is the field "default". *)
Definition fill_field (field : string * Json) (self : t) : t :=
  let '(name, v) := field in
  {| _key := _key self;
     _default_value := if decide (name = "default") then v else _default_value self;
     _value := _value self;
     _visible := if decide (name = "visible") then py_truthy v else _visible self;
     _fields := dict_set name v (_fields self);
     _valueChanged := _valueChanged self |}.

(** Modelled from the spec: the missing [Setting.fillByDict(data)]. The
    fragment must be an object; its fields are applied in order. *)
Definition fillByDict (data : Json) (self : t) : Outcome t :=
  match data with
  | JObj fields => Returned (foldl (λ s f, fill_field f s) self fields)
  | _ => Raised TypeError
  end.

End Setting.

(** Modelled from the spec: the classification that validating a value
    produces (UM/Settings/Validators/ResultCodes.py is missing): ok, min/max
    warning, min/max error. *)
Inductive ResultCodes : Type :=
| ok
| min_value_warning
| max_value_warning
| min_value_error
| max_value_error.

Global Instance ResultCodes_eq_dec : EqDecision ResultCodes.
Proof. solve_decision. Defined.

(** ** SettingsCategory *)

Module SettingsCategory.

(** Modelled from the spec: the state of a SettingsCategory
    (UM/Settings/SettingsCategory.py is missing): a key, the ordered list of
    the settings it owns and the other fields of its fragments. *)
Record t : Type := mk {
  _key : string;
  _settings : list Setting.t;
  _fields : Dict
}.

(** Modelled from the spec: the missing constructor
    [SettingsCategory(key, catalog, machine)], a category without settings. *)
Definition new (key : string) : t :=
  {| _key := key; _settings := []; _fields := [] |}.

(** Modelled from the spec: the missing [SettingsCategory.getKey]. *)
Definition getKey (self : t) : string := _key self.

(** Modelled from the spec: the missing [SettingsCategory.getAllSettings],
    the settings of the category in declaration order. *)
Definition getAllSettings (self : t) : list Setting.t := _settings self.

(** Modelled from the spec: assignment to the list of settings of a
    category. *)
Definition with_settings (settings : list Setting.t) (self : t) : t :=
  {| _key := _key self; _settings := settings; _fields := _fields self |}.

(** Modelled from the spec: the missing [SettingsCategory.getSettingByKey],
    as the position of the first setting of the category that answers to
    [key]. *)
Definition getSettingByKey (self : t) (key : string) : option nat :=
  fst <$> list_find (λ s, is_Some (Setting.getSettingByKey s key)) (_settings self).

(** Modelled from the spec: one entry of the nested settings of a category
    fragment, "find-or-create child Settings": find the setting in this
    category or create it at the end, then apply the fragment to it. The
    result is what the call does (returns, or raises) and the category it
    leaves. *)
Definition fill_setting (entry : string * Json) (self : t) : Outcome unit * t :=
  let '(key, value) := entry in
  let '(i, self1) :=
    match getSettingByKey self key with
    | Some i => (i, self)
    | None => (length (_settings self),
               with_settings (_settings self ++ [Setting.new key]) self)
    end in
  match _settings self1 !! i with
  | Some setting =>
      match Setting.fillByDict value setting with
      | Returned setting' =>
          (Returned (), with_settings (<[i := setting']> (_settings self1)) self1)
      | Raised e => (Raised e, self1)
      end
  | None => (Raised TypeError, self1)
  end.

(** Modelled from the spec: the loop over the nested settings of a category
    fragment. *)
Definition fill_settings (entries : list (string * Json)) (self : t) : Outcome unit * t :=
  for_each fill_setting entries self.

(** Modelled from the spec: one plain field of a category fragment,
    overwritten if present. *)
Definition fill_field (field : string * Json) (self : t) : t :=
  {| _key := _key self; _settings := _settings self;
     _fields := dict_set field.1 field.2 (_fields self) |}.

(** Modelled from the spec: the missing [SettingsCategory.fillByDict(data)]:
    the plain fields first, then the nested settings, which the fragment holds
    in the object under "settings". *)
Definition fillByDict (data : Json) (self : t) : Outcome unit * t :=
  match data with
  | JObj fields =>
      let self1 :=
        foldl (λ c f, fill_field f c) self
              (filter (λ f, f.1 ≠ "settings") fields) in
      match dict_get "settings" fields with
      | None => (Returned (), self1)
      | Some (JObj entries) => fill_settings entries self1
      | Some _ => (Raised TypeError, self1)
      end
  | _ => (Raised TypeError, self)
  end.

End SettingsCategory.

(** ** Profile *)

Module Profile.

(** Modelled from the spec: the state of a Profile (UM/Settings/Profile.py is
    missing): a name and the sparse mapping from setting key to the stored
    value. A profile object has no length and no truth value of its own, so
    [if profile:] tests it against [None]. *)
Record t : Type := mk {
  _name : string;
  _changed_settings : Dict
}.

(** Modelled from the spec: the missing [Profile.getChangedSettings]. *)
Definition getChangedSettings (self : t) : Dict := _changed_settings self.

(** Modelled from the spec: the missing [Profile.setSettingValue], which
    records the value under the key. *)
Definition setSettingValue (key : string) (value : Json) (self : t) : t :=
  {| _name := _name self;
     _changed_settings := dict_set key value (_changed_settings self) |}.

End Profile.

(** ** MachineSettings *)

(** The attributes set by [__init__], and [settingChanged]: whether the
    class's [settingChanged] signal is connected to [_onSettingChanged]
    (modelled from the spec: the notification link of profile activation is
    attached or detached). [_icon] starts as the one-element tuple that the
    trailing comma in [__init__] makes, written as a one-element array. The
    active profile is kept by value: the operations below are the only writers
    of a profile. *)
Record MachineSettings : Type := mkMachineSettings {
  _categories : list SettingsCategory.t;
  _platform_mesh : Json;
  _platform_texture : Json;
  _name : string;
  _type_name : Json;
  _type_id : Json;
  _type_version : string;
  _json_file : string;
  _icon : Json;
  _machine_settings : list Setting.t;
  _i18n_catalog : option string;
  _active_profile : option Profile.t;
  settingChanged : bool
}.

Definition MachineDefinitionVersion : Z := 1.
Definition MachineInstanceVersion : Z := 1.

(** [MachineSettings()]. *)
Definition init : MachineSettings :=
  {| _categories := [];
     _platform_mesh := JNull;
     _platform_texture := JNull;
     _name := "Unknown Machine";
     _type_name := JStr "Unknown";
     _type_id := JStr "unknown";
     _type_version := "unknown";
     _json_file := "";
     _icon := JArr [JStr "unknown.png"];
     _machine_settings := [];
     _i18n_catalog := None;
     _active_profile := None;
     settingChanged := false |}.

(** Assignments to one attribute. *)
Definition set_categories (v : list SettingsCategory.t) (self : MachineSettings) :=
  mkMachineSettings v (_platform_mesh self) (_platform_texture self) (_name self)
    (_type_name self) (_type_id self) (_type_version self) (_json_file self)
    (_icon self) (_machine_settings self) (_i18n_catalog self)
    (_active_profile self) (settingChanged self).

Definition set_machine_settings (v : list Setting.t) (self : MachineSettings) :=
  mkMachineSettings (_categories self) (_platform_mesh self) (_platform_texture self)
    (_name self) (_type_name self) (_type_id self) (_type_version self)
    (_json_file self) (_icon self) v (_i18n_catalog self)
    (_active_profile self) (settingChanged self).

Definition set_active_profile (v : option Profile.t) (self : MachineSettings) :=
  mkMachineSettings (_categories self) (_platform_mesh self) (_platform_texture self)
    (_name self) (_type_name self) (_type_id self) (_type_version self)
    (_json_file self) (_icon self) (_machine_settings self) (_i18n_catalog self)
    v (settingChanged self).

Definition set_settingChanged (v : bool) (self : MachineSettings) :=
  mkMachineSettings (_categories self) (_platform_mesh self) (_platform_texture self)
    (_name self) (_type_name self) (_type_id self) (_type_version self)
    (_json_file self) (_icon self) (_machine_settings self) (_i18n_catalog self)
    (_active_profile self) v.

Definition set_name (v : string) (self : MachineSettings) :=
  mkMachineSettings (_categories self) (_platform_mesh self) (_platform_texture self)
    v (_type_name self) (_type_id self) (_type_version self)
    (_json_file self) (_icon self) (_machine_settings self) (_i18n_catalog self)
    (_active_profile self) (settingChanged self).

(** The metadata that [loadSettingsFromFile] assigns before it touches the
    tree. *)
Definition set_metadata (catalog : string) (json_file : string)
    (type_id type_name : Json) (platform_mesh platform_texture : Json)
    (type_version : string) (icon : Json) (self : MachineSettings) :=
  mkMachineSettings (_categories self) platform_mesh platform_texture
    (_name self) type_name type_id type_version json_file icon
    (_machine_settings self) (Some catalog)
    (_active_profile self) (settingChanged self).

(** A reference to a Setting object of the tree. *)
Inductive SettingRef : Type :=
| InCategory (category : nat) (position : nat)
| InMachine (position : nat).

Global Instance SettingRef_eq_dec : EqDecision SettingRef.
Proof. solve_decision. Defined.

(** The object behind a reference. *)
Definition deref (self : MachineSettings) (r : SettingRef) : option Setting.t :=
  match r with
  | InCategory c i =>
      category ← _categories self !! c;
      SettingsCategory._settings category !! i
  | InMachine i => _machine_settings self !! i
  end.

(** In-place mutation of the object behind a reference. *)
Definition mutate (r : SettingRef) (f : Setting.t → Setting.t)
    (self : MachineSettings) : MachineSettings :=
  match r with
  | InCategory c i =>
      set_categories
        (alter (λ category,
                  SettingsCategory.with_settings
                    (alter f i (SettingsCategory._settings category)) category)
               c (_categories self)) self
  | InMachine i => set_machine_settings (alter f i (_machine_settings self)) self
  end.

Definition getActiveProfile (self : MachineSettings) : option Profile.t :=
  _active_profile self.

Definition getTypeName (self : MachineSettings) : Json := _type_name self.
Definition getTypeID (self : MachineSettings) : Json := _type_id self.
Definition getAllCategories (self : MachineSettings) := _categories self.
Definition getMachineSettings (self : MachineSettings) := _machine_settings self.
Definition getPlatformMesh (self : MachineSettings) : Json := _platform_mesh self.
Definition getPlatformTexture (self : MachineSettings) : Json := _platform_texture self.
Definition getName (self : MachineSettings) : string := _name self.
Definition setName (name : string) (self : MachineSettings) := set_name name self.
Definition getIcon (self : MachineSettings) : Json := _icon self.

(** [addSettingsCategory]. *)
Definition addSettingsCategory (category : SettingsCategory.t)
    (self : MachineSettings) : MachineSettings :=
  set_categories (_categories self ++ [category]) self.

(** [getSettingsCategory]: the position of the first category with the key, or
    [None]. *)
Definition getSettingsCategory (self : MachineSettings) (key : string) : option nat :=
  fst <$> list_find (λ category, SettingsCategory.getKey category = key)
                     (_categories self).

(** [getAllSettings(include_machine, visible_only)], as the list of the
    settings' current states. *)
Definition getAllSettings (include_machine visible_only : bool)
    (self : MachineSettings) : list Setting.t :=
  let all_settings :=
    (if include_machine then _machine_settings self else []) ++
    concat (SettingsCategory.getAllSettings <$> _categories self) in
  if visible_only then filter (λ s, Setting.isVisible s = true) all_settings
  else all_settings.

(** The same list as references into the tree, for the loops that mutate the
    settings they visit. *)
Definition category_refs (c : nat) (category : SettingsCategory.t) : list SettingRef :=
  InCategory c <$> seq 0 (length (SettingsCategory._settings category)).

Definition getAllSettings_refs (include_machine : bool)
    (self : MachineSettings) : list SettingRef :=
  (if include_machine
   then InMachine <$> seq 0 (length (_machine_settings self)) else []) ++
  concat (imap category_refs (_categories self)).

(** [getSettingByKey]: categories first, then the machine settings. *)
Definition getSettingByKey (self : MachineSettings) (key : string) : option SettingRef :=
  match list_find (λ category,
                     is_Some (SettingsCategory.getSettingByKey category key))
                  (_categories self) with
  | Some (c, category) =>
      InCategory c <$> SettingsCategory.getSettingByKey category key
  | None =>
      (InMachine ∘ fst) <$>
        list_find (λ s, is_Some (Setting.getSettingByKey s key))
                  (_machine_settings self)
  end.

(** *** Value changes and their notifications *)

(** [_onSettingChanged]: record the value in the active profile. *)
Definition _onSettingChanged (setting : Setting.t) (self : MachineSettings) : MachineSettings :=
  match _active_profile self with
  | Some profile =>
      set_active_profile
        (Some (Profile.setSettingValue (Setting.getKey setting)
                                       (Setting.getValue setting) profile)) self
  | None => self
  end.

(** [settingChanged.emit(setting)]: the only slot in the model is
    [_onSettingChanged]. *)
Definition settingChanged_emit (setting : Setting.t) (self : MachineSettings) : MachineSettings :=
  if settingChanged self then _onSettingChanged setting self else self.

(** [valueChanged.emit(setting)] of a setting held by [self]. *)
Definition valueChanged_emit (setting : Setting.t) (self : MachineSettings) : MachineSettings :=
  if Setting._valueChanged setting then settingChanged_emit setting self else self.

(** [setting.setValue(value)] for the setting behind [r]: store the value, then
    notify. *)
Definition setValue_at (r : SettingRef) (value : Json) (self : MachineSettings) : MachineSettings :=
  match deref self r with
  | Some setting =>
      valueChanged_emit (Setting.setValue value setting)
                        (mutate r (Setting.setValue value) self)
  | None => self
  end.

(** [addSetting]. *)
Definition addSetting (setting : Setting.t) (self : MachineSettings) : MachineSettings :=
  set_machine_settings
    (_machine_settings self ++ [Setting.connect_valueChanged setting]) self.

(** [setSettingValueByKey]. *)
Definition setSettingValueByKey (key : string) (value : Json)
    (self : MachineSettings) : MachineSettings :=
  match getSettingByKey self key with
  | Some r => setValue_at r value self
  | None => self
  end.

(** [getSettingValueByKey]: the value, or [None]. *)
Definition getSettingValueByKey (self : MachineSettings) (key : string) : Json :=
  match getSettingByKey self key with
  | Some r => match deref self r with
              | Some setting => Setting.getValue setting
              | None => JNull
              end
  | None => JNull
  end.

(** *** Validation queries *)

Section Validation.

(** [Setting.validate], a parameter of the queries: the validators are not
    among the sources. *)
Variable validate : Setting.t → ResultCodes.

Definition is_error (result : ResultCodes) : bool :=
  bool_decide (result = max_value_error) || bool_decide (result = min_value_error).

Definition is_warning (result : ResultCodes) : bool :=
  bool_decide (result = max_value_warning) || bool_decide (result = min_value_warning).

(** The loop of both queries: [True] at the first setting whose result is
    selected, [False] when the list is exhausted. *)
Fixpoint any_result (selected : ResultCodes → bool) (settings : list Setting.t) : bool :=
  match settings with
  | [] => false
  | setting :: rest =>
      if selected (validate setting) then true else any_result selected rest
  end.

Definition hasErrorValue (self : MachineSettings) : bool :=
  any_result is_error (getAllSettings false false self).

Definition hasWarningValue (self : MachineSettings) : bool :=
  any_result is_warning (getAllSettings false false self).

End Validation.

(** *** Profile activation *)

(** Resolution of [self.<name>] where a lookup of a setting by key is called:
    [getSettingByKey] is the only such method that the class defines, and
    SignalEmitter, its base class, has the signal plumbing only. *)
Definition getattr_lookup (name : string)
    : Outcome (MachineSettings → string → option SettingRef) :=
  if decide (name = "getSettingByKey") then Returned getSettingByKey
  else Raised (AttributeError name).

(** [for setting in self.getAllSettings(): setting.setValue(setting.getDefaultValue())]. *)
Definition reset_setting (self : MachineSettings) (r : SettingRef) : MachineSettings :=
  match deref self r with
  | Some setting => setValue_at r (Setting.getDefaultValue setting) self
  | None => self
  end.

Definition reset_settings (self : MachineSettings) : MachineSettings :=
  foldl reset_setting self (getAllSettings_refs false self).

(** [for setting_key in changed_settings: ...]. *)
Fixpoint apply_changed_settings (keys : list string) (changed_settings : Dict)
    (self : MachineSettings) : Outcome unit * MachineSettings :=
  match keys with
  | [] => (Returned (), self)
  | setting_key :: rest =>
      match getattr_lookup "getSetting" with
      | Raised e => (Raised e, self)
      | Returned getSetting =>
          match getSetting self setting_key with
          | Some r =>
              match dict_get setting_key changed_settings with
              | Some value =>
                  apply_changed_settings rest changed_settings (setValue_at r value self)
              | None => (Raised (KeyError setting_key), self)
              end
          | None => apply_changed_settings rest changed_settings self
          end
      end
  end.

(** [setActiveProfile(profile)]; [None] is the null profile. *)
Definition setActiveProfile (profile : option Profile.t)
    (self : MachineSettings) : Outcome unit * MachineSettings :=
  let self1 :=
    match _active_profile self with
    | Some _ => set_settingChanged false self
    | None => self
    end in
  match profile with
  | Some p =>
      let changed_settings := Profile.getChangedSettings p in
      let self2 := reset_settings self1 in
      match apply_changed_settings (dict_keys changed_settings) changed_settings self2 with
      | (Returned _, self3) =>
          (Returned (), set_active_profile profile (set_settingChanged true self3))
      | (Raised e, self3) => (Raised e, self3)
      end
  | None => (Returned (), set_active_profile None self1)
  end.

(** ** Files *)

(** *** Text *)

(** A Python [str] is a [string] here: the texts of the model are those whose
    characters are code points below 256, and a file is read and written in
    an encoding that carries them all. *)

Definition LF : ascii := "010"%char.
Definition CR : ascii := "013"%char.
Definition TAB : ascii := "009"%char.

(** [str.isspace] of one character. [str.strip] and the [\s] of the regular
    expressions take the same characters for white space. *)
Definition py_isspace (c : ascii) : bool :=
  let n := nat_of_ascii c in
  (((9 <=? n) && (n <=? 13)) || ((28 <=? n) && (n <=? 32)) ||
   (n =? 133) || (n =? 160))%nat.

Fixpoint drop_leading (space : ascii → bool) (s : string) : string :=
  match s with
  | String c rest => if space c then drop_leading space rest else s
  | EmptyString => ""
  end.

Fixpoint drop_trailing (space : ascii → bool) (s : string) : string :=
  match s with
  | EmptyString => ""
  | String c rest =>
      match drop_trailing space rest with
      | EmptyString => if space c then "" else String c ""
      | kept => String c kept
      end
  end.

(** [s.lstrip()], [s.rstrip()] and [s.strip()]. *)
Definition lstrip (s : string) : string := drop_leading py_isspace s.
Definition rstrip (s : string) : string := drop_trailing py_isspace s.
Definition strip (s : string) : string := rstrip (lstrip s).

(** [s.lower()]: the capital letters below 256 are A to Z and the accented
    capitals from 192 to 222, the multiplication sign (215) apart. *)
Definition lower_char (c : ascii) : ascii :=
  let n := nat_of_ascii c in
  if (((65 <=? n) && (n <=? 90)) ||
      ((192 <=? n) && (n <=? 222) && negb (n =? 215)))%nat
  then ascii_of_nat (n + 32) else c.

Fixpoint py_lower (s : string) : string :=
  match s with
  | EmptyString => ""
  | String c rest => String (lower_char c) (py_lower rest)
  end.

(** [c in s] for one character. *)
Fixpoint contains (c : ascii) (s : string) : bool :=
  match s with
  | EmptyString => false
  | String d rest => bool_decide (d = c) || contains c rest
  end.

(** *** int *)

(** The white space that [int] skips at both ends of a text: of the
    characters below 128 only those of C's [isspace]. *)
Definition int_isspace (c : ascii) : bool :=
  let n := nat_of_ascii c in
  (((9 <=? n) && (n <=? 13)) || (n =? 32) || (n =? 133) || (n =? 160))%nat.

Definition digit_of (c : ascii) : option Z :=
  let n := nat_of_ascii c in
  if (48 <=? n)%nat && (n <=? 57)%nat then Some (Z.of_nat (n - 48)) else None.

Definition is_digit (c : ascii) : bool := bool_decide (is_Some (digit_of c)).

(** The digits of a numeral, with single underscores between digits. The
    result is the value and the number of digits. *)
Fixpoint parse_digits (acc : Z) (count : nat) (s : string) : option (Z * nat) :=
  match s with
  | EmptyString => Some (acc, count)
  | String c rest =>
      if bool_decide (c = "_"%char)
      then match rest with
           | String d _ => if is_digit d then parse_digits acc count rest else None
           | EmptyString => None
           end
      else d ← digit_of c; parse_digits (10 * acc + d)%Z (S count) rest
  end.

Definition parse_numeral (s : string) : option (Z * nat) :=
  match s with
  | String c _ => if is_digit c then parse_digits 0 0 s else None
  | EmptyString => None
  end.

(** [int(text)]: a decimal numeral with an optional sign, surrounded by white
    space. [max_str_digits] is [sys.get_int_max_str_digits()], the
    interpreter's limit on the number of digits ([0]: none; an interpreter
    without the setting has none); it applies to numerals of more than 640
    digits. *)
Definition py_int (max_str_digits : nat) (text : string) : Outcome Z :=
  let parsed :=
    match drop_trailing int_isspace (drop_leading int_isspace text) with
    | String "-" digits =>
        (λ numeral : Z * nat, (Z.opp numeral.1, numeral.2)) <$> parse_numeral digits
    | String "+" digits => parse_numeral digits
    | digits => parse_numeral digits
    end in
  match parsed with
  | Some (z, count) =>
      if ((640 <? count) && (0 <? max_str_digits) && (max_str_digits <? count))%nat
      then Raised ValueError
      else Returned z
  | None => Raised ValueError
  end.

(** *** configparser *)

(** What a [ConfigParser] holds: the sections with their options, the option
    names in lower case and the values as they stand in the file. The section
    named [DEFAULT] holds the defaults of all sections and is no section of
    its own. *)
Definition Config : Type := list (string * list (string * string)).

Definition DEFAULTSECT : string := "DEFAULT".
Definition MAX_INTERPOLATION_DEPTH : nat := 10.

Fixpoint assoc {V : Type} (key : string) (entries : list (string * V)) : option V :=
  match entries with
  | [] => None
  | (k, v) :: rest => if decide (k = key) then Some v else assoc key rest
  end.

Fixpoint assoc_update {V : Type} (key : string) (f : V → V)
    (entries : list (string * V)) : list (string * V) :=
  match entries with
  | [] => []
  | (k, v) :: rest =>
      if decide (k = key) then (k, f v) :: rest
      else (k, v) :: assoc_update key f rest
  end.

Definition defaults (config : Config) : list (string * string) :=
  default [] (assoc DEFAULTSECT config).

(** [config.has_section(section)]. *)
Definition has_section (config : Config) (section : string) : bool :=
  negb (bool_decide (section = DEFAULTSECT)) &&
  bool_decide (is_Some (assoc section config)).

(** [config.has_option(section, name)]. *)
Definition has_option (config : Config) (section name : string) : bool :=
  if bool_decide (section = "") || bool_decide (section = DEFAULTSECT)
  then bool_decide (is_Some (assoc (py_lower name) (defaults config)))
  else
    match assoc section config with
    | None => false
    | Some items =>
        bool_decide (is_Some (assoc (py_lower name) items)) ||
        bool_decide (is_Some (assoc (py_lower name) (defaults config)))
    end.

(** The pieces of a value for [BasicInterpolation]: a character, also the
    percent sign that [%%] stands for, or the reference [%(name)s]. *)
Inductive Token : Type :=
| Literal (c : ascii)
| Reference (name : string).

Inductive Scan : Type :=
| Plain
| AfterPercent
| InName (name : string)
| AfterName (name : string).

(** The scan of [_interpolate_some]; [None] is its [InterpolationSyntaxError]:
    a percent sign followed by neither [%] nor [(], or a reference that
    [%\(([^)]+)\)s] does not match. *)
Fixpoint tokens (state : Scan) (s : string) : option (list Token) :=
  match s with
  | EmptyString =>
      match state with
      | Plain => Some []
      | _ => None
      end
  | String c rest =>
      match state with
      | Plain =>
          if bool_decide (c = "%"%char) then tokens AfterPercent rest
          else (λ ts, Literal c :: ts) <$> tokens Plain rest
      | AfterPercent =>
          if bool_decide (c = "%"%char)
          then (λ ts, Literal c :: ts) <$> tokens Plain rest
          else if bool_decide (c = "("%char) then tokens (InName "") rest
          else None
      | InName name =>
          if bool_decide (c = ")"%char)
          then if bool_decide (name = "") then None else tokens (AfterName name) rest
          else tokens (InName (name +:+ String c "")) rest
      | AfterName name =>
          if bool_decide (c = "s"%char)
          then (λ ts, Reference name :: ts) <$> tokens Plain rest
          else None
      end
  end.

(** The values of the pieces, joined. [again] interpolates the value of a
    reference that has a percent sign in it. *)
Fixpoint expand (again : string → Outcome string)
    (lookup : string → option string) (ts : list Token) : Outcome string :=
  match ts with
  | [] => Returned ""
  | Literal c :: rest =>
      and_then (expand again lookup rest) (λ tail, Returned (String c tail))
  | Reference name :: rest =>
      match lookup (py_lower name) with
      | None => Raised ConfigParserError
      | Some value =>
          and_then (if contains "%" value then again value else Returned value)
            (λ head, and_then (expand again lookup rest)
                       (λ tail, Returned (head +:+ tail)))
      end
  end.

(** [BasicInterpolation.before_get]. [budget] is what is left of
    [MAX_INTERPOLATION_DEPTH]. Every error of the interpolation is a
    [configparser.Error], so the scan of a value may run to its end before
    the references are looked up. *)
Fixpoint interpolate (budget : nat) (lookup : string → option string)
    (value : string) : Outcome string :=
  match budget with
  | O => Raised ConfigParserError
  | S budget' =>
      match tokens Plain value with
      | None => Raised ConfigParserError
      | Some ts => expand (interpolate budget' lookup) lookup ts
      end
  end.

(** [config.get(section, name)], and with [Some fallback]
    [config.get(section, name, fallback=...)]; [config[section][name]] is the
    former where the section and the option are there. A missing section or
    option and a failed interpolation are [configparser.Error]s. *)
Definition config_get (config : Config) (section name : string)
    (fallback : option string) : Outcome string :=
  let missing :=
    match fallback with
    | Some value => Returned value
    | None => Raised ConfigParserError
    end in
  match (if bool_decide (section = DEFAULTSECT) then Some []
         else assoc section config) with
  | None => missing
  | Some items =>
      let lookup := λ key,
        match assoc key items with
        | Some value => Some value
        | None => assoc key (defaults config)
        end in
      match lookup (py_lower name) with
      | None => missing
      | Some value => interpolate MAX_INTERPOLATION_DEPTH lookup value
      end
  end.

(** [BasicInterpolation.before_set], which [config[section][name] = value]
    calls for a value that is not empty: once [%%] and the references
    [%(name)s] are taken out, no percent sign may be left. *)
Fixpoint drop_percent_pairs (s : string) : string :=
  match s with
  | EmptyString => ""
  | String c rest =>
      match rest with
      | String d rest' =>
          if bool_decide (c = "%"%char) && bool_decide (d = "%"%char)
          then drop_percent_pairs rest'
          else String c (drop_percent_pairs rest)
      | EmptyString => String c ""
      end
  end.

(** The length of what [[^)]+\)s] matches at the start of [s], after [seen]
    characters of the name. *)
Fixpoint reference_tail (seen : nat) (s : string) : option nat :=
  match s with
  | EmptyString => None
  | String c rest =>
      if bool_decide (c = ")"%char)
      then match seen, rest with
           | S _, String d _ =>
               if bool_decide (d = "s"%char) then Some (seen + 2)%nat else None
           | _, _ => None
           end
      else reference_tail (S seen) rest
  end.

(** The length of the match of [%\(([^)]+)\)s] at the start of [s]. *)
Definition reference_length (s : string) : option nat :=
  match s with
  | String c (String d rest) =>
      if bool_decide (c = "%"%char) && bool_decide (d = "("%char)
      then (λ n, (2 + n)%nat) <$> reference_tail 0 rest
      else None
  | _ => None
  end.

(** [_KEYCRE.sub('', s)]; [skip] characters of a match are still to drop. *)
Fixpoint drop_references (skip : nat) (s : string) : string :=
  match s with
  | EmptyString => ""
  | String c rest =>
      match skip with
      | S skip' => drop_references skip' rest
      | O =>
          match reference_length s with
          | Some n => drop_references (n - 1) rest
          | None => String c (drop_references 0 rest)
          end
      end
  end.

Definition before_set (value : string) : Outcome string :=
  if bool_decide (value = "") then Returned value
  else if contains "%" (drop_references 0 (drop_percent_pairs value))
       then Raised ValueError
       else Returned value.

(** [config.write(f)] for one section: the header, then a line for each
    option, with every line break of a value followed by a tab, then an empty
    line. *)
Fixpoint indent_newlines (s : string) : string :=
  match s with
  | EmptyString => ""
  | String c rest =>
      if bool_decide (c = LF) then String LF (String TAB (indent_newlines rest))
      else String c (indent_newlines rest)
  end.

Definition write_option (item : string * string) : string :=
  item.1 +:+ " = " +:+ indent_newlines item.2.

(** The lines written for a section, each of them followed by a line
    feed. *)
Definition written_lines (section : string) (items : list (string * string))
    : list string :=
  ("[" +:+ section +:+ "]") :: (write_option <$> items) ++ [""].

Fixpoint unlines (lines : list string) : string :=
  match lines with
  | [] => ""
  | line :: rest => line +:+ String LF (unlines rest)
  end.

Definition write_section (section : string) (items : list (string * string))
    : string :=
  unlines (written_lines section items).

(** The lines of a text file read with universal newlines, without their
    terminators: a line ends at a line feed, at a carriage return or at the
    two in sequence. *)
Fixpoint split_lines (s : string) : list string :=
  match s with
  | EmptyString => []
  | String c rest =>
      if bool_decide (c = LF) then "" :: split_lines rest
      else if bool_decide (c = CR)
      then "" :: split_lines (match rest with
                              | String d rest' =>
                                  if bool_decide (d = LF) then rest' else rest
                              | EmptyString => rest
                              end)
      else match split_lines rest with
           | [] => [String c ""]
           | line :: lines => String c line :: lines
           end
  end.

(** [SECTCRE], [\[(?P<header>.+)\]], matched at the start of a line: the
    header runs to the last closing bracket. *)
Fixpoint upto_last_bracket (s : string) : option string :=
  match s with
  | EmptyString => None
  | String c rest =>
      match upto_last_bracket rest with
      | Some header => Some (String c header)
      | None => if bool_decide (c = "]"%char) then Some "" else None
      end
  end.

Definition section_header (value : string) : option string :=
  match value with
  | String c rest =>
      if bool_decide (c = "["%char)
      then match upto_last_bracket rest with
           | Some (String d header) => Some (String d header)
           | _ => None
           end
      else None
  | EmptyString => None
  end.

(** [OPTCRE]: the text before the first delimiter, [=] or [:], and the text
    after it. *)
Fixpoint split_at_delimiter (s : string) : option (string * string) :=
  match s with
  | EmptyString => None
  | String c rest =>
      if bool_decide (c = "="%char) || bool_decide (c = ":"%char)
      then Some ("", rest)
      else (λ parts : string * string, (String c parts.1, parts.2)) <$>
             split_at_delimiter rest
  end.

(** The position of the first character of a line that is no white space. *)
Fixpoint indent_of (line : string) : nat :=
  match line with
  | String c rest => if py_isspace c then S (indent_of rest) else 0
  | EmptyString => 0
  end.

(** The state of [ConfigParser._read]: the sections read so far, each option
    with the lines of its value, the current section, the current option and
    the indentation of the line that opened it. *)
Record Parser : Type := mkParser {
  parsed : list (string * list (string * list string));
  cursect : option string;
  optname : option string;
  indent_level : nat
}.

(** [cursect[optname].append(line)]. *)
Definition append_line (line : string) (p : Parser) : Parser :=
  match cursect p, optname p with
  | Some section, Some name =>
      mkParser
        (assoc_update section
           (assoc_update name (λ lines, lines ++ [line])) (parsed p))
        (cursect p) (optname p) (indent_level p)
  | _, _ => p
  end.

Definition is_comment (value : string) : bool :=
  match value with
  | String c _ => bool_decide (c = "#"%char) || bool_decide (c = ";"%char)
  | EmptyString => false
  end.

(** One line of [ConfigParser._read], for a parser with the default
    settings: a comment line is dropped, an empty line and a line indented
    deeper than the current option continue its value, a section header
    opens a section, that must be new unless it is [DEFAULT], and any other
    line must be an option of the current section, with a name, a delimiter
    and a value, that the section does not have. Every error is a
    [configparser.Error], so the first one decides. *)
Definition process_line (line : string) (p : Parser) : Outcome Parser :=
  let value := strip line in
  if is_comment value then Returned p
  else if bool_decide (value = "") then Returned (append_line "" p)
  else
    let cur_indent_level := indent_of line in
    if bool_decide (is_Some (cursect p)) && bool_decide (is_Some (optname p)) &&
       (indent_level p <? cur_indent_level)%nat
    then Returned (append_line value p)
    else
      match section_header value with
      | Some sectname =>
          if bool_decide (is_Some (assoc sectname (parsed p)))
          then if bool_decide (sectname = DEFAULTSECT)
               then Returned (mkParser (parsed p) (Some sectname) None
                                       cur_indent_level)
               else Raised ConfigParserError
          else Returned (mkParser (parsed p ++ [(sectname, [])]) (Some sectname)
                                  None cur_indent_level)
      | None =>
          match cursect p with
          | None => Raised ConfigParserError
          | Some section =>
              match split_at_delimiter value with
              | None => Raised ConfigParserError
              | Some (name, optval) =>
                  if bool_decide (rstrip name = "") then Raised ConfigParserError
                  else
                    let name := py_lower (rstrip name) in
                    if bool_decide
                         (is_Some (assoc section (parsed p) ≫= assoc name))
                    then Raised ConfigParserError
                    else Returned
                           (mkParser
                              (assoc_update section
                                 (λ options, options ++ [(name, [strip optval])])
                                 (parsed p))
                              (Some section) (Some name) cur_indent_level)
              end
          end
      end.

Fixpoint parse_lines (lines : list string) (p : Parser) : Outcome Parser :=
  match lines with
  | [] => Returned p
  | line :: rest => and_then (process_line line p) (parse_lines rest)
  end.

(** ['\n'.join(lines)]. *)
Fixpoint join_lines (lines : list string) : string :=
  match lines with
  | [] => ""
  | line :: rest =>
      match rest with
      | [] => line
      | _ :: _ => line +:+ String LF (join_lines rest)
      end
  end.

(** [config.read] of a text: the lines in turn, then the lines of every value
    joined and stripped at the end. *)
Definition parse_ini (text : string) : Outcome Config :=
  and_then (parse_lines (split_lines text) (mkParser [] None None 0))
    (λ p, Returned
            ((λ section : string * list (string * list string),
                (section.1,
                 (λ item : string * list string,
                    (item.1, rstrip (join_lines item.2))) <$> section.2))
               <$> parsed p)).

(** A file, as what its parser makes of it. *)
Inductive File : Type :=
| JsonFile (data : Json)
| IniFile (config : Config)
| OtherFile.

Abbreviation FileSystem := (gmap string File).

(** The file that holds a text written by [config.write]: the text starts
    with a section header and is no JSON document. *)
Definition written_file (text : string) : File :=
  match parse_ini text with
  | Returned config => IniFile config
  | Raised _ => OtherFile
  end.

(** [open(file_name); json.load(f, ...)]. *)
Definition read_json (fs : FileSystem) (file_name : string) : Outcome Json :=
  match fs !! file_name with
  | None => Raised (FileNotFoundError file_name)
  | Some (JsonFile data) => Returned data
  | Some _ => Raised JSONDecodeError
  end.

(** [config.read(path)]: a file that is not there is skipped. *)
Definition read_config (fs : FileSystem) (path : string) : Outcome Config :=
  match fs !! path with
  | None => Returned []
  | Some (IniFile config) => Returned config
  | Some _ => Raised ConfigParserError
  end.

(** ** The definition loader *)

(** [if "id" not in data or "name" not in data: raise InvalidFileError]. *)
Definition check_required (file_name : string) (data : Json) : Outcome unit :=
  and_then (py_in "id" data) (λ has_id,
    if negb has_id then Raised (InvalidFileError file_name)
    else and_then (py_in "name" data) (λ has_name,
      if negb has_name then Raised (InvalidFileError file_name)
      else Returned ())).

(** [if "version" not in data or data["version"] != self.MachineDefinitionVersion:
    raise InvalidVersionError]. *)
Definition check_version (file_name : string) (data : Json) : Outcome unit :=
  and_then (py_in "version" data) (λ has_version,
    if negb has_version then Raised (InvalidVersionError file_name)
    else and_then (py_getitem "version" data) (λ version,
      if py_ne_int version MachineDefinitionVersion
      then Raised (InvalidVersionError file_name)
      else Returned ())).

(** [str(data["version"])] for a value that passed the version check, hence
    equal to one: the integer, the float or [True]. *)
Definition str_version (version : Json) : string :=
  match version with
  | JBool _ => "True"
  | JFloat _ => "1.0"
  | _ => "1"
  end.

(** [setting.fillByDict(value)] for the setting behind [r]. *)
Definition fillByDict_at (r : SettingRef) (value : Json)
    (self : MachineSettings) : Outcome unit * MachineSettings :=
  match deref self r with
  | Some setting =>
      match Setting.fillByDict value setting with
      | Returned setting' => (Returned (), mutate r (λ _, setting') self)
      | Raised e => (Raised e, self)
      end
  | None => (Raised TypeError, self)
  end.

(** The body of the loop over [data["machine_settings"].items()]. *)
Definition load_machine_setting (entry : string * Json)
    (self : MachineSettings) : Outcome unit * MachineSettings :=
  let '(key, value) := entry in
  let '(r, self1) :=
    match getSettingByKey self key with
    | Some r => (r, self)
    | None => (InMachine (length (_machine_settings self)),
               addSetting (Setting.new key) self)
    end in
  fillByDict_at r value self1.

(** The body of the loop over [data["categories"].items()]. *)
Definition load_category (entry : string * Json)
    (self : MachineSettings) : Outcome unit * MachineSettings :=
  let '(key, value) := entry in
  let '(c, self1) :=
    match getSettingsCategory self key with
    | Some c => (c, self)
    | None => (length (_categories self),
               addSettingsCategory (SettingsCategory.new key) self)
    end in
  match _categories self1 !! c with
  | Some category =>
      let '(result, category') := SettingsCategory.fillByDict value category in
      (result, set_categories (<[c := category']> (_categories self1)) self1)
  | None => (Raised TypeError, self1)
  end.

(** The body of the loop over [data["overrides"].items()]. *)
Definition load_override (entry : string * Json)
    (self : MachineSettings) : Outcome unit * MachineSettings :=
  let '(key, value) := entry in
  match getSettingByKey self key with
  | None => (Returned (), self)
  | Some r => fillByDict_at r value self
  end.

(** [if name in data: for key, value in data[name].items(): body]. *)
Definition load_section (name : string)
    (body : string * Json → MachineSettings → Outcome unit * MachineSettings)
    (fields : Dict) (self : MachineSettings) : Outcome unit * MachineSettings :=
  match dict_get name fields with
  | None => (Returned (), self)
  | Some (JObj entries) => for_each body entries self
  | Some _ => (Raised (AttributeError "items"), self)
  end.

(** [for setting in self.getAllSettings(): setting.valueChanged.connect(self.settingChanged)]. *)
Definition connect_settings (self : MachineSettings) : MachineSettings :=
  foldl (λ m r, mutate r Setting.connect_valueChanged m) self
        (getAllSettings_refs false self).

(** [self._machine_settings = inherits_from._machine_settings] and
    [self._categories = inherits_from._categories]: the objects of the parent
    become the objects of [self]; what the parent connected to its own signal
    does not reach [self]. *)
Definition adopt (inherits_from : MachineSettings) (self : MachineSettings) : MachineSettings :=
  set_categories
    ((λ category,
        SettingsCategory.with_settings
          (Setting.foreign <$> SettingsCategory._settings category) category)
       <$> _categories inherits_from)
    (set_machine_settings (Setting.foreign <$> _machine_settings inherits_from) self).

(** The three layers and the wiring that follow the inheritance step. *)
Definition load_layers (fields : Dict) (self : MachineSettings)
    : Outcome unit * MachineSettings :=
  match load_section "machine_settings" load_machine_setting fields self with
  | (Raised e, self1) => (Raised e, self1)
  | (Returned _, self1) =>
      match load_section "categories" load_category fields self1 with
      | (Raised e, self2) => (Raised e, self2)
      | (Returned _, self2) =>
          match load_section "overrides" load_override fields self2 with
          | (Raised e, self3) => (Raised e, self3)
          | (Returned _, self3) => (Returned (), connect_settings self3)
          end
      end
  end.

(** The assignments of the metadata, for a document that passed both
    checks. *)
Definition load_metadata (file_name : string) (fields : Dict)
    (self : MachineSettings) : MachineSettings :=
  set_metadata (basename file_name) file_name
    (default JNull (dict_get "id" fields))
    (default JNull (dict_get "name" fields))
    (default (_platform_mesh self) (dict_get "platform" fields))
    (default (_platform_texture self) (dict_get "platform_texture" fields))
    (default (_type_version self) (str_version <$> dict_get "version" fields))
    (default (_icon self) (dict_get "icon" fields))
    self.

(** [loadSettingsFromFile(file_name)]. [depth] is the number of stack frames
    left to the interpreter: a chain of [inherits] longer than that ends in
    [RecursionError]. The signal [settingsLoaded], emitted last, has no
    listener in the model. *)
Fixpoint loadSettingsFromFile (depth : nat) (fs : FileSystem) (file_name : string)
    (self : MachineSettings) : Outcome unit * MachineSettings :=
  match depth with
  | O => (Raised RecursionError, self)
  | S depth' =>
      match and_then (read_json fs file_name) (λ data,
              and_then (check_required file_name data) (λ _,
                and_then (check_version file_name data) (λ _, Returned data))) with
      | Raised e => (Raised e, self)
      | Returned (JObj fields) =>
          let self1 := load_metadata file_name fields self in
          match dict_get "inherits" fields with
          | None => load_layers fields self1
          | Some (JStr inherits) =>
              match loadSettingsFromFile depth' fs
                      (dirname file_name +:+ "/" +:+ inherits) init with
              | (Raised e, _) => (Raised e, self1)
              | (Returned _, inherits_from) =>
                  load_layers fields (adopt inherits_from self1)
              end
          | Some _ => (Raised TypeError, self1)
          end
      | Returned _ => (Raised TypeError, self)
      end
  end.

(** ** Instance files *)

Section Instance.

(** [Resources.getPath(Resources.MachineDefinitions, name)], a parameter:
    the resource lookup is an external collaborator. [None] is its
    [FileNotFoundError]. *)
Variable getPath : string → option string.

(** [sys.get_int_max_str_digits()], a setting of the interpreter. *)
Variable max_str_digits : nat.

(** [loadFromFile(path)]. The name is read from the file after the
    definition has been loaded. *)
Definition loadFromFile (depth : nat) (fs : FileSystem) (path : string)
    (self : MachineSettings) : Outcome unit * MachineSettings :=
  match read_config fs path with
  | Raised e => (Raised e, self)
  | Returned config =>
      if negb (has_section config "General")
      then (Raised (InvalidFileError path), self)
      else if negb (has_option config "General" "version")
      then (Raised (InvalidVersionError path), self)
      else
        match and_then (config_get config "General" "version" None)
                (py_int max_str_digits) with
        | Raised e => (Raised e, self)
        | Returned v =>
            if negb (v =? MachineInstanceVersion)%Z
            then (Raised (InvalidVersionError path), self)
            else if negb (has_option config "General" "name") ||
                    negb (has_option config "General" "json_file")
            then (Raised (InvalidFileError path), self)
            else
              match config_get config "General" "json_file" None with
              | Raised e => (Raised e, self)
              | Returned json_file =>
                  match getPath json_file with
                  | None => (Raised (InvalidFileError path), self)
                  | Some file_name =>
                      match loadSettingsFromFile depth fs file_name self with
                      | (Raised (FileNotFoundError _), self1) =>
                          (Raised (InvalidFileError path), self1)
                      | (Raised e, self1) => (Raised e, self1)
                      | (Returned _, self1) =>
                          match config_get config "General" "name"
                                  (Some "Unknown Machine") with
                          | Raised e => (Raised e, self1)
                          | Returned name => (Returned (), set_name name self1)
                          end
                      end
                  end
              end
        end
  end.

End Instance.

(** [saveToFile(path)]: the three options of section General are set, which
    raises [ValueError] for a value with a stray percent sign, and then the
    file is written. *)
Definition saveToFile (path : string) (self : MachineSettings) (fs : FileSystem)
    : Outcome unit * FileSystem :=
  match and_then (before_set (_name self)) (λ name,
          and_then (before_set (basename (_json_file self))) (λ json_file,
            and_then (before_set "1") (λ version,
              Returned [("name", name); ("json_file", json_file);
                        ("version", version)]))) with
  | Raised e => (Raised e, fs)
  | Returned items =>
      (Returned (), <[path := written_file (write_section "General" items)]> fs)
  end.

(** ** What a definition document declares *)

(** "The version field is present and equal to the supported schema
    version", with the comparison of the loader. *)
Definition version_supported (fields : Dict) : bool :=
  match dict_get "version" fields with
  | Some version => negb (py_ne_int version MachineDefinitionVersion)
  | None => false
  end.

(** The keys of the settings that a section of the document names. *)
Definition section_keys (name : string) (fields : Dict) : list string :=
  match dict_get name fields with
  | Some (JObj entries) => dict_keys entries
  | _ => []
  end.

Definition category_fragment_keys (fragment : Json) : list string :=
  match fragment with
  | JObj fields => section_keys "settings" fields
  | _ => []
  end.

Definition categories_keys (fields : Dict) : list string :=
  match dict_get "categories" fields with
  | Some (JObj categories) =>
      concat ((λ entry, category_fragment_keys entry.2) <$> categories)
  | _ => []
  end.

(** The setting keys of the document's own [machine_settings], [categories]
    and [overrides] sections. *)
Definition own_keys (fields : Dict) : list string :=
  section_keys "machine_settings" fields ++ categories_keys fields ++
  section_keys "overrides" fields.

(** A valid definition: the required fields, the supported version, and
    sections that are objects of objects. *)
Definition is_JObj (j : Json) : bool :=
  match j with
  | JObj _ => true
  | _ => false
  end.

Definition settings_section_ok (name : string) (fields : Dict) : bool :=
  match dict_get name fields with
  | None => true
  | Some (JObj entries) => forallb (λ entry, is_JObj entry.2) entries
  | Some _ => false
  end.

Definition category_fragment_ok (fragment : Json) : bool :=
  match fragment with
  | JObj fields => settings_section_ok "settings" fields
  | _ => false
  end.

Definition categories_section_ok (fields : Dict) : bool :=
  match dict_get "categories" fields with
  | None => true
  | Some (JObj categories) =>
      forallb (λ entry, category_fragment_ok entry.2) categories
  | Some _ => false
  end.

Definition valid_definition (fields : Dict) : bool :=
  dict_has "id" fields && dict_has "name" fields && version_supported fields &&
  settings_section_ok "machine_settings" fields &&
  categories_section_ok fields &&
  settings_section_ok "overrides" fields.

(** ** A worked example *)

(** The scenario of the specification: [base.json] declares a machine
    setting and category [quality] with setting [layer_height]; [child.json]
    inherits from it and overrides the default of [layer_height]; one of its
    overrides names a key that nothing declares. *)
Definition base_fields : Dict :=
  [("id", JStr "base"); ("name", JStr "Base printer"); ("version", JInt 1);
   ("machine_settings",
    JObj [("machine_width", JObj [("default", JInt 200)])]);
   ("categories",
    JObj [("quality",
           JObj [("label", JStr "Quality");
                 ("settings",
                  JObj [("layer_height",
                         JObj [("default", JFloat (Q2Qc (2 # 10)));
                               ("min_value", JFloat (Q2Qc (5 # 100)));
                               ("max_value", JFloat (Q2Qc (3 # 10)))]);
                        ("wall_count", JObj [("default", JInt 2)])])])])].

Definition base_json : Json := JObj base_fields.

Definition child_fields : Dict :=
  [("id", JStr "child"); ("name", JStr "Child printer"); ("version", JInt 1);
   ("inherits", JStr "base.json");
   ("overrides",
    JObj [("layer_height", JObj [("default", JFloat (Q2Qc (15 # 100)))]);
          ("nozzle_size", JObj [("default", JInt 4)])])].

Definition child_json : Json := JObj child_fields.

Definition example_fs : FileSystem :=
  <["machines/base.json" := JsonFile base_json]>
    (<["machines/child.json" := JsonFile child_json]> ∅).

(** The machine that loading [base.json] into a fresh instance leaves. *)
Definition base_machine : MachineSettings :=
  (loadSettingsFromFile 1 example_fs "machines/base.json" init).2.

(** The machine that loading [child.json] into a fresh instance leaves. *)
Definition example_machine : MachineSettings :=
  (loadSettingsFromFile 2 example_fs "machines/child.json" init).2.

(** The same machine after [setSettingValueByKey("machine_width", 250)]. *)
Definition tuned_machine : MachineSettings :=
  setSettingValueByKey "machine_width" (JInt 250) example_machine.

Definition empty_profile : Profile.t :=
  {| Profile._name := "empty"; Profile._changed_settings := [] |}.

(** A profile saved for an older definition: one key of the tree, one key
    that the tree no longer has. *)
Definition stale_profile : Profile.t :=
  {| Profile._name := "draft";
     Profile._changed_settings :=
       [("wall_count", JInt 3); ("retraction_speed", JInt 40)] |}.

(** A definition of a later schema version, with and without its [id]. *)
Definition future_json : Json :=
  JObj [("id", JStr "proto"); ("name", JStr "Prototype"); ("version", JInt 2)].

Definition anonymous_future_json : Json :=
  JObj [("name", JStr "Prototype"); ("version", JInt 2)].

Definition prototype_fs : FileSystem :=
  <["machines/future.json" := JsonFile future_json]>
    (<["machines/anonymous.json" := JsonFile anonymous_future_json]> ∅).

(** Two copies of one definition, in two directories. *)
Definition twin_fs : FileSystem :=
  <["machines/base.json" := JsonFile base_json]>
    (<["backup/base.json" := JsonFile base_json]> ∅).

(** The round trip of the specification: saving the instance to [path]
    returns, and loading [path] into a fresh instance returns, with the same
    name and the same definition file. *)
Definition round_trip (getPath : string → option string)
    (max_str_digits depth : nat) (fs : FileSystem) (path : string) (self : MachineSettings) : Prop :=
  ∃ saved loaded,
    saveToFile path self fs = (Returned (), saved) ∧
    loadFromFile getPath max_str_digits depth saved path init =
      (Returned (), loaded) ∧
    getName loaded = getName self ∧
    _json_file loaded = _json_file self.

(** ** Vocabulary of the properties *)

(** What the reset loop of [setActiveProfile] does to one setting. *)
Definition reset (s : Setting.t) : Setting.t :=
  Setting.setValue (Setting.getDefaultValue s) s.

(** The settings of a list that have the key, and what [g] observes of
    them. *)
Definition answering_in {B : Type} (g : Setting.t → B) (key : string)
    (settings : list Setting.t) : list B :=
  g <$> filter (λ s, Setting._key s = key) settings.

(** The settings of a machine that have the key, in the order in which
    [getSettingByKey] meets them. *)
Definition answering {B : Type} (g : Setting.t → B) (key : string)
    (self : MachineSettings) : list B :=
  concat ((λ category, answering_in g key (SettingsCategory._settings category))
            <$> _categories self) ++
  answering_in g key (_machine_settings self).

(** The claim of the specification about a sequence of activations, for
    every setting of the machine, categorized or not. *)
Definition at_default_outside (keys : list string) (self : MachineSettings) : Prop :=
  ∀ s, s ∈ getAllSettings true false self → Setting.getKey s ∉ keys →
       Setting.getValue s = Setting.getDefaultValue s.

Definition activation_sequence_resets_all (self : MachineSettings)
    (p1 p2 : Profile.t) : Prop :=
  let self1 := (setActiveProfile (Some p1) self).2 in
  let self2 := (setActiveProfile (Some p2) self1).2 in
  let self3 := (setActiveProfile None self2).2 in
  at_default_outside (dict_keys (Profile.getChangedSettings p1)) self1 ∧
  at_default_outside (dict_keys (Profile.getChangedSettings p2)) self2 ∧
  at_default_outside [] self3.

(** [tree_grows self self']: every reference of [self] is a reference of
    [self'], to a setting with the same key. *)
Definition tree_grows (self self' : MachineSettings) : Prop :=
  ∀ r s, deref self r = Some s →
         ∃ s', deref self' r = Some s' ∧ Setting._key s' = Setting._key s.

Definition has_key (key : string) (self : MachineSettings) : Prop :=
  ∃ r s, deref self r = Some s ∧ Setting._key s = key.

Definition category_grows (category category' : SettingsCategory.t) : Prop :=
  ∀ i s, SettingsCategory._settings category !! i = Some s →
         ∃ s', SettingsCategory._settings category' !! i = Some s' ∧
               Setting._key s' = Setting._key s.

Definition category_has_key (key : string) (category : SettingsCategory.t) : Prop :=
  ∃ i s, SettingsCategory._settings category !! i = Some s ∧ Setting._key s = key.

(** What [g] observes of every setting of the tree, category by category and
    then for the machine settings. *)
Definition tree_obs {B : Type} (g : Setting.t → B) (self : MachineSettings)
    : list (list B) * list B :=
  ((λ category, g <$> SettingsCategory._settings category) <$> _categories self,
   g <$> _machine_settings self).

(** The lookup of [getSettingByKey], on the keys of the tree. *)
Definition find_key_in (key : string) (keys : list string) : option nat :=
  fst <$> list_find (λ k, k = key) keys.

Definition find_ref (key : string) (keys : list (list string) * list string)
    : option SettingRef :=
  match list_find (λ ks, is_Some (find_key_in key ks)) keys.1 with
  | Some (c, ks) => InCategory c <$> find_key_in key ks
  | None => (InMachine ∘ fst) <$> list_find (λ k, k = key) keys.2
  end.

(** Everything of an instance but its tree of settings. *)
Definition without_tree (self : MachineSettings) : MachineSettings :=
  set_categories [] (set_machine_settings [] self).

(** A definition that names itself as its parent, and one whose parent is
    not there. *)
Definition loop_fields : Dict :=
  [("id", JStr "loop"); ("name", JStr "Loop"); ("version", JInt 1);
   ("inherits", JStr "loop.json")].

Definition orphan_fields : Dict :=
  [("id", JStr "orphan"); ("name", JStr "Orphan"); ("version", JInt 1);
   ("platform", JStr "orphan_platform.stl");
   ("inherits", JStr "missing.json");
   ("machine_settings", JObj [("machine_depth", JObj [("default", JInt 150)])])].

Definition broken_fs : FileSystem :=
  <["machines/loop.json" := JsonFile (JObj loop_fields)]>
    (<["machines/orphan.json" := JsonFile (JObj orphan_fields)]> ∅).

(** The instance [rest] holding the tree of settings of [tree]. *)
Definition graft (tree rest : MachineSettings) : MachineSettings :=
  set_categories (_categories tree)
    (set_machine_settings (_machine_settings tree) rest).

(** A value that the configuration file gives back as it was set: it has no
    percent sign, no line break and no white space at either end. *)
Definition plain (value : string) : Prop :=
  contains "%"%char value = false ∧
  contains LF value = false ∧ contains CR value = false ∧
  lstrip value = value ∧ rstrip value = value.

(** What [saveToFile] sets, as the parser has it. *)
Definition saved_config (name json_file : string) : Config :=
  [("General", [("name", name); ("json_file", json_file); ("version", "1")])].

(** The values of [version] that Python finds equal to the number one. *)
Definition version_one (version : option Json) : Prop :=
  version = Some (JInt 1) ∨ version = Some (JFloat (Q2Qc 1)) ∨
  version = Some (JBool true).

(** A definition whose version is written as a float, and nothing else. *)
Definition float_version_fields : Dict :=
  [("id", JStr "lenient"); ("name", JStr "Lenient");
   ("version", JFloat (Q2Qc 1))].

Definition lenient_fs : FileSystem :=
  <["machines/lenient.json" := JsonFile (JObj float_version_fields)]> ∅.

(** * Properties *)

(** ** Lists of settings *)

Lemma elem_of_concat {A : Type} (x : A) (ls : list (list A)) :
  x ∈ concat ls ↔ ∃ l, l ∈ ls ∧ x ∈ l.
Proof.
  induction ls as [|l ls IH]; simpl.
  - split; [intros H; inversion H | intros (l & H & _); inversion H].
  - rewrite elem_of_app, IH. split.
    + intros [H | (l' & H1 & H2)].
      * exists l. split; [left | done].
      * exists l'. split; [by right | done].
    + intros (l' & H1 & H2). apply elem_of_cons in H1 as [-> | H1].
      * by left.
      * right. by exists l'.
Qed.

Lemma elem_of_getAllSettings (include_machine : bool) (self : MachineSettings)
    (s : Setting.t) :
  s ∈ getAllSettings include_machine false self ↔
  (include_machine = true ∧ s ∈ _machine_settings self) ∨
  (∃ category, category ∈ _categories self ∧
               s ∈ SettingsCategory._settings category).
Proof.
  unfold getAllSettings. rewrite elem_of_app, elem_of_concat.
  split.
  - intros [H | (l & Hl & Hs)].
    + destruct include_machine; [by left | inversion H].
    + apply list_elem_of_fmap in Hl as (category & -> & Hc).
      right. by exists category.
  - intros [[-> H] | (category & Hc & Hs)].
    + by left.
    + right. exists (SettingsCategory.getAllSettings category).
      split; [by apply list_elem_of_fmap_2 | done].
Qed.

Lemma getAllSettings_ignores_machine_settings (self : MachineSettings)
    (machine_settings : list Setting.t) (visible_only : bool) :
  getAllSettings false visible_only (set_machine_settings machine_settings self) =
  getAllSettings false visible_only self.
Proof. reflexivity. Qed.

Section ValidationFacts.

Variable validate : Setting.t → ResultCodes.

Lemma any_result_true (selected : ResultCodes → bool) (settings : list Setting.t) :
  any_result validate selected settings = true ↔
  ∃ s, s ∈ settings ∧ selected (validate s) = true.
Proof.
  induction settings as [|s settings IH]; simpl.
  - split; [discriminate | intros (s & H & _); inversion H].
  - destruct (selected (validate s)) eqn:Hs.
    + split; [intros _; exists s; split; [left | done] | done].
    + rewrite IH. split.
      * intros (s' & H1 & H2). exists s'. split; [by right | done].
      * intros (s' & H1 & H2). apply elem_of_cons in H1 as [-> | H1].
        -- congruence.
        -- by exists s'.
Qed.

Lemma is_error_spec (result : ResultCodes) :
  is_error result = true ↔ result = min_value_error ∨ result = max_value_error.
Proof. destruct result; vm_compute; intuition discriminate. Qed.

Lemma is_warning_spec (result : ResultCodes) :
  is_warning result = true ↔ result = min_value_warning ∨ result = max_value_warning.
Proof. destruct result; vm_compute; intuition discriminate. Qed.

(** C6. [hasErrorValue()] is true exactly when some setting of
    [getAllSettings()] validates to the min-value-error or the
    max-value-error classification; it is false for a machine none of whose
    settings does, and for a freshly constructed MachineSettings. *)
Theorem hasErrorValue_iff (self : MachineSettings) :
  (hasErrorValue validate self = true ↔
   ∃ s, s ∈ getAllSettings false false self ∧
        (validate s = min_value_error ∨ validate s = max_value_error)) ∧
  ((∀ s, s ∈ getAllSettings false false self → validate s = ok) →
   hasErrorValue validate self = false) ∧
  hasErrorValue validate init = false.
Proof.
  assert (Hiff : hasErrorValue validate self = true ↔
    ∃ s, s ∈ getAllSettings false false self ∧
         (validate s = min_value_error ∨ validate s = max_value_error)).
  { unfold hasErrorValue. rewrite any_result_true.
    split; intros (s & H1 & H2); exists s; split; try done;
      by apply is_error_spec. }
  split; [exact Hiff |]. split; [| reflexivity].
  intros Hok. apply not_true_is_false. intros E.
  apply Hiff in E as (s & Hs & Hv). rewrite (Hok s Hs) in Hv.
  destruct Hv; discriminate.
Qed.

(** C9. [hasErrorValue()] and [hasWarningValue()] look at the settings of
    the categories only: their results do not depend on the machine-level
    settings, and a true result is always owed to a setting of a
    category. *)
Theorem validation_queries_skip_machine_settings (self : MachineSettings) :
  (∀ machine_settings,
     hasErrorValue validate (set_machine_settings machine_settings self) =
     hasErrorValue validate self ∧
     hasWarningValue validate (set_machine_settings machine_settings self) =
     hasWarningValue validate self) ∧
  (hasErrorValue validate self = true →
   ∃ category s, category ∈ _categories self ∧
                 s ∈ SettingsCategory._settings category ∧
                 (validate s = min_value_error ∨ validate s = max_value_error)) ∧
  (hasWarningValue validate self = true →
   ∃ category s, category ∈ _categories self ∧
                 s ∈ SettingsCategory._settings category ∧
                 (validate s = min_value_warning ∨ validate s = max_value_warning)).
Proof.
  split; [intros ms; split; reflexivity |].
  unfold hasErrorValue, hasWarningValue. rewrite !any_result_true.
  split; intros (s & Hs & Hv);
    apply elem_of_getAllSettings in Hs as [[? _] | (category & Hc & Hs)];
    try discriminate; exists category, s; repeat split; try done.
  - by apply is_error_spec.
  - by apply is_warning_spec.
Qed.

End ValidationFacts.

(** ** Lookups *)

Lemma Setting_getSettingByKey_is_Some (s : Setting.t) (key : string) :
  is_Some (Setting.getSettingByKey s key) ↔ Setting._key s = key.
Proof.
  unfold Setting.getSettingByKey. destruct (decide (Setting._key s = key)).
  - split; [done | intros _; eauto].
  - split; [intros [? ?]; discriminate | done].
Qed.

Lemma category_getSettingByKey_Some (category : SettingsCategory.t) (key : string) (i : nat) :
  SettingsCategory.getSettingByKey category key = Some i ↔
  ∃ s, SettingsCategory._settings category !! i = Some s ∧ Setting._key s = key ∧
       ∀ j s', SettingsCategory._settings category !! j = Some s' → j < i →
               Setting._key s' ≠ key.
Proof.
  unfold SettingsCategory.getSettingByKey. split.
  - intros H. apply fmap_Some in H as ([i' s] & H & ->).
    apply list_find_Some in H as (H1 & H2 & H3). exists s.
    split; [done |]. split; [by apply Setting_getSettingByKey_is_Some |].
    intros j s' Hj Hlt Hk. apply (H3 j s' Hj Hlt).
    by apply Setting_getSettingByKey_is_Some.
  - intros (s & H1 & H2 & H3). apply fmap_Some. exists (i, s). split; [| done].
    apply list_find_Some. split; [done |].
    split; [by apply Setting_getSettingByKey_is_Some |].
    intros j s' Hj Hlt Hk. apply (H3 j s' Hj Hlt).
    by apply Setting_getSettingByKey_is_Some.
Qed.

Lemma category_getSettingByKey_None (category : SettingsCategory.t) (key : string) :
  SettingsCategory.getSettingByKey category key = None ↔
  ∀ s, s ∈ SettingsCategory._settings category → Setting._key s ≠ key.
Proof.
  unfold SettingsCategory.getSettingByKey. rewrite fmap_None, list_find_None, Forall_forall.
  split; intros H s Hs Hk; apply (H s Hs); by apply Setting_getSettingByKey_is_Some.
Qed.

Lemma category_getSettingByKey_is_Some (category : SettingsCategory.t) (key : string) :
  is_Some (SettingsCategory.getSettingByKey category key) ↔
  ∃ s, s ∈ SettingsCategory._settings category ∧ Setting._key s = key.
Proof.
  split.
  - intros [i H]. apply category_getSettingByKey_Some in H as (s & H1 & H2 & _).
    exists s. split; [by eapply list_elem_of_lookup_2 | done].
  - intros (s & Hs & Hk).
    destruct (SettingsCategory.getSettingByKey category key) eqn:E; [eauto |].
    exfalso. by eapply category_getSettingByKey_None.
Qed.

(** A reference that [getSettingByKey] returns is a live one, and the setting
    behind it has the key. *)
Lemma getSettingByKey_Some (self : MachineSettings) (key : string) (r : SettingRef) :
  getSettingByKey self key = Some r →
  ∃ s, deref self r = Some s ∧ Setting._key s = key ∧
       s ∈ getAllSettings true false self.
Proof.
  unfold getSettingByKey. intros H.
  destruct (list_find _ (_categories self)) as [[c category]|] eqn:Hc.
  - apply list_find_Some in Hc as (Hc & _ & _).
    apply fmap_Some in H as (i & Hi & ->).
    apply category_getSettingByKey_Some in Hi as (s & Hs & Hk & _).
    exists s. split; [by simpl; rewrite Hc |]. split; [done |].
    apply elem_of_getAllSettings. right. exists category.
    split; by eapply list_elem_of_lookup_2.
  - apply fmap_Some in H as ([i s] & Hm & ->).
    apply list_find_Some in Hm as (Hm & Hk & _).
    exists s. split; [done |].
    split; [by apply Setting_getSettingByKey_is_Some |].
    apply elem_of_getAllSettings. left. split; [done |].
    by eapply list_elem_of_lookup_2.
Qed.

Lemma getSettingByKey_None (self : MachineSettings) (key : string) :
  getSettingByKey self key = None ↔
  ∀ s, s ∈ getAllSettings true false self → Setting._key s ≠ key.
Proof.
  unfold getSettingByKey. split.
  - intros H s Hs Hk.
    destruct (list_find _ (_categories self)) as [[c category]|] eqn:Hc.
    + apply list_find_Some in Hc as (_ & [i Hi] & _). by rewrite Hi in H.
    + apply fmap_None in H.
      apply list_find_None in Hc. apply list_find_None in H.
      rewrite Forall_forall in Hc. rewrite Forall_forall in H.
      apply elem_of_getAllSettings in Hs as [[_ Hs] | (category & Hcat & Hs)].
      * apply (H s Hs). by apply Setting_getSettingByKey_is_Some.
      * apply (Hc category Hcat). apply category_getSettingByKey_is_Some. eauto.
  - intros H.
    destruct (list_find _ (_categories self)) as [[c category]|] eqn:Hc.
    + exfalso. apply list_find_Some in Hc as (Hc & Hsome & _).
      apply category_getSettingByKey_is_Some in Hsome as (s & Hs & Hk).
      apply (H s); [| done]. apply elem_of_getAllSettings. right.
      exists category. split; [by eapply list_elem_of_lookup_2 | done].
    + apply fmap_None. apply list_find_None, Forall_forall.
      intros s Hs Hk. apply Setting_getSettingByKey_is_Some in Hk.
      apply (H s); [| done]. apply elem_of_getAllSettings. by left.
Qed.

(** C8. [getSettingByKey] and [getSettingsCategory] are total: each returns a
    setting (a category) that has the key when there is one, and [None]
    exactly when there is none. *)
Theorem lookups_return_match_or_none (self : MachineSettings) (key : string) :
  match getSettingByKey self key with
  | Some r => ∃ s, deref self r = Some s ∧ Setting.getKey s = key ∧
                   s ∈ getAllSettings true false self
  | None => ∀ s, s ∈ getAllSettings true false self → Setting.getKey s ≠ key
  end ∧
  match getSettingsCategory self key with
  | Some c => ∃ category, _categories self !! c = Some category ∧
                          SettingsCategory.getKey category = key
  | None => ∀ category, category ∈ _categories self →
                        SettingsCategory.getKey category ≠ key
  end.
Proof.
  split.
  - destruct (getSettingByKey self key) as [r|] eqn:E.
    + by apply getSettingByKey_Some.
    + by apply getSettingByKey_None.
  - unfold getSettingsCategory.
    destruct (list_find _ (_categories self)) as [[c category]|] eqn:E; simpl.
    + apply list_find_Some in E as (H1 & H2 & _). eauto.
    + apply list_find_None in E. by rewrite Forall_forall in E.
Qed.

(** C10. For a key that no setting has, [setSettingValueByKey] leaves the
    MachineSettings as it is and [getSettingValueByKey] returns [None]. *)
Theorem unknown_key_value_access (self : MachineSettings) (key : string) (value : Json) :
  (∀ s, s ∈ getAllSettings true false self → Setting.getKey s ≠ key) →
  setSettingValueByKey key value self = self ∧
  getSettingValueByKey self key = JNull.
Proof.
  intros H. apply getSettingByKey_None in H.
  unfold setSettingValueByKey, getSettingValueByKey. by rewrite H.
Qed.

(** ** References and in-place mutation *)

Lemma deref_mutate (r r' : SettingRef) (f : Setting.t → Setting.t) (self : MachineSettings) :
  deref (mutate r f self) r' =
  if decide (r = r') then f <$> deref self r' else deref self r'.
Proof.
  destruct r as [c i | i], r' as [c' i' | i'];
    cbn [deref mutate set_categories set_machine_settings
         _categories _machine_settings];
    try (rewrite decide_False by discriminate; done).
  - destruct (decide (c = c')) as [-> | Hc].
    + rewrite list_lookup_alter_eq.
      destruct (_categories self !! c') as [category|] eqn:E; simpl.
      * destruct (decide (i = i')) as [-> | Hi].
        -- rewrite list_lookup_alter_eq. by rewrite decide_True.
        -- rewrite list_lookup_alter_ne by done.
           rewrite decide_False by congruence. done.
      * by destruct (decide _).
    + rewrite list_lookup_alter_ne by done.
      rewrite decide_False by congruence. done.
  - destruct (decide (i = i')) as [-> | Hi].
    + rewrite list_lookup_alter_eq. by rewrite decide_True.
    + rewrite list_lookup_alter_ne by done.
      rewrite decide_False by congruence. done.
Qed.

Lemma deref_valueChanged_emit (s : Setting.t) (self : MachineSettings) (r : SettingRef) :
  deref (valueChanged_emit s self) r = deref self r.
Proof.
  unfold valueChanged_emit, settingChanged_emit, _onSettingChanged.
  destruct (Setting._valueChanged s), (settingChanged self), (_active_profile self);
    reflexivity.
Qed.

Lemma deref_setValue_at (r r' : SettingRef) (value : Json) (self : MachineSettings) :
  deref (setValue_at r value self) r' =
  if decide (r = r') then Setting.setValue value <$> deref self r' else deref self r'.
Proof.
  unfold setValue_at. destruct (deref self r) as [s|] eqn:E.
  - by rewrite deref_valueChanged_emit, deref_mutate.
  - destruct (decide (r = r')) as [<- | _]; [by rewrite E | done].
Qed.

Lemma reset_reset (s : Setting.t) : reset (reset s) = reset s.
Proof. reflexivity. Qed.

Lemma deref_reset_setting (r r' : SettingRef) (self : MachineSettings) :
  deref (reset_setting self r) r' =
  if decide (r = r') then reset <$> deref self r' else deref self r'.
Proof.
  unfold reset_setting. destruct (deref self r) as [s|] eqn:E.
  - rewrite deref_setValue_at. destruct (decide (r = r')) as [<- | _]; [| done].
    by rewrite E.
  - destruct (decide (r = r')) as [<- | _]; [by rewrite E | done].
Qed.

Lemma deref_foldl_reset_setting (refs : list SettingRef) (self : MachineSettings)
    (r : SettingRef) :
  deref (foldl reset_setting self refs) r =
  if decide (r ∈ refs) then reset <$> deref self r else deref self r.
Proof.
  revert self. induction refs as [|r0 refs IH]; intros self; cbn [foldl].
  - rewrite decide_False; [done | by intros ?%elem_of_nil].
  - rewrite IH, deref_reset_setting.
    destruct (decide (r0 = r)) as [-> | Hne].
    + rewrite (decide_True (P := r ∈ r :: refs)) by left.
      destruct (decide (r ∈ refs)); [| done].
      destruct (deref self r); [simpl; by rewrite reset_reset | done].
    + destruct (decide (r ∈ refs)) as [Hin | Hnin].
      * rewrite (decide_True (P := r ∈ r0 :: refs)); [done | by right].
      * rewrite (decide_False (P := r ∈ r0 :: refs)); [done |].
        intros [? | ?]%elem_of_cons; [congruence | done].
Qed.

(** The categorized settings, seen through references. *)
Lemma elem_of_getAllSettings_refs (self : MachineSettings) (r : SettingRef) :
  r ∈ getAllSettings_refs false self ↔
  ∃ c i, r = InCategory c i ∧ is_Some (deref self r).
Proof.
  unfold getAllSettings_refs. simpl. rewrite elem_of_concat. split.
  - intros (l & Hl & Hr). apply list_elem_of_lookup in Hl as [c Hl].
    rewrite list_lookup_imap in Hl.
    destruct (_categories self !! c) as [category|] eqn:E; [| discriminate].
    injection Hl as <-. unfold category_refs in Hr.
    apply list_elem_of_fmap in Hr as (i & -> & Hi).
    apply elem_of_seq in Hi as [_ Hi]. simpl in Hi.
    exists c, i. split; [done |]. simpl. rewrite E. simpl.
    by apply lookup_lt_is_Some.
  - intros (c & i & -> & Hs). simpl in Hs.
    destruct (_categories self !! c) as [category|] eqn:E; simpl in Hs;
      [| by destruct Hs].
    exists (category_refs c category). split.
    + apply list_elem_of_lookup. exists c. by rewrite list_lookup_imap, E.
    + unfold category_refs. apply list_elem_of_fmap_2. apply elem_of_seq.
      apply lookup_lt_is_Some in Hs. lia.
Qed.

Lemma elem_of_getAllSettings_deref (self : MachineSettings) (s : Setting.t) :
  s ∈ getAllSettings false false self ↔
  ∃ c i, deref self (InCategory c i) = Some s.
Proof.
  rewrite elem_of_getAllSettings. split.
  - intros [[? _] | (category & Hc & Hs)]; [discriminate |].
    apply list_elem_of_lookup in Hc as [c Hc].
    apply list_elem_of_lookup in Hs as [i Hs].
    exists c, i. simpl. by rewrite Hc.
  - intros (c & i & H). simpl in H.
    destruct (_categories self !! c) as [category|] eqn:E; [| discriminate].
    right. exists category. split; by eapply list_elem_of_lookup_2.
Qed.

Lemma elem_of_machine_settings_deref (self : MachineSettings) (s : Setting.t) :
  s ∈ _machine_settings self ↔ ∃ i, deref self (InMachine i) = Some s.
Proof. apply list_elem_of_lookup. Qed.

(** After the reset loop every categorized setting has its default value, and
    nothing else of the tree has changed. *)
Lemma deref_reset_settings (self : MachineSettings) (r : SettingRef) :
  deref (reset_settings self) r =
  match r with
  | InCategory _ _ => reset <$> deref self r
  | InMachine _ => deref self r
  end.
Proof.
  unfold reset_settings. rewrite deref_foldl_reset_setting.
  destruct (decide (r ∈ getAllSettings_refs false self)) as [Hin | Hnin].
  - apply elem_of_getAllSettings_refs in Hin as (c & i & -> & _). done.
  - destruct r as [c i | i]; [| done].
    destruct (deref self (InCategory c i)) eqn:E; [| done].
    exfalso. apply Hnin, elem_of_getAllSettings_refs.
    exists c, i. by rewrite E.
Qed.

(** ** Profile activation *)

Lemma apply_changed_settings_eq (keys : list string) (changed_settings : Dict)
    (self : MachineSettings) :
  apply_changed_settings keys changed_settings self =
  (match keys with
   | [] => Returned ()
   | _ :: _ => Raised (AttributeError "getSetting")
   end, self).
Proof. destruct keys; reflexivity. Qed.

Lemma deref_set_settingChanged (b : bool) (self : MachineSettings) (r : SettingRef) :
  deref (set_settingChanged b self) r = deref self r.
Proof. by destruct r. Qed.

Lemma deref_set_active_profile (p : option Profile.t) (self : MachineSettings)
    (r : SettingRef) :
  deref (set_active_profile p self) r = deref self r.
Proof. by destruct r. Qed.

Lemma deref_setActiveProfile_Some (p : Profile.t) (self : MachineSettings) (r : SettingRef) :
  deref (setActiveProfile (Some p) self).2 r =
  match r with
  | InCategory _ _ => reset <$> deref self r
  | InMachine _ => deref self r
  end.
Proof.
  unfold setActiveProfile. rewrite apply_changed_settings_eq.
  assert (H : ∀ self1 : MachineSettings,
             (∀ r, deref self1 r = deref self r) →
             deref (reset_settings self1) r =
             match r with
             | InCategory _ _ => reset <$> deref self r
             | InMachine _ => deref self r
             end).
  { intros self1 H1. rewrite deref_reset_settings, H1. done. }
  destruct (dict_keys (Profile.getChangedSettings p)); cbn [snd];
    rewrite ?deref_set_active_profile, ?deref_set_settingChanged;
    apply H; intros r0; destruct (_active_profile self);
    by rewrite ?deref_set_settingChanged.
Qed.

Lemma tree_setActiveProfile_None (self : MachineSettings) :
  _categories (setActiveProfile None self).2 = _categories self ∧
  _machine_settings (setActiveProfile None self).2 = _machine_settings self.
Proof. unfold setActiveProfile. by destruct (_active_profile self). Qed.

(** A non-empty profile never gets past the lookup of its first key. *)
Lemma setActiveProfile_nonempty_raises (p : Profile.t) (self : MachineSettings) :
  Profile.getChangedSettings p ≠ [] →
  (setActiveProfile (Some p) self).1 = Raised (AttributeError "getSetting").
Proof.
  intros H. unfold setActiveProfile. rewrite apply_changed_settings_eq.
  destruct (Profile.getChangedSettings p) as [|[k v] rest]; done.
Qed.

(** C1, as stated, fails: a machine-level setting that was given a value keeps
    it through the activations; after the first one [machine_width] still has
    the value 250 and not its default 200. *)
Lemma activation_keeps_machine_setting_value :
  getSettingValueByKey
    (setActiveProfile (Some empty_profile) tuned_machine).2 "machine_width"
    = JInt 250 ∧
  ¬ activation_sequence_resets_all tuned_machine empty_profile empty_profile.
Proof.
  split; [vm_compute; reflexivity |].
  intros [H _].
  specialize (H {| Setting._key := "machine_width";
                   Setting._default_value := JInt 200;
                   Setting._value := JInt 250;
                   Setting._visible := true;
                   Setting._fields := [("default", JInt 200)];
                   Setting._valueChanged := false |}).
  assert (E : JInt 250 = JInt 200); [| discriminate E].
  apply H.
  - apply (list_elem_of_lookup_2 _ 0). vm_compute. reflexivity.
  - intros Hin. simpl in Hin. inversion Hin.
Qed.

(** C1, amended. The activation of none resets nothing: on any instance
    [other], whatever the values of its settings, it leaves every setting,
    categorized or not, with the value it had. Through the activation of
    [p1], then [p2], then none: after each activation of a profile every
    categorized setting whose key the profile does not store has its default
    value; the activation of none leaves every setting as it was, so the
    categorized settings that [p2] does not store still have their default
    values; no activation touches a machine-level setting. *)
Theorem activation_sequence_resets_categorized (self other : MachineSettings)
    (p1 p2 : Profile.t) :
  let self1 := (setActiveProfile (Some p1) self).2 in
  let self2 := (setActiveProfile (Some p2) self1).2 in
  let self3 := (setActiveProfile None self2).2 in
  getAllSettings true false (setActiveProfile None other).2 =
    getAllSettings true false other ∧
  (∀ s, s ∈ getAllSettings false false self1 →
        Setting.getKey s ∉ dict_keys (Profile.getChangedSettings p1) →
        Setting.getValue s = Setting.getDefaultValue s) ∧
  (∀ s, s ∈ getAllSettings false false self2 →
        Setting.getKey s ∉ dict_keys (Profile.getChangedSettings p2) →
        Setting.getValue s = Setting.getDefaultValue s) ∧
  getAllSettings true false self3 = getAllSettings true false self2 ∧
  (∀ s, s ∈ getAllSettings false false self3 →
        Setting.getKey s ∉ dict_keys (Profile.getChangedSettings p2) →
        Setting.getValue s = Setting.getDefaultValue s) ∧
  _machine_settings self1 = _machine_settings self ∧
  _machine_settings self2 = _machine_settings self ∧
  _machine_settings self3 = _machine_settings self.
Proof.
  intros self1 self2 self3.
  assert (Hreset : ∀ (p : Profile.t) (m : MachineSettings) (s : Setting.t),
             s ∈ getAllSettings false false (setActiveProfile (Some p) m).2 →
             Setting.getValue s = Setting.getDefaultValue s).
  { intros p m s Hs. apply elem_of_getAllSettings_deref in Hs as (c & i & Hs).
    rewrite deref_setActiveProfile_Some in Hs.
    apply fmap_Some in Hs as (s0 & _ & ->). reflexivity. }
  assert (Hmachine : ∀ (p : Profile.t) (m : MachineSettings),
             _machine_settings (setActiveProfile (Some p) m).2 = _machine_settings m).
  { intros p m. apply list_eq. intros i.
    apply (deref_setActiveProfile_Some p m (InMachine i)). }
  destruct (tree_setActiveProfile_None self2) as [Hc3 Hm3]. fold self3 in Hc3, Hm3.
  split.
  { destruct (tree_setActiveProfile_None other) as [Hc Hm].
    unfold getAllSettings. by rewrite Hc, Hm. }
  split; [intros s Hs _; by eapply Hreset |].
  split; [intros s Hs _; by eapply Hreset |].
  split; [unfold getAllSettings; by rewrite Hc3, Hm3 |].
  split.
  - intros s Hs _. unfold getAllSettings in Hs. rewrite Hc3 in Hs.
    by eapply Hreset.
  - split; [apply Hmachine |].
    split; [| rewrite Hm3]; unfold self2, self1; by rewrite !Hmachine.
Qed.

(** C2. The activation of a profile with stored keys, one of the tree and one
    unknown to it, raises: the lookup it calls is not a method of the class.
    The stored value of the known key is not applied and the profile does not
    become the active one. *)
Theorem stale_profile_activation_raises :
  (setActiveProfile (Some stale_profile) example_machine).1 =
    Raised (AttributeError "getSetting") ∧
  getSettingValueByKey (setActiveProfile (Some stale_profile) example_machine).2
    "wall_count" = JInt 2 ∧
  getActiveProfile (setActiveProfile (Some stale_profile) example_machine).2 = None.
Proof. vm_compute. repeat split. Qed.

(** ** The settings that answer to a key *)

Section FilterFacts.

Context {A B : Type} (P : A → Prop) {Pdec : ∀ x, Decision (P x)} (g : A → B).

Lemma fmap_filter_alter (f : A → A) (l : list A) (i : nat) :
  (∀ x, l !! i = Some x → (P (f x) ↔ P x) ∧ (P x → g (f x) = g x)) →
  g <$> filter P (alter f i l) = g <$> filter P l.
Proof.
  revert i. induction l as [|a l IH]; intros [|i] Hx; try done.
  - destruct (Hx a eq_refl) as [Hiff Hg].
    change (alter f 0 (a :: l)) with (f a :: l).
    destruct (decide (P a)) as [Ha | Ha].
    + rewrite (filter_cons_True P (f a)) by by apply Hiff.
      rewrite (filter_cons_True P a) by done.
      rewrite !fmap_cons. by rewrite Hg.
    + rewrite (filter_cons_False P (f a)) by by rewrite Hiff.
      by rewrite (filter_cons_False P a).
  - change (alter f (S i) (a :: l)) with (a :: alter f i l).
    destruct (decide (P a)) as [Ha | Ha].
    + rewrite !(filter_cons_True P a) by done.
      rewrite !fmap_cons. f_equal. by apply IH.
    + rewrite !(filter_cons_False P a) by done. by apply IH.
Qed.

Lemma filter_concat (ls : list (list A)) :
  filter P (concat ls) = concat (filter P <$> ls).
Proof.
  induction ls as [|l ls IH]; [done |].
  simpl. by rewrite filter_app, IH.
Qed.

Lemma head_filter_list_find (l : list A) :
  head (filter P l) = snd <$> list_find P l.
Proof.
  induction l as [|a l IH]; [done |].
  cbn [list_find]. destruct (decide (P a)) as [Ha | Ha].
  - by rewrite filter_cons_True.
  - rewrite filter_cons_False by done. rewrite IH.
    by destruct (list_find P l) as [[? ?]|].
Qed.

Lemma filter_nil_iff (l : list A) :
  filter P l = [] ↔ ∀ x, x ∈ l → ¬ P x.
Proof.
  split.
  - intros H x Hx HP.
    assert (Hin : x ∈ filter P l) by by apply list_elem_of_filter.
    rewrite H in Hin. inversion Hin.
  - intros H. induction l as [|a l IH]; [done |].
    rewrite filter_cons_False by (apply H; left).
    apply IH. intros x Hx. apply H. by right.
Qed.

End FilterFacts.

Lemma fmap_alter_same {A B : Type} (h : A → B) (G : A → A) (l : list A) (c : nat) :
  (∀ x, l !! c = Some x → h (G x) = h x) → h <$> alter G c l = h <$> l.
Proof.
  revert c. induction l as [|a l IH]; intros [|c] Hx; try done.
  - change (alter G 0 (a :: l)) with (G a :: l).
    rewrite !fmap_cons. by rewrite (Hx a).
  - change (alter G (S c) (a :: l)) with (a :: alter G c l).
    rewrite !fmap_cons. f_equal. by apply IH.
Qed.

Lemma concat_fmap_fmap {A B : Type} (g : A → B) (ls : list (list A)) :
  g <$> concat ls = concat ((λ l : list A, g <$> l) <$> ls).
Proof.
  induction ls as [|l ls IH]; [done |].
  simpl. by rewrite fmap_app, IH.
Qed.

Section Answering.

Context {B : Type} (g : Setting.t → B) (key : string).

Lemma answering_in_app (l1 l2 : list Setting.t) :
  answering_in g key (l1 ++ l2) = answering_in g key l1 ++ answering_in g key l2.
Proof. unfold answering_in. by rewrite filter_app, fmap_app. Qed.

Lemma answering_in_other (s : Setting.t) :
  Setting._key s ≠ key → answering_in g key [s] = [].
Proof. intros H. unfold answering_in. by rewrite filter_cons_False. Qed.

Lemma answering_in_alter (f : Setting.t → Setting.t) (l : list Setting.t) (i : nat) :
  (∀ x, l !! i = Some x →
        Setting._key (f x) = Setting._key x ∧
        (Setting._key x = key → g (f x) = g x)) →
  answering_in g key (alter f i l) = answering_in g key l.
Proof.
  intros H. apply fmap_filter_alter. intros x Hx.
  destruct (H x Hx) as [Hk Hg]. rewrite Hk. done.
Qed.

Lemma answering_mutate (r : SettingRef) (f : Setting.t → Setting.t)
    (self : MachineSettings) :
  (∀ x, deref self r = Some x →
        Setting._key (f x) = Setting._key x ∧
        (Setting._key x = key → g (f x) = g x)) →
  answering g key (mutate r f self) = answering g key self.
Proof.
  intros H. destruct r as [c i | i]; unfold answering;
    cbn [mutate set_categories set_machine_settings _categories _machine_settings].
  - f_equal. f_equal. apply fmap_alter_same. intros category Hc.
    cbn [SettingsCategory.with_settings SettingsCategory._settings].
    apply answering_in_alter. intros x Hx. apply H. simpl. by rewrite Hc.
  - f_equal. by apply answering_in_alter.
Qed.

Lemma answering_set_category (c : nat) (category' : SettingsCategory.t)
    (self : MachineSettings) :
  (∀ category, _categories self !! c = Some category →
     answering_in g key (SettingsCategory._settings category') =
     answering_in g key (SettingsCategory._settings category)) →
  answering g key (set_categories (<[c := category']> (_categories self)) self) =
  answering g key self.
Proof.
  intros H. unfold answering.
  cbn [set_categories _categories _machine_settings].
  f_equal. f_equal. rewrite list_insert_alter. by apply fmap_alter_same.
Qed.

Lemma answering_addSetting (s : Setting.t) (self : MachineSettings) :
  Setting._key s ≠ key → answering g key (addSetting s self) = answering g key self.
Proof.
  intros H. unfold answering, addSetting.
  cbn [set_machine_settings _categories _machine_settings].
  rewrite answering_in_app, answering_in_other; [by rewrite app_nil_r | done].
Qed.

Lemma answering_addSettingsCategory (ckey : string) (self : MachineSettings) :
  answering g key (addSettingsCategory (SettingsCategory.new ckey) self) = answering g key self.
Proof.
  unfold answering, addSettingsCategory.
  cbn [set_categories _categories _machine_settings].
  rewrite fmap_app, concat_app. simpl. by rewrite !app_nil_r.
Qed.

End Answering.

Lemma answering_fmap {B : Type} (g : Setting.t → B) (key : string)
    (self : MachineSettings) :
  answering g key self = g <$> answering id key self.
Proof.
  unfold answering, answering_in.
  rewrite fmap_app, concat_fmap_fmap, <- list_fmap_compose.
  f_equal.
  - f_equal. apply list_fmap_ext. intros _ category _. simpl.
    by rewrite list_fmap_id.
  - by rewrite list_fmap_id.
Qed.

Lemma head_concat_find {A B : Type} (Q : A → Prop) {Qdec : ∀ x, Decision (Q x)}
    (h : A → list B) (l : list A) (rest : list B) :
  (∀ x, Q x ↔ h x ≠ []) →
  head (concat (h <$> l) ++ rest) =
  match list_find Q l with
  | Some (_, x) => head (h x)
  | None => head rest
  end.
Proof.
  intros HQ. induction l as [|a l IH]; [done |].
  cbn [list_find]. rewrite fmap_cons. cbn [concat].
  destruct (decide (Q a)) as [Ha | Ha].
  - apply HQ in Ha. by destruct (h a).
  - assert (E : h a = []).
    { destruct (h a) eqn:E; [done |]. exfalso. apply Ha, HQ. by rewrite E. }
    rewrite E. cbn [app]. rewrite IH.
    by destruct (list_find Q l) as [[? ?]|].
Qed.

Lemma answering_in_id_head (key : string) (settings : list Setting.t) :
  head (answering_in id key settings) =
  snd <$> list_find (λ s, is_Some (Setting.getSettingByKey s key)) settings.
Proof.
  unfold answering_in. rewrite list_fmap_id, head_filter_list_find.
  f_equal. apply list_find_ext. intros s.
  symmetry. apply Setting_getSettingByKey_is_Some.
Qed.

Lemma answering_in_nil_iff {B : Type} (g : Setting.t → B) (key : string)
    (settings : list Setting.t) :
  answering_in g key settings = [] ↔
  ∀ s, s ∈ settings → Setting._key s ≠ key.
Proof.
  unfold answering_in. rewrite <- (filter_nil_iff (λ s, Setting._key s = key)).
  split; [apply fmap_nil_inv | by intros ->].
Qed.

(** The setting that [getSettingByKey] returns is the first that answers to
    the key. *)
Lemma getSettingByKey_head (self : MachineSettings) (key : string) :
  getSettingByKey self key ≫= deref self = head (answering id key self).
Proof.
  unfold answering.
  rewrite (head_concat_find
             (λ category, is_Some (SettingsCategory.getSettingByKey category key))).
  - unfold getSettingByKey.
    destruct (list_find _ (_categories self)) as [[c category]|] eqn:Hc.
    + apply list_find_Some in Hc as (Hc & [i Hi] & _).
      rewrite Hi. simpl. rewrite Hc. simpl.
      rewrite answering_in_id_head.
      unfold SettingsCategory.getSettingByKey in Hi.
      destruct (list_find _ (SettingsCategory._settings category))
        as [[i' s]|] eqn:Hs; [| discriminate].
      injection Hi as ->. by apply list_find_Some in Hs as (Hs & _).
    + rewrite answering_in_id_head.
      destruct (list_find _ (_machine_settings self)) as [[i s]|] eqn:Hs; [| done].
      simpl. by apply list_find_Some in Hs as (Hs & _).
  - intros category. rewrite category_getSettingByKey_is_Some.
    rewrite answering_in_nil_iff. split.
    + intros (s & Hs & Hk) Hnone. by apply (Hnone s).
    + intros Hnot.
      destruct (SettingsCategory.getSettingByKey category key) eqn:E.
      * apply category_getSettingByKey_is_Some. eauto.
      * exfalso. apply Hnot. by apply category_getSettingByKey_None.
Qed.

(** ** Loops *)

Lemma for_each_invariant {A S : Type} (I : S → Prop)
    (body : A → S → Outcome unit * S) (items : list A) (s : S) :
  (∀ item s, item ∈ items → I s → I (body item s).2) →
  I s → I (for_each body items s).2.
Proof.
  revert s. induction items as [|item items IH]; intros s Hbody Hs; [done |].
  cbn [for_each].
  assert (H1 : I (body item s).2) by (apply Hbody; [left | done]).
  destruct (body item s) as [[[]|e] s1]; [| done].
  apply IH; [| done]. intros item' s' Hin. apply Hbody. by right.
Qed.

Lemma for_each_returns {A S : Type} (body : A → S → Outcome unit * S)
    (items : list A) (s : S) :
  (∀ item s, item ∈ items → (body item s).1 = Returned ()) →
  (for_each body items s).1 = Returned ().
Proof.
  revert s. induction items as [|item items IH]; intros s Hbody; [done |].
  cbn [for_each].
  assert (H1 : (body item s).1 = Returned ()) by (apply Hbody; left).
  destruct (body item s) as [[[]|e] s1]; [| done].
  apply IH. intros item' s' Hin. apply Hbody. by right.
Qed.

(** ** Filling keeps the key *)

Lemma Setting_fill_fields_key (fields : list (string * Json)) (s : Setting.t) :
  Setting._key (foldl (λ s f, Setting.fill_field f s) s fields) = Setting._key s.
Proof.
  revert s. induction fields as [|[name v] fields IH]; intros s; [done |].
  cbn [foldl]. by rewrite IH.
Qed.

Lemma Setting_fillByDict_key (value : Json) (s s' : Setting.t) :
  Setting.fillByDict value s = Returned s' → Setting._key s' = Setting._key s.
Proof.
  destruct value; try discriminate. intros [= <-]. apply Setting_fill_fields_key.
Qed.

Lemma Setting_fillByDict_JObj (fields : Dict) (s : Setting.t) :
  ∃ s', Setting.fillByDict (JObj fields) s = Returned s'.
Proof. eexists. reflexivity. Qed.

(** ** The layers leave the settings of other keys alone *)

Section OtherKeys.

Context {B : Type} (g : Setting.t → B) (key : string).

Lemma answering_in_insert (l : list Setting.t) (i : nat) (s s' : Setting.t) :
  l !! i = Some s → Setting._key s' = Setting._key s → Setting._key s ≠ key →
  answering_in g key (<[i := s']> l) = answering_in g key l.
Proof.
  intros Hs Hk Hne. rewrite list_insert_alter. apply answering_in_alter.
  intros x Hx. rewrite Hs in Hx. injection Hx as <-. split; [done |].
  intros Hkey. by destruct Hne.
Qed.

Lemma answering_in_snoc_other (l : list Setting.t) (s : Setting.t) :
  Setting._key s ≠ key → answering_in g key (l ++ [s]) = answering_in g key l.
Proof.
  intros H. rewrite answering_in_app, answering_in_other by done.
  by rewrite app_nil_r.
Qed.

Lemma category_fill_setting_answering (entry : string * Json)
    (category : SettingsCategory.t) :
  entry.1 ≠ key →
  answering_in g key
    (SettingsCategory._settings (SettingsCategory.fill_setting entry category).2) =
  answering_in g key (SettingsCategory._settings category).
Proof.
  destruct entry as [k value]. cbn [fst]. intros Hne.
  unfold SettingsCategory.fill_setting.
  destruct (SettingsCategory.getSettingByKey category k) as [i|] eqn:E.
  - apply category_getSettingByKey_Some in E as (s & Hs & Hk & _).
    rewrite Hs. destruct (Setting.fillByDict value s) as [s'|e] eqn:F; [| done].
    cbn [snd SettingsCategory.with_settings SettingsCategory._settings].
    apply (answering_in_insert _ _ s); [done | | congruence].
    by eapply Setting_fillByDict_key.
  - cbn [SettingsCategory.with_settings SettingsCategory._settings].
    rewrite list_lookup_middle by done.
    destruct (Setting.fillByDict value (Setting.new k)) as [s'|e] eqn:F;
      cbn [snd SettingsCategory.with_settings SettingsCategory._settings].
    + rewrite (answering_in_insert _ _ (Setting.new k)).
      * by apply answering_in_snoc_other.
      * by apply list_lookup_middle.
      * by eapply Setting_fillByDict_key.
      * done.
    + by apply answering_in_snoc_other.
Qed.

Lemma category_fill_fields_settings (fields : list (string * Json))
    (category : SettingsCategory.t) :
  SettingsCategory._settings
    (foldl (λ c f, SettingsCategory.fill_field f c) category fields) =
  SettingsCategory._settings category.
Proof.
  revert category. induction fields as [|f fields IH]; intros category; [done |].
  cbn [foldl]. by rewrite IH.
Qed.

Lemma category_fillByDict_answering (value : Json) (category : SettingsCategory.t) :
  key ∉ category_fragment_keys value →
  answering_in g key
    (SettingsCategory._settings (SettingsCategory.fillByDict value category).2) =
  answering_in g key (SettingsCategory._settings category).
Proof.
  intros Hkey. destruct value as [| | | | | |fields]; try done.
  unfold SettingsCategory.fillByDict.
  unfold category_fragment_keys, section_keys in Hkey.
  destruct (dict_get "settings" fields) as [[| | | | | |entries]|];
    cbn [snd]; rewrite ?category_fill_fields_settings; try done.
  unfold SettingsCategory.fill_settings.
  apply (for_each_invariant
           (λ c, answering_in g key (SettingsCategory._settings c) =
                 answering_in g key (SettingsCategory._settings category))).
  - intros entry c Hin Hc. rewrite category_fill_setting_answering; [done |].
    intros Hk. apply Hkey. unfold dict_keys. rewrite <- Hk.
    by apply list_elem_of_fmap_2.
  - by rewrite category_fill_fields_settings.
Qed.

Lemma fillByDict_at_answering (r : SettingRef) (value : Json) (self : MachineSettings) :
  (∀ s, deref self r = Some s → Setting._key s ≠ key) →
  answering g key (fillByDict_at r value self).2 = answering g key self.
Proof.
  intros Hne. unfold fillByDict_at.
  destruct (deref self r) as [s|] eqn:E; [| done].
  destruct (Setting.fillByDict value s) as [s'|e] eqn:F; [| done].
  cbn [snd]. apply answering_mutate. intros x Hx. rewrite E in Hx.
  injection Hx as <-. split; [by eapply Setting_fillByDict_key |].
  intros Hk. by destruct (Hne s eq_refl).
Qed.

Lemma load_machine_setting_answering (entry : string * Json) (self : MachineSettings) :
  entry.1 ≠ key →
  answering g key (load_machine_setting entry self).2 = answering g key self.
Proof.
  destruct entry as [k value]. cbn [fst]. intros Hne.
  unfold load_machine_setting.
  destruct (getSettingByKey self k) as [r|] eqn:E.
  - apply fillByDict_at_answering. intros s Hs.
    apply getSettingByKey_Some in E as (s0 & Hs0 & Hk & _). congruence.
  - rewrite fillByDict_at_answering.
    + by apply answering_addSetting.
    + intros s. unfold addSetting.
      cbn [deref set_machine_settings _machine_settings].
      rewrite list_lookup_middle by done. by intros [= <-].
Qed.

Lemma load_override_answering (entry : string * Json) (self : MachineSettings) :
  entry.1 ≠ key →
  answering g key (load_override entry self).2 = answering g key self.
Proof.
  destruct entry as [k value]. cbn [fst]. intros Hne.
  unfold load_override.
  destruct (getSettingByKey self k) as [r|] eqn:E; [| done].
  apply fillByDict_at_answering. intros s Hs.
  apply getSettingByKey_Some in E as (s0 & Hs0 & Hk & _). congruence.
Qed.

Lemma load_category_answering (entry : string * Json) (self : MachineSettings) :
  key ∉ category_fragment_keys entry.2 →
  answering g key (load_category entry self).2 = answering g key self.
Proof.
  destruct entry as [ckey value]. cbn [snd]. intros Hkey.
  unfold load_category.
  destruct (getSettingsCategory self ckey) as [c|] eqn:E.
  - unfold getSettingsCategory in E.
    apply fmap_Some in E as ([c' category] & E & ->).
    apply list_find_Some in E as (Hc & _ & _). cbn [fst]. rewrite Hc.
    destruct (SettingsCategory.fillByDict value category) as [result category'] eqn:F.
    cbn [snd]. apply answering_set_category. intros category0 H0.
    rewrite Hc in H0. injection H0 as <-.
    replace category' with (SettingsCategory.fillByDict value category).2
      by by rewrite F.
    by apply category_fillByDict_answering.
  - unfold addSettingsCategory at 1. cbn [set_categories _categories].
    rewrite list_lookup_middle by done.
    destruct (SettingsCategory.fillByDict value (SettingsCategory.new ckey))
      as [result category'] eqn:F.
    cbn [snd]. rewrite answering_set_category.
    + apply answering_addSettingsCategory.
    + intros category0. unfold addSettingsCategory. cbn [set_categories _categories].
      rewrite list_lookup_middle by done. intros [= <-].
      replace category'
        with (SettingsCategory.fillByDict value (SettingsCategory.new ckey)).2
        by by rewrite F.
      by apply category_fillByDict_answering.
Qed.

End OtherKeys.

Section Layers.

Context {B : Type} (g : Setting.t → B) (key : string).
Hypothesis g_connect : ∀ s, g (Setting.connect_valueChanged s) = g s.
Hypothesis g_foreign : ∀ s, g (Setting.foreign s) = g s.

Lemma load_section_answering (name : string)
    (body : string * Json → MachineSettings → Outcome unit * MachineSettings)
    (fields : Dict) (self : MachineSettings) :
  (∀ entries entry m,
     dict_get name fields = Some (JObj entries) → entry ∈ entries →
     answering g key (body entry m).2 = answering g key m) →
  answering g key (load_section name body fields self).2 = answering g key self.
Proof.
  intros Hbody. unfold load_section.
  destruct (dict_get name fields) as [[| | | | | |entries]|]; try done.
  apply (for_each_invariant (λ m, answering g key m = answering g key self));
    [| done].
  intros entry m Hin Hm. by rewrite (Hbody entries).
Qed.

Lemma connect_settings_answering (self : MachineSettings) :
  answering g key (connect_settings self) = answering g key self.
Proof.
  unfold connect_settings. generalize (getAllSettings_refs false self).
  intros refs. revert self. induction refs as [|r refs IH]; intros self; [done |].
  cbn [foldl]. rewrite IH. apply answering_mutate. intros x _. split; [done |].
  intros _. apply g_connect.
Qed.

Lemma answering_in_foreign (settings : list Setting.t) :
  answering_in g key (Setting.foreign <$> settings) = answering_in g key settings.
Proof.
  induction settings as [|s settings IH]; [done |].
  rewrite fmap_cons.
  change (Setting.foreign s :: (Setting.foreign <$> settings))
    with ([Setting.foreign s] ++ (Setting.foreign <$> settings)).
  change (s :: settings) with ([s] ++ settings).
  rewrite !answering_in_app, IH. f_equal.
  unfold answering_in. destruct (decide (Setting._key s = key)) as [Hk | Hk].
  - rewrite !filter_cons_True by done. simpl. by rewrite g_foreign.
  - by rewrite !filter_cons_False by done.
Qed.

Lemma adopt_answering (inherits_from self : MachineSettings) :
  answering g key (adopt inherits_from self) = answering g key inherits_from.
Proof.
  unfold answering, adopt.
  cbn [set_categories set_machine_settings _categories _machine_settings].
  rewrite answering_in_foreign. f_equal. f_equal.
  rewrite <- list_fmap_compose. apply list_fmap_ext. intros _ category _.
  cbn. apply answering_in_foreign.
Qed.

Lemma load_layers_answering (fields : Dict) (self : MachineSettings) :
  key ∉ own_keys fields →
  answering g key (load_layers fields self).2 = answering g key self.
Proof.
  intros Hkey. unfold own_keys in Hkey.
  apply not_elem_of_app in Hkey as [Hm Hkey].
  apply not_elem_of_app in Hkey as [Hc Ho].
  assert (F1 : ∀ m, answering g key
                 (load_section "machine_settings" load_machine_setting fields m).2 =
               answering g key m).
  { intros m. apply load_section_answering. intros entries entry m' E Hin.
    apply load_machine_setting_answering. intros Hk. apply Hm.
    unfold section_keys. rewrite E, <- Hk. unfold dict_keys.
    by apply list_elem_of_fmap_2. }
  assert (F2 : ∀ m, answering g key
                 (load_section "categories" load_category fields m).2 =
               answering g key m).
  { intros m. apply load_section_answering. intros entries entry m' E Hin.
    apply load_category_answering. intros Hk. apply Hc.
    unfold categories_keys. rewrite E. apply elem_of_concat.
    exists (category_fragment_keys entry.2). split; [| done].
    by apply (list_elem_of_fmap_2 (λ entry, category_fragment_keys entry.2)). }
  assert (F3 : ∀ m, answering g key
                 (load_section "overrides" load_override fields m).2 =
               answering g key m).
  { intros m. apply load_section_answering. intros entries entry m' E Hin.
    apply load_override_answering. intros Hk. apply Ho.
    unfold section_keys. rewrite E, <- Hk. unfold dict_keys.
    by apply list_elem_of_fmap_2. }
  unfold load_layers.
  specialize (F1 self).
  destruct (load_section "machine_settings" load_machine_setting fields self)
    as [[[]|e1] self1]; cbn [snd] in *; [| done].
  specialize (F2 self1).
  destruct (load_section "categories" load_category fields self1)
    as [[[]|e2] self2]; cbn [snd] in *; [| by rewrite F2].
  specialize (F3 self2).
  destruct (load_section "overrides" load_override fields self2)
    as [[[]|e3] self3]; cbn [snd] in *.
  - by rewrite connect_settings_answering, F3, F2.
  - by rewrite F3, F2.
Qed.

End Layers.

(** ** A valid definition loads *)

Lemma forallb_elem_of {A : Type} (f : A → bool) (l : list A) (x : A) :
  forallb f l = true → x ∈ l → f x = true.
Proof.
  induction l as [|a l IH]; [by intros _ ?%elem_of_nil |].
  cbn [forallb]. intros [Ha Hl]%andb_prop [-> | Hx]%elem_of_cons; auto.
Qed.

Lemma is_JObj_true (j : Json) : is_JObj j = true → ∃ fields, j = JObj fields.
Proof. destruct j; try discriminate. eauto. Qed.

Lemma fillByDict_at_returns (r : SettingRef) (fields : Dict) (self : MachineSettings) :
  is_Some (deref self r) → (fillByDict_at r (JObj fields) self).1 = Returned ().
Proof. intros [s Hs]. unfold fillByDict_at. by rewrite Hs. Qed.

Lemma load_machine_setting_returns (k : string) (fields : Dict) (self : MachineSettings) :
  (load_machine_setting (k, JObj fields) self).1 = Returned ().
Proof.
  unfold load_machine_setting.
  destruct (getSettingByKey self k) as [r|] eqn:E; apply fillByDict_at_returns.
  - apply getSettingByKey_Some in E as (s & Hs & _). eauto.
  - unfold addSetting. cbn [deref set_machine_settings _machine_settings].
    rewrite list_lookup_middle by done. eauto.
Qed.

Lemma load_override_returns (k : string) (fields : Dict) (self : MachineSettings) :
  (load_override (k, JObj fields) self).1 = Returned ().
Proof.
  unfold load_override.
  destruct (getSettingByKey self k) as [r|] eqn:E; [| done].
  apply fillByDict_at_returns.
  apply getSettingByKey_Some in E as (s & Hs & _). eauto.
Qed.

Lemma category_fill_setting_returns (k : string) (fields : Dict)
    (category : SettingsCategory.t) :
  (SettingsCategory.fill_setting (k, JObj fields) category).1 = Returned ().
Proof.
  unfold SettingsCategory.fill_setting.
  destruct (SettingsCategory.getSettingByKey category k) as [i|] eqn:E.
  - apply category_getSettingByKey_Some in E as (s & Hs & _). by rewrite Hs.
  - cbn [SettingsCategory.with_settings SettingsCategory._settings].
    by rewrite list_lookup_middle.
Qed.

Lemma category_fillByDict_returns (value : Json) (category : SettingsCategory.t) :
  category_fragment_ok value = true →
  (SettingsCategory.fillByDict value category).1 = Returned ().
Proof.
  destruct value as [| | | | | |fields]; try discriminate.
  unfold category_fragment_ok, settings_section_ok, SettingsCategory.fillByDict.
  destruct (dict_get "settings" fields) as [[| | | | | |entries]|];
    try discriminate; [| done].
  intros Hok. unfold SettingsCategory.fill_settings. apply for_each_returns.
  intros [k v] c Hin.
  destruct (is_JObj_true v (forallb_elem_of _ _ _ Hok Hin)) as [f ->].
  apply category_fill_setting_returns.
Qed.

Lemma load_category_returns (ckey : string) (value : Json) (self : MachineSettings) :
  category_fragment_ok value = true →
  (load_category (ckey, value) self).1 = Returned ().
Proof.
  intros Hok. unfold load_category.
  destruct (getSettingsCategory self ckey) as [c|] eqn:E.
  - unfold getSettingsCategory in E.
    apply fmap_Some in E as ([c' category] & E & ->).
    apply list_find_Some in E as (Hc & _ & _). cbn [fst]. rewrite Hc.
    pose proof (category_fillByDict_returns value category Hok) as H.
    by destruct (SettingsCategory.fillByDict value category).
  - unfold addSettingsCategory at 1. cbn [set_categories _categories].
    rewrite list_lookup_middle by done.
    pose proof (category_fillByDict_returns value (SettingsCategory.new ckey) Hok) as H.
    by destruct (SettingsCategory.fillByDict value (SettingsCategory.new ckey)).
Qed.

Lemma load_layers_returns (fields : Dict) (self : MachineSettings) :
  settings_section_ok "machine_settings" fields = true →
  categories_section_ok fields = true →
  settings_section_ok "overrides" fields = true →
  (load_layers fields self).1 = Returned ().
Proof.
  unfold settings_section_ok, categories_section_ok. intros Hm Hc Ho.
  assert (F1 : ∀ m, (load_section "machine_settings" load_machine_setting fields m).1
                    = Returned ()).
  { intros m. unfold load_section.
    destruct (dict_get "machine_settings" fields) as [[| | | | | |entries]|];
      try discriminate; [| done].
    apply for_each_returns. intros [k v] m' Hin.
    destruct (is_JObj_true v (forallb_elem_of _ _ _ Hm Hin)) as [f ->].
    apply load_machine_setting_returns. }
  assert (F2 : ∀ m, (load_section "categories" load_category fields m).1
                    = Returned ()).
  { intros m. unfold load_section.
    destruct (dict_get "categories" fields) as [[| | | | | |entries]|];
      try discriminate; [| done].
    apply for_each_returns. intros [k v] m' Hin.
    apply load_category_returns. apply (forallb_elem_of _ _ _ Hc Hin). }
  assert (F3 : ∀ m, (load_section "overrides" load_override fields m).1
                    = Returned ()).
  { intros m. unfold load_section.
    destruct (dict_get "overrides" fields) as [[| | | | | |entries]|];
      try discriminate; [| done].
    apply for_each_returns. intros [k v] m' Hin.
    destruct (is_JObj_true v (forallb_elem_of _ _ _ Ho Hin)) as [f ->].
    apply load_override_returns. }
  unfold load_layers.
  specialize (F1 self).
  destruct (load_section "machine_settings" load_machine_setting fields self)
    as [[[]|e1] self1]; [| done].
  specialize (F2 self1).
  destruct (load_section "categories" load_category fields self1)
    as [[[]|e2] self2]; [| done].
  specialize (F3 self2).
  by destruct (load_section "overrides" load_override fields self2)
    as [[[]|e3] self3].
Qed.

(** The two checks at the head of the loader. *)
Lemma header_checks (fs : FileSystem) (file_name : string) (fields : Dict) :
  fs !! file_name = Some (JsonFile (JObj fields)) →
  and_then (read_json fs file_name) (λ data,
    and_then (check_required file_name data) (λ _,
      and_then (check_version file_name data) (λ _, Returned data))) =
  if dict_has "id" fields && dict_has "name" fields
  then if version_supported fields then Returned (JObj fields)
       else Raised (InvalidVersionError file_name)
  else Raised (InvalidFileError file_name).
Proof.
  intros Hfile. unfold read_json. rewrite Hfile. cbn [and_then].
  unfold check_required, check_version, version_supported.
  cbn [py_in py_getitem and_then].
  destruct (dict_has "id" fields); [| done].
  destruct (dict_has "name" fields); [| done].
  cbn [negb andb and_then]. unfold dict_has.
  destruct (dict_get "version" fields) as [version|]; [| done].
  rewrite bool_decide_eq_true_2 by eauto. cbn [negb and_then].
  by destruct (py_ne_int version MachineDefinitionVersion).
Qed.

(** ** The definition loader *)

(** C3, as stated, fails: a definition of an unsupported version that also
    lacks its [id] is rejected with [InvalidFileError]. *)
Lemma unsupported_version_without_id :
  version_supported [("name", JStr "Prototype"); ("version", JInt 2)] = false ∧
  loadSettingsFromFile 1 prototype_fs "machines/anonymous.json" init =
    (Raised (InvalidFileError "machines/anonymous.json"), init) ∧
  (loadSettingsFromFile 1 prototype_fs "machines/anonymous.json" init).1 ≠
    Raised (InvalidVersionError "machines/anonymous.json").
Proof. vm_compute. repeat split. discriminate. Qed.

(** C3, amended. A definition whose version field is absent or differs from
    the supported version is rejected, and the instance is left as it was:
    with [InvalidVersionError] when both [id] and [name] are present, with
    [InvalidFileError] when one of them is missing. *)
Theorem unsupported_version_rejected (depth : nat) (fs : FileSystem)
    (file_name : string) (fields : Dict) (self : MachineSettings) :
  fs !! file_name = Some (JsonFile (JObj fields)) →
  version_supported fields = false →
  loadSettingsFromFile (S depth) fs file_name self =
    (Raised (if dict_has "id" fields && dict_has "name" fields
             then InvalidVersionError file_name
             else InvalidFileError file_name), self).
Proof.
  intros Hfile Hversion. cbn [loadSettingsFromFile].
  rewrite (header_checks _ _ _ Hfile), Hversion.
  by destruct (dict_has "id" fields && dict_has "name" fields).
Qed.

Lemma unsupported_version_rejected_witness :
  loadSettingsFromFile 1 prototype_fs "machines/future.json" init =
    (Raised (InvalidVersionError "machines/future.json"), init).
Proof.
  apply (unsupported_version_rejected 0 prototype_fs "machines/future.json"
           [("id", JStr "proto"); ("name", JStr "Prototype"); ("version", JInt 2)]
           init); reflexivity.
Defined.

(** When the parent definition loads, a valid child definition that
    inherits from it loads too, and what is retrievable in the parent under a
    key that the child's own sections do not name is retrievable in the child,
    with the same default value. *)
Lemma inherited_keys_kept (depth : nat) (fs : FileSystem)
    (file_name : string) (fields : Dict) (parent_name : string)
    (parent self : MachineSettings) :
  fs !! file_name = Some (JsonFile (JObj fields)) →
  valid_definition fields = true →
  dict_get "inherits" fields = Some (JStr parent_name) →
  loadSettingsFromFile depth fs (dirname file_name +:+ "/" +:+ parent_name) init =
    (Returned (), parent) →
  ∃ child,
    loadSettingsFromFile (S depth) fs file_name self = (Returned (), child) ∧
    ∀ key r s,
      key ∉ own_keys fields →
      getSettingByKey parent key = Some r → deref parent r = Some s →
      ∃ r' s',
        getSettingByKey child key = Some r' ∧ deref child r' = Some s' ∧
        Setting.getKey s' = key ∧
        Setting.getDefaultValue s' = Setting.getDefaultValue s.
Proof.
  intros Hfile Hvalid Hinherits Hparent. unfold valid_definition in Hvalid.
  apply andb_prop in Hvalid as [Hvalid Ho].
  apply andb_prop in Hvalid as [Hvalid Hc].
  apply andb_prop in Hvalid as [Hvalid Hm].
  apply andb_prop in Hvalid as [Hvalid Hversion].
  cbn [loadSettingsFromFile].
  rewrite (header_checks _ _ _ Hfile), Hvalid, Hversion, Hinherits, Hparent.
  set (self1 := adopt parent (load_metadata file_name fields self)).
  pose proof (load_layers_returns fields self1 Hm Hc Ho) as Hreturns.
  pose proof (λ key, load_layers_answering Setting.foreign key
                       (λ _, eq_refl) fields self1) as Hothers.
  destruct (load_layers fields self1) as [outcome child].
  cbn [fst snd] in *. subst outcome. exists child. split; [done |].
  intros key r s Hkey Hr Hs. specialize (Hothers key Hkey).
  unfold self1 in Hothers.
  rewrite (adopt_answering Setting.foreign key (λ _, eq_refl)) in Hothers.
  rewrite !(answering_fmap Setting.foreign) in Hothers.
  pose proof (getSettingByKey_head parent key) as Hp.
  rewrite Hr in Hp. cbn [mbind option_bind] in Hp. rewrite Hs in Hp.
  pose proof (getSettingByKey_head child key) as Hchild.
  destruct (answering id key parent) as [|s0 l0]; [discriminate |].
  injection Hp as ->.
  destruct (answering id key child) as [|s' l']; [discriminate |].
  apply (f_equal (λ l, Setting._default_value <$> head l)) in Hothers.
  cbn in Hothers. injection Hothers as Hsame.
  destruct (getSettingByKey child key) as [r'|] eqn:Er; [| discriminate].
  cbn [mbind option_bind head] in Hchild.
  exists r', s'. split; [done |]. split; [done |].
  apply getSettingByKey_Some in Er as (s'' & Hs'' & Hk & _).
  rewrite Hchild in Hs''. injection Hs'' as <-. by split.
Qed.

(** C5. An entry of [overrides] whose key no setting of the tree has is
    skipped: the instance is the same after the entry as before it, and so is
    the number of settings that [getAllSettings] returns. *)
Theorem unknown_override_is_skipped (self : MachineSettings) (key : string)
    (value : Json) :
  (∀ s, s ∈ getAllSettings true false self → Setting.getKey s ≠ key) →
  load_override (key, value) self = (Returned (), self) ∧
  ∀ include_machine visible_only,
    length (getAllSettings include_machine visible_only
              (load_override (key, value) self).2) =
    length (getAllSettings include_machine visible_only self).
Proof.
  intros H. apply getSettingByKey_None in H.
  unfold load_override. rewrite H. done.
Qed.

Lemma unknown_override_is_skipped_witness :
  load_override ("nozzle_size", JObj [("default", JInt 4)]) example_machine =
    (Returned (), example_machine) ∧
  ∀ include_machine visible_only,
    length (getAllSettings include_machine visible_only
              (load_override ("nozzle_size", JObj [("default", JInt 4)])
                 example_machine).2) =
    length (getAllSettings include_machine visible_only example_machine).
Proof.
  apply (unknown_override_is_skipped example_machine "nozzle_size"
           (JObj [("default", JInt 4)])).
  apply getSettingByKey_None. vm_compute. reflexivity.
Defined.

(** ** Instance files *)

(** The tree operations leave the definition file of the instance alone. *)
Lemma json_file_mutate (r : SettingRef) (f : Setting.t → Setting.t)
    (self : MachineSettings) :
  _json_file (mutate r f self) = _json_file self.
Proof. by destruct r. Qed.

Lemma json_file_fillByDict_at (r : SettingRef) (value : Json) (self : MachineSettings) :
  _json_file (fillByDict_at r value self).2 = _json_file self.
Proof.
  unfold fillByDict_at. destruct (deref self r); [| done].
  destruct (Setting.fillByDict value t); [| done]. apply json_file_mutate.
Qed.

Lemma json_file_load_machine_setting (entry : string * Json) (self : MachineSettings) :
  _json_file (load_machine_setting entry self).2 = _json_file self.
Proof.
  destruct entry as [k v]. unfold load_machine_setting.
  destruct (getSettingByKey self k); by rewrite json_file_fillByDict_at.
Qed.

Lemma json_file_load_override (entry : string * Json) (self : MachineSettings) :
  _json_file (load_override entry self).2 = _json_file self.
Proof.
  destruct entry as [k v]. unfold load_override.
  destruct (getSettingByKey self k); [| done]. apply json_file_fillByDict_at.
Qed.

Lemma json_file_load_category (entry : string * Json) (self : MachineSettings) :
  _json_file (load_category entry self).2 = _json_file self.
Proof.
  destruct entry as [k v]. unfold load_category.
  destruct (getSettingsCategory self k) as [c|].
  - destruct (_categories self !! c) as [category|]; [| done].
    by destruct (SettingsCategory.fillByDict v category).
  - destruct (_categories _ !! _) as [category|]; [| done].
    by destruct (SettingsCategory.fillByDict v category).
Qed.

Lemma json_file_load_section (name : string)
    (body : string * Json → MachineSettings → Outcome unit * MachineSettings)
    (fields : Dict) (self : MachineSettings) :
  (∀ entry m, _json_file (body entry m).2 = _json_file m) →
  _json_file (load_section name body fields self).2 = _json_file self.
Proof.
  intros Hbody. unfold load_section.
  destruct (dict_get name fields) as [[| | | | | |entries]|]; try done.
  apply (for_each_invariant (λ m, _json_file m = _json_file self)); [| done].
  intros entry m _ Hm. by rewrite Hbody.
Qed.

Lemma json_file_connect_settings (self : MachineSettings) :
  _json_file (connect_settings self) = _json_file self.
Proof.
  unfold connect_settings. generalize (getAllSettings_refs false self).
  intros refs. revert self. induction refs as [|r refs IH]; intros self; [done |].
  cbn [foldl]. by rewrite IH, json_file_mutate.
Qed.

Lemma json_file_load_layers (fields : Dict) (self : MachineSettings) :
  _json_file (load_layers fields self).2 = _json_file self.
Proof.
  unfold load_layers.
  pose proof (json_file_load_section "machine_settings" load_machine_setting
                fields self json_file_load_machine_setting) as F1.
  destruct (load_section "machine_settings" load_machine_setting fields self)
    as [[[]|e1] self1]; cbn [snd] in *; [| done].
  pose proof (json_file_load_section "categories" load_category
                fields self1 json_file_load_category) as F2.
  destruct (load_section "categories" load_category fields self1)
    as [[[]|e2] self2]; cbn [snd] in *; [| congruence].
  pose proof (json_file_load_section "overrides" load_override
                fields self2 json_file_load_override) as F3.
  destruct (load_section "overrides" load_override fields self2)
    as [[[]|e3] self3]; cbn [snd] in *; [| congruence].
  rewrite json_file_connect_settings. congruence.
Qed.

(** A definition that has loaded is the definition file of the instance. *)
Lemma loadSettingsFromFile_json_file (depth : nat) (fs : FileSystem)
    (file_name : string) (self loaded : MachineSettings) :
  loadSettingsFromFile depth fs file_name self = (Returned (), loaded) →
  _json_file loaded = file_name.
Proof.
  destruct depth as [|depth]; [discriminate |]. cbn [loadSettingsFromFile].
  destruct (and_then _ _) as [[| | | | | |fields]|e]; try discriminate.
  destruct (dict_get "inherits" fields) as [[| | | |inherits| |]|];
    try discriminate.
  - destruct (loadSettingsFromFile depth fs _ init) as [[[]|e] inherits_from];
      [| discriminate].
    intros H. apply (f_equal snd) in H. cbn [snd] in H. subst loaded.
    by rewrite json_file_load_layers.
  - intros H. apply (f_equal snd) in H. cbn [snd] in H. subst loaded.
    by rewrite json_file_load_layers.
Qed.

(** *** Text *)

Lemma append_nil (s : string) : "" +:+ s = s.
Proof. reflexivity. Qed.

Lemma append_cons (c : ascii) (s t : string) :
  String c s +:+ t = String c (s +:+ t).
Proof. reflexivity. Qed.

Lemma contains_app (c : ascii) (a b : string) :
  contains c (a +:+ b) = contains c a || contains c b.
Proof.
  induction a as [|d a IH]; [done |]. rewrite append_cons. cbn [contains].
  by rewrite IH, orb_assoc.
Qed.

Lemma contains_cons_false (c d : ascii) (s : string) :
  contains c (String d s) = false → d ≠ c ∧ contains c s = false.
Proof.
  cbn [contains]. intros [H1 H2]%orb_false_iff.
  by apply bool_decide_eq_false in H1.
Qed.

Lemma split_lines_line (line rest : string) :
  contains LF line = false → contains CR line = false →
  split_lines (line +:+ String LF rest) = line :: split_lines rest.
Proof.
  induction line as [|c line IH]; intros HLF HCR.
  - rewrite append_nil. cbn [split_lines]. by rewrite bool_decide_eq_true_2.
  - apply contains_cons_false in HLF as [HLF1 HLF], HCR as [HCR1 HCR].
    rewrite append_cons. cbn [split_lines].
    rewrite !bool_decide_eq_false_2 by done. by rewrite IH.
Qed.

Lemma split_lines_unlines (lines : list string) :
  Forall (λ line, contains LF line = false ∧ contains CR line = false) lines →
  split_lines (unlines lines) = lines.
Proof.
  induction 1 as [|line lines [HLF HCR] _ IH]; [done |].
  cbn [unlines]. by rewrite split_lines_line, IH.
Qed.

Lemma indent_newlines_plain (value : string) :
  contains LF value = false → indent_newlines value = value.
Proof.
  induction value as [|c value IH]; [done |].
  intros [H1 H2]%contains_cons_false. cbn [indent_newlines].
  by rewrite bool_decide_eq_false_2, IH.
Qed.

Lemma drop_trailing_app (space : ascii → bool) (a b : string) :
  drop_trailing space (a +:+ b) =
  match drop_trailing space b with
  | EmptyString => drop_trailing space a
  | kept => a +:+ kept
  end.
Proof.
  induction a as [|c a IH].
  - rewrite append_nil. cbn [drop_trailing]. by destruct (drop_trailing space b).
  - rewrite append_cons. cbn [drop_trailing]. rewrite IH.
    destruct (drop_trailing space b) as [|d kept]; [done |].
    by destruct a.
Qed.

Lemma drop_percent_pairs_plain (value : string) :
  contains "%"%char value = false → drop_percent_pairs value = value.
Proof.
  induction value as [|c value IH]; [done |].
  intros [H1 H2]%contains_cons_false. cbn [drop_percent_pairs].
  destruct value as [|d value]; [done |].
  rewrite (bool_decide_eq_false_2 _ H1). cbn [andb]. by rewrite IH.
Qed.

Lemma drop_references_plain (value : string) :
  contains "%"%char value = false → drop_references 0 value = value.
Proof.
  induction value as [|c value IH]; [done |].
  intros [H1 H2]%contains_cons_false. cbn [drop_references].
  assert (reference_length (String c value) = None) as ->.
  { unfold reference_length. destruct value; [done |].
    by rewrite (bool_decide_eq_false_2 _ H1). }
  by rewrite IH.
Qed.

Lemma before_set_plain (value : string) :
  contains "%"%char value = false → before_set value = Returned value.
Proof.
  intros H. unfold before_set. destruct (bool_decide (value = "")); [done |].
  by rewrite drop_percent_pairs_plain, drop_references_plain, H.
Qed.

Lemma tokens_plain (value : string) :
  contains "%"%char value = false →
  tokens Plain value = Some (Literal <$> list_ascii_of_string value).
Proof.
  induction value as [|c value IH]; [done |].
  intros [H1 H2]%contains_cons_false. cbn [tokens list_ascii_of_string].
  by rewrite (bool_decide_eq_false_2 _ H1), IH.
Qed.

Lemma expand_literals (again : string → Outcome string)
    (lookup : string → option string) (value : string) :
  expand again lookup (Literal <$> list_ascii_of_string value) = Returned value.
Proof.
  induction value as [|c value IH]; [done |].
  cbn [list_ascii_of_string fmap list_fmap expand].
  change (list_fmap _ _ Literal (list_ascii_of_string value))
    with (Literal <$> list_ascii_of_string value).
  by rewrite IH.
Qed.

Lemma interpolate_plain (budget : nat) (lookup : string → option string)
    (value : string) :
  contains "%"%char value = false →
  interpolate (S budget) lookup value = Returned value.
Proof.
  intros H. cbn [interpolate]. by rewrite tokens_plain, expand_literals.
Qed.

(** *** The lines of a configuration file *)

Lemma split_at_delimiter_app (key rest : string) :
  split_at_delimiter key = None →
  split_at_delimiter (key +:+ rest) =
  (λ parts : string * string, (key +:+ parts.1, parts.2)) <$>
    split_at_delimiter rest.
Proof.
  induction key as [|c key IH]; intros Hkey.
  - rewrite append_nil. by destruct (split_at_delimiter rest) as [[? ?]|].
  - rewrite append_cons. cbn [split_at_delimiter] in *.
    destruct (bool_decide (c = "="%char) || bool_decide (c = ":"%char));
      [done |].
    destruct (split_at_delimiter key) as [[? ?]|] eqn:E; [done |].
    rewrite IH by done. by destruct (split_at_delimiter rest) as [[? ?]|].
Qed.

Lemma lstrip_cons (c : ascii) (s : string) :
  py_isspace c = false → lstrip (String c s) = String c s.
Proof. intros H. unfold lstrip. cbn [drop_leading]. by rewrite H. Qed.

Lemma lstrip_skip (c : ascii) (s : string) :
  py_isspace c = true → lstrip (String c s) = lstrip s.
Proof. intros H. unfold lstrip. cbn [drop_leading]. by rewrite H. Qed.

Lemma process_option_line (key value section : string) (k0 : ascii)
    (key' : string) (p : Parser) :
  key = String k0 key' →
  py_isspace k0 = false →
  is_comment key = false →
  k0 ≠ "["%char →
  split_at_delimiter key = None →
  rstrip key = key →
  py_lower key = key →
  lstrip value = value →
  rstrip value = value →
  cursect p = Some section →
  assoc section (parsed p) ≫= assoc key = None →
  process_line (key +:+ " = " +:+ value) p =
  Returned (mkParser
              (assoc_update section (λ options, options ++ [(key, [value])])
                 (parsed p))
              (Some section) (Some key) 0).
Proof.
  intros Hkey Hspace Hcomment Hbracket Hdelimiter Hrstrip Hlower Hl Hr
    Hsection Hnew.
  set (tail := match value with
               | EmptyString => ""
               | _ => " " +:+ value
               end).
  assert (Hstrip : strip (key +:+ " = " +:+ value) = key +:+ " =" +:+ tail).
  { unfold strip.
    assert (lstrip (key +:+ " = " +:+ value) = key +:+ " = " +:+ value) as ->.
    { rewrite Hkey, append_cons. by apply lstrip_cons. }
    unfold rstrip in *. rewrite drop_trailing_app.
    rewrite (drop_trailing_app _ " = " value), Hr. unfold tail.
    destruct value as [|v0 value]; [by rewrite Hkey |]. done. }
  assert (Hhead : key +:+ " =" +:+ tail = String k0 (key' +:+ " =" +:+ tail))
    by by rewrite Hkey.
  assert (Hsplit : split_at_delimiter (key +:+ " =" +:+ tail) =
                   Some (key +:+ " ", tail))
    by by rewrite split_at_delimiter_app.
  assert (Htail : strip tail = value).
  { unfold tail. destruct value as [|v0 value]; [done |].
    unfold strip. rewrite !append_cons, append_nil.
    rewrite (lstrip_skip " "%char) by done. by rewrite Hl, Hr. }
  unfold process_line. rewrite Hstrip.
  assert (is_comment (key +:+ " =" +:+ tail) = false) as ->.
  { rewrite Hhead. rewrite Hkey in Hcomment. exact Hcomment. }
  rewrite (bool_decide_eq_false_2 (key +:+ " =" +:+ tail = ""))
    by (rewrite Hhead; discriminate).
  assert (indent_of (key +:+ " = " +:+ value) = 0) as ->.
  { rewrite Hkey, append_cons. cbn [indent_of]. by rewrite Hspace. }
  replace (indent_level p <? 0)%nat with false
    by (symmetry; apply Nat.ltb_ge; lia).
  rewrite andb_false_r.
  assert (section_header (key +:+ " =" +:+ tail) = None) as ->.
  { rewrite Hhead. cbn [section_header]. by rewrite bool_decide_eq_false_2. }
  rewrite Hsection, Hsplit.
  assert (rstrip (key +:+ " ") = key) as ->.
  { unfold rstrip in *. rewrite drop_trailing_app. exact Hrstrip. }
  rewrite (bool_decide_eq_false_2 (key = "")) by (rewrite Hkey; discriminate).
  rewrite Hlower, Hnew.
  rewrite bool_decide_eq_false_2 by (by intros [? ?]).
  by rewrite Htail.
Qed.

Lemma process_empty_line (p : Parser) :
  process_line "" p = Returned (append_line "" p).
Proof. reflexivity. Qed.

(** What the parser makes of the file that [saveToFile] writes for plain
    values. *)
Lemma parse_written (name json_file : string) :
  plain name → plain json_file →
  parse_ini (write_section "General"
               [("name", name); ("json_file", json_file); ("version", "1")]) =
  Returned (saved_config name json_file).
Proof.
  intros (_ & HLF1 & HCR1 & Hl1 & Hr1) (_ & HLF2 & HCR2 & Hl2 & Hr2).
  unfold parse_ini, write_section, written_lines.
  cbn [fmap list_fmap app]. unfold write_option. cbn [fst snd].
  rewrite !indent_newlines_plain by done.
  rewrite split_lines_unlines.
  2: { repeat (constructor;
                 [rewrite ?contains_app, ?HLF1, ?HCR1, ?HLF2, ?HCR2; by split |]).
       constructor. }
  cbn [parse_lines].
  change (process_line ("[" +:+ "General" +:+ "]") (mkParser [] None None 0))
    with (Returned (mkParser [("General", [])] (Some "General") None 0)).
  cbn [and_then].
  rewrite (process_option_line "name" name "General" "n" "ame") by done.
  cbn [and_then parsed assoc_update]. rewrite decide_True by done.
  cbn [app].
  rewrite (process_option_line "json_file" json_file "General" "j" "son_file")
    by done.
  cbn [and_then parsed assoc_update]. rewrite decide_True by done.
  cbn [app].
  rewrite (process_option_line "version" "1" "General" "v" "ersion") by done.
  cbn [and_then parsed assoc_update]. rewrite decide_True by done.
  cbn [app].
  rewrite process_empty_line. cbn [and_then].
  unfold append_line. cbn [cursect optname parsed assoc_update].
  rewrite decide_True by done. cbn [assoc_update].
  rewrite !decide_False by done. rewrite decide_True by done.
  cbn [fmap list_fmap fst snd join_lines app]. unfold saved_config.
  by rewrite Hr1, Hr2.
Qed.

(** *** What the accessors of a configuration let escape *)

Lemma expand_raises (again : string → Outcome string)
    (lookup : string → option string) (ts : list Token) (e : Exception) :
  (∀ value e, again value = Raised e → e = ConfigParserError) →
  expand again lookup ts = Raised e → e = ConfigParserError.
Proof.
  intros Hagain. revert e. induction ts as [|[c|name] ts IH]; intros e;
    cbn [expand]; [done | |].
  - destruct (expand again lookup ts) as [tail|e'] eqn:E; [done |].
    intros [= <-]. by apply IH.
  - destruct (lookup (py_lower name)) as [value|]; [| by intros [= <-]].
    destruct (if contains "%" value then again value else Returned value)
      as [head|e'] eqn:E; cbn [and_then].
    + destruct (expand again lookup ts) as [tail|e''] eqn:E'; [done |].
      intros [= <-]. by apply IH.
    + intros [= <-]. destruct (contains "%" value); [| done].
      by eapply Hagain.
Qed.

Lemma interpolate_raises (budget : nat) (lookup : string → option string)
    (value : string) (e : Exception) :
  interpolate budget lookup value = Raised e → e = ConfigParserError.
Proof.
  revert value e. induction budget as [|budget IH]; intros value e;
    cbn [interpolate]; [by intros [= <-] |].
  destruct (tokens Plain value) as [ts|]; [| by intros [= <-]].
  apply expand_raises. exact IH.
Qed.

Lemma config_get_raises (config : Config) (section name : string)
    (fallback : option string) (e : Exception) :
  config_get config section name fallback = Raised e → e = ConfigParserError.
Proof.
  unfold config_get.
  assert (Hmissing : match fallback with
                     | Some value => Returned value
                     | None => Raised ConfigParserError
                     end = Raised e → e = ConfigParserError)
    by (destruct fallback; [done | by intros [= <-]]).
  destruct (if bool_decide (section = DEFAULTSECT) then Some []
            else assoc section config) as [items|]; [| done].
  destruct (match assoc (py_lower name) items with
            | Some value => Some value
            | None => assoc (py_lower name) (defaults config)
            end) as [value|]; [| done].
  apply interpolate_raises.
Qed.

Lemma py_int_raises (max_str_digits : nat) (text : string) (e : Exception) :
  py_int max_str_digits text = Raised e → e = ValueError.
Proof.
  unfold py_int.
  destruct (match drop_trailing int_isspace (drop_leading int_isspace text) with
            | String "-" digits =>
                (λ numeral : Z * nat, (Z.opp numeral.1, numeral.2)) <$>
                  parse_numeral digits
            | String "+" digits => parse_numeral digits
            | digits => parse_numeral digits
            end) as [[z count]|]; [| by intros [= <-]].
  destruct (_ && _); [by intros [= <-] | done].
Qed.

(** A value without a percent sign is read as it stands. *)
Lemma config_get_plain (config : Config) (section name : string)
    (fallback : option string) (items : list (string * string))
    (value : string) :
  section ≠ DEFAULTSECT →
  assoc section config = Some items →
  assoc (py_lower name) items = Some value →
  contains "%"%char value = false →
  config_get config section name fallback = Returned value.
Proof.
  intros Hsection Hitems Hvalue Hplain. unfold config_get.
  rewrite (bool_decide_eq_false_2 _ Hsection), Hitems, Hvalue.
  by apply interpolate_plain.
Qed.

(** *** Saving and loading *)

(** Writing a file that is no definition, where no definition was, does not
    disturb a definition that loads. *)
Lemma loadSettingsFromFile_insert (depth : nat) (fs : FileSystem) (path : string)
    (file : File) (file_name : string) (self loaded : MachineSettings) :
  (∀ data, fs !! path ≠ Some (JsonFile data)) →
  (∀ data, file ≠ JsonFile data) →
  loadSettingsFromFile depth fs file_name self = (Returned (), loaded) →
  loadSettingsFromFile depth (<[path := file]> fs) file_name self =
    (Returned (), loaded).
Proof.
  intros Hpath Hfile. revert file_name self loaded.
  induction depth as [|depth IH]; intros file_name self loaded; [discriminate |].
  cbn [loadSettingsFromFile].
  destruct (decide (file_name = path)) as [-> | Hne].
  - unfold read_json at 1.
    destruct (fs !! path) as [[data| |]|] eqn:E; try discriminate.
    by destruct (Hpath data).
  - replace (read_json (<[path := file]> fs) file_name)
      with (read_json fs file_name)
      by (unfold read_json; by rewrite lookup_insert_ne).
    destruct (and_then _ _) as [[| | | | | |fields]|e]; try done.
    destruct (dict_get "inherits" fields) as [[| | | |inherits| |]|]; try done.
    destruct (loadSettingsFromFile depth fs _ init) as [[[]|e] inherits_from] eqn:E;
      [| discriminate].
    by rewrite (IH _ _ _ E).
Qed.

(** What [saveToFile] writes for a plain name and a plain base name. *)
Lemma saveToFile_plain (path : string) (self : MachineSettings) (fs : FileSystem) :
  plain (_name self) → plain (basename (_json_file self)) →
  saveToFile path self fs =
  (Returned (),
   <[path := IniFile (saved_config (_name self) (basename (_json_file self)))]> fs).
Proof.
  intros Hname Hfile. unfold saveToFile.
  rewrite (before_set_plain (_name self)) by apply Hname.
  rewrite (before_set_plain (basename (_json_file self))) by apply Hfile.
  cbn [and_then]. change (before_set "1") with (Returned "1"). cbn [and_then].
  unfold written_file. by rewrite parse_written.
Qed.

(** What [loadFromFile] does with such a file. *)
Lemma loadFromFile_saved (getPath : string → option string)
    (max_str_digits depth : nat) (fs : FileSystem) (path name json_file : string)
    (self : MachineSettings) :
  contains "%"%char name = false → contains "%"%char json_file = false →
  fs !! path = Some (IniFile (saved_config name json_file)) →
  loadFromFile getPath max_str_digits depth fs path self =
  match getPath json_file with
  | None => (Raised (InvalidFileError path), self)
  | Some file_name =>
      match loadSettingsFromFile depth fs file_name self with
      | (Raised (FileNotFoundError _), self1) => (Raised (InvalidFileError path), self1)
      | (Raised e, self1) => (Raised e, self1)
      | (Returned _, self1) => (Returned (), set_name name self1)
      end
  end.
Proof.
  intros Hname Hfile Hpath. unfold loadFromFile, read_config. rewrite Hpath.
  change (has_section (saved_config name json_file) "General") with true.
  change (has_option (saved_config name json_file) "General" "version") with true.
  change (has_option (saved_config name json_file) "General" "name") with true.
  change (has_option (saved_config name json_file) "General" "json_file")
    with true.
  cbn [negb orb].
  rewrite (config_get_plain _ "General" "version" None
             [("name", name); ("json_file", json_file); ("version", "1")] "1")
    by done.
  rewrite (config_get_plain _ "General" "json_file" None
             [("name", name); ("json_file", json_file); ("version", "1")]
             json_file) by done.
  rewrite (config_get_plain _ "General" "name" (Some "Unknown Machine")
             [("name", name); ("json_file", json_file); ("version", "1")] name)
    by done.
  cbn [and_then].
  change (py_int max_str_digits "1") with (Returned 1%Z).
  change (negb (1 =? MachineInstanceVersion)%Z) with false. cbv iota.
  destruct (getPath json_file) as [file_name|]; [| done].
  by destruct (loadSettingsFromFile depth fs file_name self) as [[[]|e] self1].
Qed.

Lemma plain_Unknown_Machine : plain "Unknown Machine".
Proof. by repeat split. Qed.

Lemma plain_base_json : plain "base.json".
Proof. by repeat split. Qed.




Lemma unknown_key_value_access_witness :
  setSettingValueByKey "nozzle_size" (JInt 5) example_machine = example_machine ∧
  getSettingValueByKey example_machine "nozzle_size" = JNull.
Proof.
  apply (unknown_key_value_access example_machine "nozzle_size" (JInt 5)).
  apply getSettingByKey_None. vm_compute. reflexivity.
Defined.

(** ** What a definition declares is in the tree *)

Lemma tree_grows_refl (self : MachineSettings) : tree_grows self self.
Proof. intros r s H. eauto. Qed.

Lemma tree_grows_trans (m1 m2 m3 : MachineSettings) :
  tree_grows m1 m2 → tree_grows m2 m3 → tree_grows m1 m3.
Proof.
  intros H12 H23 r s Hs. destruct (H12 r s Hs) as (s2 & Hs2 & Hk2).
  destruct (H23 r s2 Hs2) as (s3 & Hs3 & Hk3). exists s3. split; congruence.
Qed.

Lemma has_key_grows (key : string) (self self' : MachineSettings) :
  tree_grows self self' → has_key key self → has_key key self'.
Proof.
  intros Hg (r & s & Hs & Hk). destruct (Hg r s Hs) as (s' & Hs' & Hk').
  exists r, s'. split; congruence.
Qed.

Lemma category_grows_refl (category : SettingsCategory.t) :
  category_grows category category.
Proof. intros i s H. eauto. Qed.

Lemma category_grows_trans (c1 c2 c3 : SettingsCategory.t) :
  category_grows c1 c2 → category_grows c2 c3 → category_grows c1 c3.
Proof.
  intros H12 H23 i s Hs. destruct (H12 i s Hs) as (s2 & Hs2 & Hk2).
  destruct (H23 i s2 Hs2) as (s3 & Hs3 & Hk3). exists s3. split; congruence.
Qed.

Lemma category_has_key_grows (key : string) (c c' : SettingsCategory.t) :
  category_grows c c' → category_has_key key c → category_has_key key c'.
Proof.
  intros Hg (i & s & Hs & Hk). destruct (Hg i s Hs) as (s' & Hs' & Hk').
  exists i, s'. split; congruence.
Qed.

Lemma has_key_getSettingByKey (key : string) (self : MachineSettings) :
  has_key key self ↔ is_Some (getSettingByKey self key).
Proof.
  split.
  - intros (r & s & Hs & Hk).
    destruct (getSettingByKey self key) as [r'|] eqn:E; [eauto |].
    exfalso. eapply getSettingByKey_None; [exact E | | exact Hk].
    apply elem_of_getAllSettings. destruct r as [c i | i].
    + right. simpl in Hs.
      destruct (_categories self !! c) as [category|] eqn:Ec; [| discriminate].
      exists category. split; by eapply list_elem_of_lookup_2.
    + left. split; [done |]. by eapply list_elem_of_lookup_2.
  - intros [r E]. apply getSettingByKey_Some in E as (s & Hs & Hk & _).
    by exists r, s.
Qed.

Lemma for_each_reaches {A S : Type} (Q : S → Prop)
    (body : A → S → Outcome unit * S) (items : list A) (s : S) (item : A) :
  (for_each body items s).1 = Returned () → item ∈ items →
  (∀ s, (body item s).1 = Returned () → Q (body item s).2) →
  (∀ item' s, Q s → Q (body item' s).2) →
  Q (for_each body items s).2.
Proof.
  intros Hret Hin Hitem Hkeep. revert s Hret.
  induction items as [|a items IH]; intros s Hret; [by apply elem_of_nil in Hin |].
  cbn [for_each] in *.
  destruct (body a s) as [[[]|e] s1] eqn:E; [| discriminate].
  apply elem_of_cons in Hin as [-> | Hin].
  - apply for_each_invariant; [intros; by apply Hkeep |].
    replace s1 with (body a s).2 by by rewrite E.
    apply Hitem. by rewrite E.
  - by apply IH.
Qed.

(** *** Categories *)

Lemma category_fill_setting_grows (entry : string * Json)
    (category : SettingsCategory.t) :
  category_grows category (SettingsCategory.fill_setting entry category).2.
Proof.
  destruct entry as [k value]. unfold SettingsCategory.fill_setting.
  assert (Hinsert : ∀ (l : list Setting.t) (i : nat) (s0 s1 : Setting.t),
             l !! i = Some s0 → Setting._key s1 = Setting._key s0 →
             ∀ j s, l !! j = Some s →
                    ∃ s', <[i := s1]> l !! j = Some s' ∧
                          Setting._key s' = Setting._key s).
  { intros l i s0 s1 H0 Hk j s Hj. destruct (decide (i = j)) as [-> | Hne].
    - exists s1. split; [| congruence].
      apply list_lookup_insert_eq. by eapply lookup_lt_Some.
    - exists s. by rewrite list_lookup_insert_ne. }
  destruct (SettingsCategory.getSettingByKey category k) as [i|] eqn:E.
  - apply category_getSettingByKey_Some in E as (s0 & Hs0 & Hk & _).
    rewrite Hs0. destruct (Setting.fillByDict value s0) as [s1|e] eqn:F;
      [| apply category_grows_refl].
    intros j s Hj. cbn [snd SettingsCategory.with_settings SettingsCategory._settings].
    eapply Hinsert; [done | | done]. by eapply Setting_fillByDict_key.
  - cbn [SettingsCategory.with_settings SettingsCategory._settings].
    rewrite list_lookup_middle by done.
    destruct (Setting.fillByDict value (Setting.new k)) as [s1|e] eqn:F;
      intros j s Hj;
      cbn [snd SettingsCategory.with_settings SettingsCategory._settings].
    + eapply Hinsert; [by apply list_lookup_middle | | by apply lookup_app_l_Some].
      by eapply Setting_fillByDict_key.
    + exists s. split; [by apply lookup_app_l_Some | done].
Qed.

Lemma category_fill_setting_has_key (k : string) (value : Json)
    (category : SettingsCategory.t) :
  category_has_key k (SettingsCategory.fill_setting (k, value) category).2.
Proof.
  unfold SettingsCategory.fill_setting.
  destruct (SettingsCategory.getSettingByKey category k) as [i|] eqn:E.
  - apply category_getSettingByKey_Some in E as (s0 & Hs0 & Hk & _).
    rewrite Hs0. destruct (Setting.fillByDict value s0) as [s1|e] eqn:F.
    + exists i, s1.
      cbn [snd SettingsCategory.with_settings SettingsCategory._settings].
      split; [apply list_lookup_insert_eq; by eapply lookup_lt_Some |].
      rewrite <- Hk. by eapply Setting_fillByDict_key.
    + by exists i, s0.
  - cbn [SettingsCategory.with_settings SettingsCategory._settings].
    rewrite list_lookup_middle by done.
    destruct (Setting.fillByDict value (Setting.new k)) as [s1|e] eqn:F;
      cbn [snd SettingsCategory.with_settings SettingsCategory._settings].
    + exists (length (SettingsCategory._settings category)), s1.
      split; [| by eapply (Setting_fillByDict_key _ (Setting.new k))].
      apply list_lookup_insert_eq. rewrite length_app. simpl. lia.
    + exists (length (SettingsCategory._settings category)), (Setting.new k).
      split; [by apply list_lookup_middle | done].
Qed.

Lemma category_grows_fill_fields (fields : list (string * Json))
    (category : SettingsCategory.t) :
  category_grows category
    (foldl (λ c f, SettingsCategory.fill_field f c) category fields).
Proof.
  intros i s Hs. rewrite category_fill_fields_settings. eauto.
Qed.

Lemma category_fillByDict_grows (value : Json) (category : SettingsCategory.t) :
  category_grows category (SettingsCategory.fillByDict value category).2.
Proof.
  destruct value as [| | | | | |fields]; try apply category_grows_refl.
  unfold SettingsCategory.fillByDict.
  destruct (dict_get "settings" fields) as [[| | | | | |entries]|];
    cbn [snd]; try apply category_grows_fill_fields.
  unfold SettingsCategory.fill_settings.
  apply (for_each_invariant (category_grows category));
    [| apply category_grows_fill_fields].
  intros entry c _ Hc. eapply category_grows_trans; [exact Hc |].
  apply category_fill_setting_grows.
Qed.

Lemma category_fillByDict_has_key (key : string) (value : Json)
    (category : SettingsCategory.t) :
  (SettingsCategory.fillByDict value category).1 = Returned () →
  key ∈ category_fragment_keys value →
  category_has_key key (SettingsCategory.fillByDict value category).2.
Proof.
  destruct value as [| | | | | |fields]; try (by intros _ ?%elem_of_nil).
  unfold SettingsCategory.fillByDict, category_fragment_keys, section_keys.
  destruct (dict_get "settings" fields) as [[| | | | | |entries]|];
    try (by intros _ ?%elem_of_nil).
  intros Hret Hkey. unfold dict_keys in Hkey.
  apply list_elem_of_fmap in Hkey as ([k v] & -> & Hin).
  unfold SettingsCategory.fill_settings in *.
  apply (for_each_reaches (category_has_key k) _ _ _ (k, v) Hret Hin).
  - intros c _. apply category_fill_setting_has_key.
  - intros entry c Hc. eapply category_has_key_grows; [| exact Hc].
    apply category_fill_setting_grows.
Qed.

(** *** The tree *)

Lemma tree_grows_mutate (r : SettingRef) (f : Setting.t → Setting.t)
    (self : MachineSettings) :
  (∀ x, deref self r = Some x → Setting._key (f x) = Setting._key x) →
  tree_grows self (mutate r f self).
Proof.
  intros Hf r' s Hs. rewrite deref_mutate.
  destruct (decide (r = r')) as [<- | _]; [| eauto].
  rewrite Hs. exists (f s). split; [done | by apply Hf].
Qed.

Lemma tree_grows_addSetting (setting : Setting.t) (self : MachineSettings) :
  tree_grows self (addSetting setting self).
Proof.
  intros [c i | i] s Hs; exists s; (split; [| done]).
  - exact Hs.
  - unfold addSetting. cbn [deref set_machine_settings _machine_settings].
    by apply lookup_app_l_Some.
Qed.

Lemma tree_grows_addSettingsCategory (category : SettingsCategory.t)
    (self : MachineSettings) :
  tree_grows self (addSettingsCategory category self).
Proof.
  intros [c i | i] s Hs; exists s; (split; [| done]); [| exact Hs].
  unfold addSettingsCategory. cbn [deref set_categories _categories] in *.
  destruct (_categories self !! c) as [category0|] eqn:E; [| discriminate].
  by rewrite (lookup_app_l_Some _ _ _ _ E).
Qed.

Lemma tree_grows_set_category (c : nat) (category' : SettingsCategory.t)
    (self : MachineSettings) :
  (∀ category, _categories self !! c = Some category →
               category_grows category category') →
  tree_grows self (set_categories (<[c := category']> (_categories self)) self).
Proof.
  intros Hg [c' i | i] s Hs; [| by exists s].
  cbn [deref set_categories _categories] in *.
  destruct (_categories self !! c') as [category|] eqn:E; [| discriminate].
  destruct (decide (c = c')) as [-> | Hne].
  - rewrite list_lookup_insert_eq by by eapply lookup_lt_Some.
    apply (Hg category E i s Hs).
  - rewrite list_lookup_insert_ne by done. rewrite E. by exists s.
Qed.

Lemma has_key_set_category (key : string) (c : nat)
    (category' : SettingsCategory.t) (self : MachineSettings) :
  c < length (_categories self) → category_has_key key category' →
  has_key key (set_categories (<[c := category']> (_categories self)) self).
Proof.
  intros Hc (i & s & Hs & Hk). exists (InCategory c i), s. split; [| done].
  cbn [deref set_categories _categories].
  by rewrite list_lookup_insert_eq.
Qed.

Lemma fillByDict_at_grows (r : SettingRef) (value : Json) (self : MachineSettings) :
  tree_grows self (fillByDict_at r value self).2.
Proof.
  unfold fillByDict_at. destruct (deref self r) as [s|] eqn:E;
    [| apply tree_grows_refl].
  destruct (Setting.fillByDict value s) as [s'|e] eqn:F; [| apply tree_grows_refl].
  apply tree_grows_mutate. intros x Hx. rewrite E in Hx. injection Hx as <-.
  by eapply Setting_fillByDict_key.
Qed.

Lemma load_machine_setting_grows (entry : string * Json) (self : MachineSettings) :
  tree_grows self (load_machine_setting entry self).2.
Proof.
  destruct entry as [k value]. unfold load_machine_setting.
  destruct (getSettingByKey self k) as [r|]; [apply fillByDict_at_grows |].
  eapply tree_grows_trans; [apply tree_grows_addSetting | apply fillByDict_at_grows].
Qed.

Lemma load_machine_setting_has_key (k : string) (value : Json) (self : MachineSettings) :
  has_key k (load_machine_setting (k, value) self).2.
Proof.
  unfold load_machine_setting.
  destruct (getSettingByKey self k) as [r|] eqn:E.
  - eapply has_key_grows; [apply fillByDict_at_grows |].
    apply has_key_getSettingByKey. eauto.
  - eapply has_key_grows; [apply fillByDict_at_grows |].
    exists (InMachine (length (_machine_settings self))),
           (Setting.connect_valueChanged (Setting.new k)).
    split; [| done]. unfold addSetting.
    cbn [deref set_machine_settings _machine_settings].
    by apply list_lookup_middle.
Qed.

Lemma load_override_grows (entry : string * Json) (self : MachineSettings) :
  tree_grows self (load_override entry self).2.
Proof.
  destruct entry as [k value]. unfold load_override.
  destruct (getSettingByKey self k) as [r|];
    [apply fillByDict_at_grows | apply tree_grows_refl].
Qed.

Lemma load_category_grows (entry : string * Json) (self : MachineSettings) :
  tree_grows self (load_category entry self).2.
Proof.
  destruct entry as [ckey value]. unfold load_category.
  destruct (getSettingsCategory self ckey) as [c|] eqn:E.
  - unfold getSettingsCategory in E.
    apply fmap_Some in E as ([c' category] & E & ->).
    apply list_find_Some in E as (Hc & _ & _). cbn [fst]. rewrite Hc.
    pose proof (category_fillByDict_grows value category) as Hg.
    destruct (SettingsCategory.fillByDict value category) as [result category'].
    cbn [snd] in *. apply tree_grows_set_category.
    intros category0 H0. rewrite Hc in H0. by injection H0 as <-.
  - set (self1 := addSettingsCategory (SettingsCategory.new ckey) self).
    assert (Hnew : _categories self1 !! length (_categories self) =
                   Some (SettingsCategory.new ckey))
      by by apply list_lookup_middle.
    rewrite Hnew.
    eapply tree_grows_trans;
      [apply (tree_grows_addSettingsCategory (SettingsCategory.new ckey)) |].
    fold self1.
    pose proof (category_fillByDict_grows value (SettingsCategory.new ckey)) as Hg.
    destruct (SettingsCategory.fillByDict value (SettingsCategory.new ckey))
      as [result category'].
    cbn [snd] in *. apply tree_grows_set_category.
    intros category0 H0. rewrite Hnew in H0. by injection H0 as <-.
Qed.

Lemma load_category_has_key (key ckey : string) (value : Json)
    (self : MachineSettings) :
  (load_category (ckey, value) self).1 = Returned () →
  key ∈ category_fragment_keys value →
  has_key key (load_category (ckey, value) self).2.
Proof.
  unfold load_category.
  destruct (getSettingsCategory self ckey) as [c|] eqn:E.
  - unfold getSettingsCategory in E.
    apply fmap_Some in E as ([c' category] & E & ->).
    apply list_find_Some in E as (Hc & _ & _). cbn [fst]. rewrite Hc.
    pose proof (category_fillByDict_has_key key value category) as Hk.
    destruct (SettingsCategory.fillByDict value category) as [result category'].
    cbn [fst snd] in *. intros Hret Hkey. apply has_key_set_category; [| auto].
    by eapply lookup_lt_Some.
  - set (self1 := addSettingsCategory (SettingsCategory.new ckey) self).
    assert (Hnew : _categories self1 !! length (_categories self) =
                   Some (SettingsCategory.new ckey))
      by by apply list_lookup_middle.
    rewrite Hnew.
    pose proof (category_fillByDict_has_key key value (SettingsCategory.new ckey)) as Hk.
    destruct (SettingsCategory.fillByDict value (SettingsCategory.new ckey))
      as [result category'].
    cbn [fst snd] in *. intros Hret Hkey. apply has_key_set_category; [| auto].
    by eapply lookup_lt_Some.
Qed.

Lemma connect_settings_grows (self : MachineSettings) :
  tree_grows self (connect_settings self).
Proof.
  unfold connect_settings. generalize (getAllSettings_refs false self).
  intros refs. revert self.
  induction refs as [|r refs IH]; intros self; [apply tree_grows_refl |].
  cbn [foldl]. eapply tree_grows_trans; [| apply IH].
  by apply tree_grows_mutate.
Qed.

Lemma load_section_grows (name : string)
    (body : string * Json → MachineSettings → Outcome unit * MachineSettings)
    (fields : Dict) (self : MachineSettings) :
  (∀ entry m, tree_grows m (body entry m).2) →
  tree_grows self (load_section name body fields self).2.
Proof.
  intros Hbody. unfold load_section.
  destruct (dict_get name fields) as [[| | | | | |entries]|];
    try apply tree_grows_refl.
  apply (for_each_invariant (tree_grows self)); [| apply tree_grows_refl].
  intros entry m _ Hm. eapply tree_grows_trans; [exact Hm | apply Hbody].
Qed.

(** After the layers have returned, every key that the [machine_settings] and
    [categories] sections name is in the tree. *)
Lemma load_layers_has_key (key : string) (fields : Dict) (self : MachineSettings) :
  (load_layers fields self).1 = Returned () →
  key ∈ section_keys "machine_settings" fields ++ categories_keys fields →
  has_key key (load_layers fields self).2.
Proof.
  unfold load_layers. intros Hret Hkey.
  pose proof (load_section_grows "machine_settings" load_machine_setting fields self
                load_machine_setting_grows) as G1.
  assert (K1 : (load_section "machine_settings" load_machine_setting fields self).1
               = Returned () →
               key ∈ section_keys "machine_settings" fields →
               has_key key
                 (load_section "machine_settings" load_machine_setting fields self).2).
  { unfold load_section, section_keys.
    destruct (dict_get "machine_settings" fields) as [[| | | | | |entries]|];
      try (by intros _ ?%elem_of_nil).
    intros Hr Hk. unfold dict_keys in Hk.
    apply list_elem_of_fmap in Hk as ([k v] & -> & Hin).
    apply (for_each_reaches (has_key k) _ _ _ (k, v) Hr Hin).
    - intros m _. apply load_machine_setting_has_key.
    - intros entry m Hm. eapply has_key_grows; [| exact Hm].
      apply load_machine_setting_grows. }
  destruct (load_section "machine_settings" load_machine_setting fields self)
    as [[[]|e1] self1]; [| discriminate]. cbn [fst snd] in *.
  pose proof (load_section_grows "categories" load_category fields self1
                load_category_grows) as G2.
  assert (K2 : (load_section "categories" load_category fields self1).1
               = Returned () →
               key ∈ categories_keys fields →
               has_key key (load_section "categories" load_category fields self1).2).
  { unfold load_section, categories_keys.
    destruct (dict_get "categories" fields) as [[| | | | | |entries]|];
      try (by intros _ ?%elem_of_nil).
    intros Hr Hk. apply elem_of_concat in Hk as (l & Hl & Hk).
    apply list_elem_of_fmap in Hl as ([ckey v] & -> & Hin).
    apply (for_each_reaches (has_key key) _ _ _ (ckey, v) Hr Hin).
    - intros m Hm. by apply load_category_has_key.
    - intros entry m Hm. eapply has_key_grows; [| exact Hm].
      apply load_category_grows. }
  destruct (load_section "categories" load_category fields self1)
    as [[[]|e2] self2]; [| discriminate]. cbn [fst snd] in *.
  pose proof (load_section_grows "overrides" load_override fields self2
                load_override_grows) as G3.
  destruct (load_section "overrides" load_override fields self2)
    as [[[]|e3] self3]; [| discriminate]. cbn [fst snd] in *.
  eapply has_key_grows; [apply connect_settings_grows |].
  eapply has_key_grows; [exact G3 |].
  apply elem_of_app in Hkey as [Hkey | Hkey].
  - eapply has_key_grows; [exact G2 |]. by apply K1.
  - by apply K2.
Qed.

(** Every key that the [machine_settings] and [categories] sections of a
    definition name is retrievable once the definition has loaded. *)
Lemma declared_keys_retrievable (depth : nat) (fs : FileSystem)
    (file_name : string) (fields : Dict) (self loaded : MachineSettings)
    (key : string) :
  fs !! file_name = Some (JsonFile (JObj fields)) →
  loadSettingsFromFile depth fs file_name self = (Returned (), loaded) →
  key ∈ section_keys "machine_settings" fields ++ categories_keys fields →
  is_Some (getSettingByKey loaded key).
Proof.
  intros Hfile Hload Hkey. apply has_key_getSettingByKey.
  destruct depth as [|depth]; [discriminate |].
  cbn [loadSettingsFromFile] in Hload.
  rewrite (header_checks _ _ _ Hfile) in Hload.
  destruct (dict_has "id" fields && dict_has "name" fields); [| discriminate].
  destruct (version_supported fields); [| discriminate].
  assert (Hlayers : ∀ m, load_layers fields m = (Returned (), loaded) →
                         has_key key loaded).
  { intros m Hm. replace loaded with (load_layers fields m).2 by by rewrite Hm.
    apply load_layers_has_key; [by rewrite Hm | done]. }
  destruct (dict_get "inherits" fields) as [[| | | |inherits| |]|];
    try discriminate; [| by eapply Hlayers].
  destruct (loadSettingsFromFile depth fs _ init) as [[[]|e] inherits_from];
    [| discriminate].
  by eapply Hlayers.
Qed.

(** C4. When the parent definition loads, a valid child definition that
    inherits from it loads too. Every key that is retrievable in the parent,
    and so every key that the [machine_settings] and [categories] sections of
    the parent name, is retrievable in the child with the default value it has
    in the parent, unless the child's own [machine_settings], [categories] or
    [overrides] sections name it. *)
Theorem inherited_settings_retrievable (depth : nat) (fs : FileSystem)
    (file_name : string) (fields : Dict) (parent_name : string)
    (parent_fields : Dict) (parent self : MachineSettings) :
  fs !! file_name = Some (JsonFile (JObj fields)) →
  valid_definition fields = true →
  dict_get "inherits" fields = Some (JStr parent_name) →
  fs !! (dirname file_name +:+ "/" +:+ parent_name) =
    Some (JsonFile (JObj parent_fields)) →
  loadSettingsFromFile depth fs (dirname file_name +:+ "/" +:+ parent_name) init =
    (Returned (), parent) →
  ∃ child,
    loadSettingsFromFile (S depth) fs file_name self = (Returned (), child) ∧
    (∀ key r s,
       key ∉ own_keys fields →
       getSettingByKey parent key = Some r → deref parent r = Some s →
       ∃ r' s',
         getSettingByKey child key = Some r' ∧ deref child r' = Some s' ∧
         Setting.getKey s' = key ∧
         Setting.getDefaultValue s' = Setting.getDefaultValue s) ∧
    (∀ key,
       key ∈ section_keys "machine_settings" parent_fields ++
             categories_keys parent_fields →
       key ∉ own_keys fields →
       ∃ r s r' s',
         getSettingByKey parent key = Some r ∧ deref parent r = Some s ∧
         getSettingByKey child key = Some r' ∧ deref child r' = Some s' ∧
         Setting.getKey s' = key ∧
         Setting.getDefaultValue s' = Setting.getDefaultValue s).
Proof.
  intros Hfile Hvalid Hinherits Hparent_file Hparent.
  destruct (inherited_keys_kept depth fs file_name fields parent_name parent self
              Hfile Hvalid Hinherits Hparent) as (child & Hchild & Hkept).
  exists child. split; [done |]. split; [done |].
  intros key Hdeclared Hown.
  destruct (declared_keys_retrievable _ _ _ _ _ _ key Hparent_file Hparent Hdeclared)
    as [r Hr].
  destruct (getSettingByKey_Some _ _ _ Hr) as (s & Hs & _).
  destruct (Hkept key r s Hown Hr Hs) as (r' & s' & H1 & H2 & H3 & H4).
  by exists r, s, r', s'.
Qed.

Lemma inherited_settings_retrievable_witness :
  ∃ child,
    loadSettingsFromFile 2 example_fs "machines/child.json" init =
      (Returned (), child) ∧
    (∀ key r s,
       key ∉ own_keys child_fields →
       getSettingByKey base_machine key = Some r →
       deref base_machine r = Some s →
       ∃ r' s',
         getSettingByKey child key = Some r' ∧ deref child r' = Some s' ∧
         Setting.getKey s' = key ∧
         Setting.getDefaultValue s' = Setting.getDefaultValue s) ∧
    (∀ key,
       key ∈ section_keys "machine_settings" base_fields ++
             categories_keys base_fields →
       key ∉ own_keys child_fields →
       ∃ r s r' s',
         getSettingByKey base_machine key = Some r ∧
         deref base_machine r = Some s ∧
         getSettingByKey child key = Some r' ∧ deref child r' = Some s' ∧
         Setting.getKey s' = key ∧
         Setting.getDefaultValue s' = Setting.getDefaultValue s).
Proof.
  apply (inherited_settings_retrievable 1 example_fs "machines/child.json"
           child_fields "base.json" base_fields base_machine init);
    vm_compute; reflexivity.
Defined.

(** * Further properties of the class *)

(** ** The tree seen through its keys *)

Lemma list_find_through {A B : Type} (P : A → Prop) (Q : B → Prop)
    {Pdec : ∀ x, Decision (P x)} {Qdec : ∀ y, Decision (Q y)}
    (f : A → B) (l : list A) :
  (∀ x, P x ↔ Q (f x)) →
  list_find Q (f <$> l) = prod_map id f <$> list_find P l.
Proof.
  intros HPQ. induction l as [|x l IH]; [done |].
  rewrite fmap_cons. cbn [list_find].
  destruct (decide (P x)) as [HP | HP].
  - rewrite decide_True by by apply HPQ. done.
  - rewrite decide_False by by rewrite <- HPQ. rewrite IH.
    by destruct (list_find P l) as [[? ?]|].
Qed.

Lemma category_getSettingByKey_keys (category : SettingsCategory.t) (key : string) :
  SettingsCategory.getSettingByKey category key =
  find_key_in key (Setting._key <$> SettingsCategory._settings category).
Proof.
  unfold SettingsCategory.getSettingByKey, find_key_in.
  rewrite (list_find_through
             (λ s, is_Some (Setting.getSettingByKey s key)) (λ k, k = key)).
  - by destruct (list_find _ _) as [[? ?]|].
  - intros s. apply Setting_getSettingByKey_is_Some.
Qed.

Lemma getSettingByKey_keys (self : MachineSettings) (key : string) :
  getSettingByKey self key = find_ref key (tree_obs Setting._key self).
Proof.
  unfold getSettingByKey, find_ref, tree_obs. cbn [fst snd].
  rewrite (list_find_through
             (λ category, is_Some (SettingsCategory.getSettingByKey category key))
             (λ ks, is_Some (find_key_in key ks))).
  2: { intros category. by rewrite category_getSettingByKey_keys. }
  destruct (list_find _ (_categories self)) as [[c category]|]; simpl.
  - by rewrite category_getSettingByKey_keys.
  - rewrite (list_find_through
               (λ s, is_Some (Setting.getSettingByKey s key)) (λ k, k = key)).
    + by destruct (list_find _ _) as [[? ?]|].
    + intros s. apply Setting_getSettingByKey_is_Some.
Qed.

Lemma getAllSettings_obs {B : Type} (g : Setting.t → B) (include_machine : bool)
    (self : MachineSettings) :
  g <$> getAllSettings include_machine false self =
  (if include_machine then (tree_obs g self).2 else []) ++
  concat (tree_obs g self).1.
Proof.
  unfold getAllSettings, tree_obs. cbn [fst snd].
  rewrite fmap_app, concat_fmap_fmap, <- list_fmap_compose.
  by destruct include_machine.
Qed.

Lemma tree_obs_mutate {B : Type} (g : Setting.t → B) (r : SettingRef)
    (f : Setting.t → Setting.t) (self : MachineSettings) :
  (∀ x, deref self r = Some x → g (f x) = g x) →
  tree_obs g (mutate r f self) = tree_obs g self.
Proof.
  intros Hf. destruct r as [c i | i]; unfold tree_obs;
    cbn [mutate set_categories set_machine_settings _categories _machine_settings].
  - f_equal. apply fmap_alter_same. intros category Hc.
    cbn [SettingsCategory.with_settings SettingsCategory._settings].
    apply fmap_alter_same. intros x Hx. apply Hf. simpl. by rewrite Hc.
  - f_equal. by apply fmap_alter_same.
Qed.

Lemma tree_valueChanged_emit (s : Setting.t) (self : MachineSettings) :
  _categories (valueChanged_emit s self) = _categories self ∧
  _machine_settings (valueChanged_emit s self) = _machine_settings self.
Proof.
  unfold valueChanged_emit, settingChanged_emit, _onSettingChanged.
  by destruct (Setting._valueChanged s), (settingChanged self), (_active_profile self).
Qed.

Lemma tree_obs_setValue_at {B : Type} (g : Setting.t → B) (r : SettingRef)
    (value : Json) (self : MachineSettings) :
  (∀ x, deref self r = Some x → g (Setting.setValue value x) = g x) →
  tree_obs g (setValue_at r value self) = tree_obs g self.
Proof.
  intros Hg. unfold setValue_at. destruct (deref self r) as [s|] eqn:E; [| done].
  rewrite <- (tree_obs_mutate g r (Setting.setValue value) self) by by rewrite E.
  unfold tree_obs.
  by destruct (tree_valueChanged_emit (Setting.setValue value s)
                 (mutate r (Setting.setValue value) self)) as [-> ->].
Qed.

(** ** Validation *)

(** X1. [hasWarningValue()] is true exactly when some setting of
    [getAllSettings()] validates to the min-value-warning or the
    max-value-warning classification; settings in an error state do not count
    as warnings. *)
Theorem hasWarningValue_iff (validate : Setting.t → ResultCodes)
    (self : MachineSettings) :
  (hasWarningValue validate self = true ↔
   ∃ s, s ∈ getAllSettings false false self ∧
        (validate s = min_value_warning ∨ validate s = max_value_warning)) ∧
  ((∀ s, s ∈ getAllSettings false false self →
         validate s = ok ∨ validate s = min_value_error ∨
         validate s = max_value_error) →
   hasWarningValue validate self = false).
Proof.
  assert (Hiff : hasWarningValue validate self = true ↔
    ∃ s, s ∈ getAllSettings false false self ∧
         (validate s = min_value_warning ∨ validate s = max_value_warning)).
  { unfold hasWarningValue. rewrite any_result_true.
    split; intros (s & H1 & H2); exists s; split; try done;
      by apply is_warning_spec. }
  split; [exact Hiff |].
  intros Hnone. apply not_true_is_false. intros E.
  apply Hiff in E as (s & Hs & Hv).
  destruct (Hnone s Hs) as [H | [H | H]]; rewrite H in Hv;
    destruct Hv; discriminate.
Qed.

(** ** Values by key *)

Lemma getSettingByKey_setValue_at (r : SettingRef) (value : Json)
    (self : MachineSettings) (key : string) :
  getSettingByKey (setValue_at r value self) key = getSettingByKey self key.
Proof. rewrite !getSettingByKey_keys. by rewrite tree_obs_setValue_at. Qed.

(** X2. After [setSettingValueByKey(key, value)] on a key that a setting has,
    [getSettingValueByKey(key)] returns the value, and the value read under
    any other key is what it was. *)
Theorem setSettingValueByKey_then_get (self : MachineSettings) (key : string)
    (value : Json) :
  is_Some (getSettingByKey self key) →
  getSettingValueByKey (setSettingValueByKey key value self) key = value ∧
  ∀ other, other ≠ key →
    getSettingValueByKey (setSettingValueByKey key value self) other =
    getSettingValueByKey self other.
Proof.
  intros [r Hr]. unfold setSettingValueByKey. rewrite Hr.
  destruct (getSettingByKey_Some _ _ _ Hr) as (s & Hs & Hk & _).
  split.
  - unfold getSettingValueByKey.
    rewrite getSettingByKey_setValue_at, Hr, deref_setValue_at.
    rewrite decide_True by done. by rewrite Hs.
  - intros other Hne. unfold getSettingValueByKey.
    rewrite getSettingByKey_setValue_at.
    destruct (getSettingByKey self other) as [r'|] eqn:Hr'; [| done].
    rewrite deref_setValue_at. destruct (decide (r = r')) as [<- | _]; [| done].
    destruct (getSettingByKey_Some _ _ _ Hr') as (s' & Hs' & Hk' & _).
    congruence.
Qed.

Lemma setSettingValueByKey_then_get_witness :
  getSettingValueByKey
    (setSettingValueByKey "wall_count" (JInt 3) example_machine) "wall_count"
    = JInt 3 ∧
  ∀ other, other ≠ "wall_count" →
    getSettingValueByKey
      (setSettingValueByKey "wall_count" (JInt 3) example_machine) other =
    getSettingValueByKey example_machine other.
Proof.
  apply (setSettingValueByKey_then_get example_machine "wall_count" (JInt 3)).
  vm_compute. eauto.
Defined.

Lemma category_keys_mutate (r : SettingRef) (f : Setting.t → Setting.t)
    (self : MachineSettings) :
  SettingsCategory._key <$> _categories (mutate r f self) =
  SettingsCategory._key <$> _categories self.
Proof.
  destruct r as [c i | i]; [| done].
  cbn [mutate set_categories _categories]. by apply fmap_alter_same.
Qed.

(** X3. [setSettingValueByKey] changes values only: every key is looked up
    where it was, the keys and the default values of the settings, the keys
    of the categories, the name and the definition file stay as they are. *)
Theorem setSettingValueByKey_keeps_structure (self : MachineSettings)
    (key : string) (value : Json) :
  (∀ k, getSettingByKey (setSettingValueByKey key value self) k =
        getSettingByKey self k) ∧
  (∀ include_machine,
     Setting.getKey <$>
       getAllSettings include_machine false (setSettingValueByKey key value self) =
     Setting.getKey <$> getAllSettings include_machine false self) ∧
  (∀ include_machine,
     Setting.getDefaultValue <$>
       getAllSettings include_machine false (setSettingValueByKey key value self) =
     Setting.getDefaultValue <$> getAllSettings include_machine false self) ∧
  SettingsCategory.getKey <$> getAllCategories (setSettingValueByKey key value self) =
    SettingsCategory.getKey <$> getAllCategories self ∧
  getName (setSettingValueByKey key value self) = getName self ∧
  _json_file (setSettingValueByKey key value self) = _json_file self.
Proof.
  unfold setSettingValueByKey.
  destruct (getSettingByKey self key) as [r|]; [| done].
  split; [intros k; apply getSettingByKey_setValue_at |].
  split; [intros b; by rewrite !getAllSettings_obs, tree_obs_setValue_at |].
  split; [intros b; by rewrite !getAllSettings_obs, tree_obs_setValue_at |].
  unfold setValue_at, getAllCategories, getName.
  destruct (deref self r) as [s|]; [| done].
  destruct (tree_valueChanged_emit (Setting.setValue value s)
              (mutate r (Setting.setValue value) self)) as [Hc _].
  rewrite Hc, category_keys_mutate. split; [done |].
  set (s' := Setting.setValue value s).
  set (self' := mutate r (Setting.setValue value) self).
  assert (Hn : _name self' = _name self ∧ _json_file self' = _json_file self)
    by by destruct r.
  destruct Hn as [<- <-].
  unfold valueChanged_emit, settingChanged_emit, _onSettingChanged.
  by destruct (Setting._valueChanged s'), (settingChanged self'),
       (_active_profile self').
Qed.

(** ** Lookup order *)

(** X4. The setting that [getSettingByKey] returns is the first one with the
    key when the settings of the categories, in category order, are followed
    by the machine settings: a categorized setting hides a machine-level
    setting with the same key. *)
Theorem getSettingByKey_first (self : MachineSettings) (key : string) :
  getSettingByKey self key ≫= deref self =
  head (filter (λ s, Setting.getKey s = key)
          (getAllSettings false false self ++ getMachineSettings self)).
Proof.
  rewrite getSettingByKey_head. f_equal.
  unfold answering, answering_in, getAllSettings, getMachineSettings.
  cbn [app]. rewrite filter_app, filter_concat, list_fmap_id.
  f_equal. f_equal. rewrite <- list_fmap_compose.
  apply list_fmap_ext. intros _ category _. simpl. by rewrite list_fmap_id.
Qed.

(** ** Adding categories and settings *)

(** X5. After [addSettingsCategory(category)], [getSettingsCategory] finds
    every key where it found it before; a key that was not found is found at
    the new last position exactly when it is the key of the added category.
    A category added under a key that is already there is never returned. *)
Theorem getSettingsCategory_addSettingsCategory (category : SettingsCategory.t)
    (self : MachineSettings) (key : string) :
  getSettingsCategory (addSettingsCategory category self) key =
  match getSettingsCategory self key with
  | Some c => Some c
  | None =>
      if decide (SettingsCategory.getKey category = key)
      then Some (length (getAllCategories self)) else None
  end.
Proof.
  unfold getSettingsCategory, addSettingsCategory, getAllCategories.
  cbn [set_categories _categories].
  destruct (list_find _ (_categories self)) as [[c found]|] eqn:E.
  - by rewrite (list_find_app_l _ _ _ _ _ E).
  - rewrite (list_find_app_r _ _ _ E). cbn [list_find].
    by destruct (decide (SettingsCategory.getKey category = key)).
Qed.

(** X6. After [addSetting(setting)], [getSettingByKey] finds every key where
    it found it before; a key that was not found is found at the new last
    machine-level position exactly when it is the key of the added setting.
    The added setting never hides an older one. *)
Theorem getSettingByKey_addSetting (setting : Setting.t) (self : MachineSettings)
    (key : string) :
  getSettingByKey (addSetting setting self) key =
  match getSettingByKey self key with
  | Some r => Some r
  | None =>
      if decide (Setting.getKey setting = key)
      then Some (InMachine (length (getMachineSettings self))) else None
  end.
Proof.
  rewrite !getSettingByKey_keys. unfold find_ref, tree_obs, addSetting.
  cbn [set_machine_settings _categories _machine_settings fst snd].
  destruct (list_find _ (_ <$> _categories self)) as [[c ks]|] eqn:Ec.
  { apply list_find_Some in Ec as (_ & [i Hi] & _). by rewrite Hi. }
  rewrite fmap_app.
  destruct (list_find _ (Setting._key <$> _machine_settings self))
    as [[i k]|] eqn:E.
  - by rewrite (list_find_app_l _ _ _ _ _ E).
  - rewrite (list_find_app_r _ _ _ E). cbn [fmap list_fmap list_find].
    unfold Setting.getKey, getMachineSettings.
    change (Setting._key (Setting.connect_valueChanged setting))
      with (Setting._key setting).
    destruct (decide (Setting._key setting = key)); [| done].
    simpl. by rewrite length_fmap.
Qed.

(** ** The definition loader: metadata and failures *)

Lemma without_tree_mutate (r : SettingRef) (f : Setting.t → Setting.t)
    (self : MachineSettings) :
  without_tree (mutate r f self) = without_tree self.
Proof. by destruct r. Qed.

Lemma without_tree_fillByDict_at (r : SettingRef) (value : Json)
    (self : MachineSettings) :
  without_tree (fillByDict_at r value self).2 = without_tree self.
Proof.
  unfold fillByDict_at. destruct (deref self r) as [s|]; [| done].
  destruct (Setting.fillByDict value s); [| done]. apply without_tree_mutate.
Qed.

Lemma without_tree_load_machine_setting (entry : string * Json)
    (self : MachineSettings) :
  without_tree (load_machine_setting entry self).2 = without_tree self.
Proof.
  destruct entry as [k v]. unfold load_machine_setting.
  destruct (getSettingByKey self k); by rewrite without_tree_fillByDict_at.
Qed.

Lemma without_tree_load_override (entry : string * Json) (self : MachineSettings) :
  without_tree (load_override entry self).2 = without_tree self.
Proof.
  destruct entry as [k v]. unfold load_override.
  destruct (getSettingByKey self k); [| done]. apply without_tree_fillByDict_at.
Qed.

Lemma without_tree_load_category (entry : string * Json) (self : MachineSettings) :
  without_tree (load_category entry self).2 = without_tree self.
Proof.
  destruct entry as [k v]. unfold load_category.
  destruct (getSettingsCategory self k) as [c|].
  - destruct (_categories self !! c) as [category|]; [| done].
    by destruct (SettingsCategory.fillByDict v category).
  - destruct (_categories _ !! _) as [category|]; [| done].
    by destruct (SettingsCategory.fillByDict v category).
Qed.

Lemma without_tree_load_section (name : string)
    (body : string * Json → MachineSettings → Outcome unit * MachineSettings)
    (fields : Dict) (self : MachineSettings) :
  (∀ entry m, without_tree (body entry m).2 = without_tree m) →
  without_tree (load_section name body fields self).2 = without_tree self.
Proof.
  intros Hbody. unfold load_section.
  destruct (dict_get name fields) as [[| | | | | |entries]|]; try done.
  apply (for_each_invariant (λ m, without_tree m = without_tree self)); [| done].
  intros entry m _ Hm. by rewrite Hbody.
Qed.

Lemma without_tree_connect_settings (self : MachineSettings) :
  without_tree (connect_settings self) = without_tree self.
Proof.
  unfold connect_settings. generalize (getAllSettings_refs false self).
  intros refs. revert self. induction refs as [|r refs IH]; intros self; [done |].
  cbn [foldl]. by rewrite IH, without_tree_mutate.
Qed.

Lemma without_tree_load_layers (fields : Dict) (self : MachineSettings) :
  without_tree (load_layers fields self).2 = without_tree self.
Proof.
  unfold load_layers.
  pose proof (without_tree_load_section "machine_settings" load_machine_setting
                fields self without_tree_load_machine_setting) as F1.
  destruct (load_section "machine_settings" load_machine_setting fields self)
    as [[[]|e1] self1]; cbn [snd] in *; [| done].
  pose proof (without_tree_load_section "categories" load_category
                fields self1 without_tree_load_category) as F2.
  destruct (load_section "categories" load_category fields self1)
    as [[[]|e2] self2]; cbn [snd] in *; [| congruence].
  pose proof (without_tree_load_section "overrides" load_override
                fields self2 without_tree_load_override) as F3.
  destruct (load_section "overrides" load_override fields self2)
    as [[[]|e3] self3]; cbn [snd] in *; [| congruence].
  rewrite without_tree_connect_settings. congruence.
Qed.

(** What the loader leaves: either it raises before it assigns anything, or
    the document passed both checks and the instance has its metadata and
    some tree. *)
Lemma loadSettingsFromFile_cases (depth : nat) (fs : FileSystem)
    (file_name : string) (self : MachineSettings) :
  (∃ e, loadSettingsFromFile depth fs file_name self = (Raised e, self)) ∨
  ∃ fields,
    fs !! file_name = Some (JsonFile (JObj fields)) ∧
    dict_has "id" fields = true ∧ dict_has "name" fields = true ∧
    version_supported fields = true ∧
    without_tree (loadSettingsFromFile depth fs file_name self).2 =
    without_tree (load_metadata file_name fields self).
Proof.
  destruct depth as [|depth]; [left; by eexists |]. cbn [loadSettingsFromFile].
  destruct (fs !! file_name) as [[data| |]|] eqn:Hfile;
    try (left; unfold read_json; rewrite Hfile; by eexists).
  destruct data as [| | | |text|items|fields];
    try (left; unfold read_json; rewrite Hfile; by eexists).
  - left. unfold read_json. rewrite Hfile.
    unfold check_required, check_version. cbn [and_then py_in py_getitem].
    destruct (is_substring "id" text); [| by eexists].
    destruct (is_substring "name" text); [| by eexists].
    destruct (is_substring "version" text); by eexists.
  - left. unfold read_json. rewrite Hfile.
    unfold check_required, check_version. cbn [and_then py_in py_getitem].
    destruct (existsb (is_JStr "id") items); [| by eexists].
    destruct (existsb (is_JStr "name") items); [| by eexists].
    destruct (existsb (is_JStr "version") items); by eexists.
  - rewrite (header_checks _ _ _ Hfile).
    destruct (dict_has "id" fields) eqn:Hid; [| left; by eexists].
    destruct (dict_has "name" fields) eqn:Hname; [| left; by eexists].
    destruct (version_supported fields) eqn:Hversion; [| left; by eexists].
    right. exists fields. repeat (split; [done |]). cbn [andb].
    destruct (dict_get "inherits" fields) as [[| | | |inherits| |]|]; try done.
    + destruct (loadSettingsFromFile depth fs _ init) as [[[]|e] inherits_from];
        [| done].
      by rewrite without_tree_load_layers.
    + by rewrite without_tree_load_layers.
Qed.

(** X7. A definition document that lacks [id] or [name] is rejected with
    [InvalidFileError] whatever its version and its other fields are, and the
    instance is left as it was. *)
Theorem missing_id_or_name_rejected (depth : nat) (fs : FileSystem)
    (file_name : string) (fields : Dict) (self : MachineSettings) :
  fs !! file_name = Some (JsonFile (JObj fields)) →
  dict_has "id" fields && dict_has "name" fields = false →
  loadSettingsFromFile (S depth) fs file_name self =
    (Raised (InvalidFileError file_name), self).
Proof.
  intros Hfile Hmissing. cbn [loadSettingsFromFile].
  by rewrite (header_checks _ _ _ Hfile), Hmissing.
Qed.

Lemma missing_id_or_name_rejected_witness :
  loadSettingsFromFile 1
    (<["machines/nameless.json" :=
         JsonFile (JObj [("id", JStr "x"); ("version", JInt 1)])]> ∅)
    "machines/nameless.json" example_machine =
    (Raised (InvalidFileError "machines/nameless.json"), example_machine).
Proof.
  apply (missing_id_or_name_rejected 0 _ "machines/nameless.json"
           [("id", JStr "x"); ("version", JInt 1)] example_machine);
    vm_compute; reflexivity.
Defined.

(** X8. The loader never changes the display name, the active profile or the
    link to the profile, whether it returns or raises. *)
Theorem loadSettingsFromFile_keeps_name_and_profile (depth : nat)
    (fs : FileSystem) (file_name : string) (self : MachineSettings) :
  getName (loadSettingsFromFile depth fs file_name self).2 = getName self ∧
  getActiveProfile (loadSettingsFromFile depth fs file_name self).2 =
    getActiveProfile self ∧
  settingChanged (loadSettingsFromFile depth fs file_name self).2 =
    settingChanged self.
Proof.
  destruct (loadSettingsFromFile_cases depth fs file_name self)
    as [[e ->] | (fields & _ & _ & _ & _ & H)]; [done |].
  split; [exact (f_equal _name H) |].
  split; [exact (f_equal _active_profile H) | exact (f_equal settingChanged H)].
Qed.

(** X9. When the loader returns, the document is an object with [id], [name]
    and the supported version; the type id and the type name of the instance
    are those of the document, the definition file is the file loaded, the
    catalogue is named after its base name, and the platform mesh, the
    platform texture and the icon are the document's where it gives them and
    the previous ones where it does not. *)
Theorem loadSettingsFromFile_metadata (depth : nat) (fs : FileSystem)
    (file_name : string) (self loaded : MachineSettings) :
  loadSettingsFromFile depth fs file_name self = (Returned (), loaded) →
  ∃ fields,
    fs !! file_name = Some (JsonFile (JObj fields)) ∧
    dict_get "id" fields = Some (getTypeID loaded) ∧
    dict_get "name" fields = Some (getTypeName loaded) ∧
    version_supported fields = true ∧
    _json_file loaded = file_name ∧
    _i18n_catalog loaded = Some (basename file_name) ∧
    getPlatformMesh loaded =
      default (getPlatformMesh self) (dict_get "platform" fields) ∧
    getPlatformTexture loaded =
      default (getPlatformTexture self) (dict_get "platform_texture" fields) ∧
    getIcon loaded = default (getIcon self) (dict_get "icon" fields).
Proof.
  intros Hload.
  destruct (loadSettingsFromFile_cases depth fs file_name self)
    as [[e He] | (fields & Hfile & Hid & Hname & Hversion & H)];
    [congruence |].
  rewrite Hload in H. cbn [snd] in H. exists fields.
  unfold dict_has in Hid, Hname.
  apply bool_decide_eq_true in Hid as [id Hid].
  apply bool_decide_eq_true in Hname as [name Hname].
  pose proof (f_equal _type_id H) as Htype_id.
  pose proof (f_equal _type_name H) as Htype_name.
  cbn in Htype_id, Htype_name. rewrite Hid in Htype_id.
  rewrite Hname in Htype_name. cbn in Htype_id, Htype_name.
  unfold getTypeID, getTypeName.
  split; [done |].
  split; [congruence |].
  split; [congruence |].
  split; [done |].
  split; [exact (f_equal _json_file H) |].
  split; [exact (f_equal _i18n_catalog H) |].
  split; [exact (f_equal _platform_mesh H) |].
  split; [exact (f_equal _platform_texture H) | exact (f_equal _icon H)].
Qed.

Lemma loadSettingsFromFile_metadata_witness :
  ∃ fields,
    example_fs !! "machines/child.json" = Some (JsonFile (JObj fields)) ∧
    dict_get "id" fields = Some (getTypeID example_machine) ∧
    dict_get "name" fields = Some (getTypeName example_machine) ∧
    version_supported fields = true ∧
    _json_file example_machine = "machines/child.json" ∧
    _i18n_catalog example_machine = Some (basename "machines/child.json") ∧
    getPlatformMesh example_machine =
      default (getPlatformMesh init) (dict_get "platform" fields) ∧
    getPlatformTexture example_machine =
      default (getPlatformTexture init) (dict_get "platform_texture" fields) ∧
    getIcon example_machine = default (getIcon init) (dict_get "icon" fields).
Proof.
  apply (loadSettingsFromFile_metadata 2 example_fs "machines/child.json" init
           example_machine).
  vm_compute. reflexivity.
Defined.

(** X10. A definition whose chain of parents never ends, each parent being a
    document that passes the checks and inherits in turn (a definition that
    inherits from itself, a cycle), is never loaded: at every depth the
    loader raises [RecursionError], and the tree of the instance is left as
    it was. *)
Theorem endless_inheritance_raises (fs : FileSystem) (chain : string → Prop) :
  (∀ file_name, chain file_name →
     ∃ fields inherits,
       fs !! file_name = Some (JsonFile (JObj fields)) ∧
       dict_has "id" fields = true ∧ dict_has "name" fields = true ∧
       version_supported fields = true ∧
       dict_get "inherits" fields = Some (JStr inherits) ∧
       chain (dirname file_name +:+ "/" +:+ inherits)) →
  ∀ depth file_name self,
    chain file_name →
    (loadSettingsFromFile depth fs file_name self).1 = Raised RecursionError ∧
    getAllCategories (loadSettingsFromFile depth fs file_name self).2 =
      getAllCategories self ∧
    getMachineSettings (loadSettingsFromFile depth fs file_name self).2 =
      getMachineSettings self.
Proof.
  intros Hchain depth. induction depth as [|depth IH]; intros file_name self Hin;
    [done |].
  destruct (Hchain file_name Hin)
    as (fields & inherits & Hfile & Hid & Hname & Hversion & Hinherits & Hnext).
  cbn [loadSettingsFromFile].
  rewrite (header_checks _ _ _ Hfile), Hid, Hname, Hversion.
  cbn [andb]. rewrite Hinherits.
  destruct (IH (dirname file_name +:+ "/" +:+ inherits) init Hnext) as [Hraise _].
  destruct (loadSettingsFromFile depth fs _ init) as [outcome inherits_from].
  cbn [fst] in Hraise. by subst outcome.
Qed.

Lemma endless_inheritance_raises_witness :
  (loadSettingsFromFile 1000 broken_fs "machines/loop.json" example_machine).1 =
    Raised RecursionError ∧
  getAllCategories
    (loadSettingsFromFile 1000 broken_fs "machines/loop.json" example_machine).2 =
    getAllCategories example_machine ∧
  getMachineSettings
    (loadSettingsFromFile 1000 broken_fs "machines/loop.json" example_machine).2 =
    getMachineSettings example_machine.
Proof.
  apply (endless_inheritance_raises broken_fs (λ f, f = "machines/loop.json"));
    [| reflexivity].
  intros file_name ->. exists loop_fields, "loop.json".
  vm_compute. repeat split.
Defined.

(** X11. When the parent of a definition fails to load, the definition fails
    with the parent's exception: the metadata of the document is already
    assigned, the tree of the instance is left as it was, and none of the
    document's own sections is applied. *)
Theorem parent_failure_propagates (depth : nat) (fs : FileSystem)
    (file_name : string) (fields : Dict) (inherits : string) (e : Exception)
    (partial self : MachineSettings) :
  fs !! file_name = Some (JsonFile (JObj fields)) →
  dict_has "id" fields && dict_has "name" fields = true →
  version_supported fields = true →
  dict_get "inherits" fields = Some (JStr inherits) →
  loadSettingsFromFile depth fs (dirname file_name +:+ "/" +:+ inherits) init =
    (Raised e, partial) →
  (loadSettingsFromFile (S depth) fs file_name self).1 = Raised e ∧
  getAllCategories (loadSettingsFromFile (S depth) fs file_name self).2 =
    getAllCategories self ∧
  getMachineSettings (loadSettingsFromFile (S depth) fs file_name self).2 =
    getMachineSettings self ∧
  _json_file (loadSettingsFromFile (S depth) fs file_name self).2 = file_name.
Proof.
  intros Hfile Hrequired Hversion Hinherits Hparent.
  cbn [loadSettingsFromFile].
  rewrite (header_checks _ _ _ Hfile), Hrequired, Hversion.
  by rewrite Hinherits, Hparent.
Qed.

Lemma parent_failure_propagates_witness :
  (loadSettingsFromFile 2 broken_fs "machines/orphan.json" example_machine).1 =
    Raised (FileNotFoundError "machines/missing.json") ∧
  getAllCategories
    (loadSettingsFromFile 2 broken_fs "machines/orphan.json" example_machine).2 =
    getAllCategories example_machine ∧
  getMachineSettings
    (loadSettingsFromFile 2 broken_fs "machines/orphan.json" example_machine).2 =
    getMachineSettings example_machine ∧
  _json_file
    (loadSettingsFromFile 2 broken_fs "machines/orphan.json" example_machine).2 =
    "machines/orphan.json".
Proof.
  apply (parent_failure_propagates 1 broken_fs "machines/orphan.json"
           orphan_fields "missing.json"
           (FileNotFoundError "machines/missing.json") init example_machine);
    vm_compute; reflexivity.
Defined.

(** ** The layers of a definition *)

Lemma tree_obs_key_fillByDict_at (r : SettingRef) (value : Json)
    (self : MachineSettings) :
  tree_obs Setting._key (fillByDict_at r value self).2 = tree_obs Setting._key self.
Proof.
  unfold fillByDict_at. destruct (deref self r) as [s|] eqn:E; [| done].
  destruct (Setting.fillByDict value s) as [s'|e] eqn:F; [| done].
  apply tree_obs_mutate. intros x Hx. rewrite E in Hx. injection Hx as <-.
  by eapply Setting_fillByDict_key.
Qed.

Lemma category_keys_fillByDict_at (r : SettingRef) (value : Json)
    (self : MachineSettings) :
  SettingsCategory._key <$> _categories (fillByDict_at r value self).2 =
  SettingsCategory._key <$> _categories self.
Proof.
  unfold fillByDict_at. destruct (deref self r) as [s|]; [| done].
  destruct (Setting.fillByDict value s); [| done]. apply category_keys_mutate.
Qed.

(** X12. The [overrides] section of a definition never creates a setting or
    a category and never moves one: after it, whether it ran to its end or
    raised on the way, every key is looked up where it was, and the keys of
    the settings and of the categories are the same lists as before. *)
Theorem overrides_create_nothing (fields : Dict) (self : MachineSettings) :
  (∀ k, getSettingByKey (load_section "overrides" load_override fields self).2 k =
        getSettingByKey self k) ∧
  (∀ include_machine,
     Setting.getKey <$>
       getAllSettings include_machine false
         (load_section "overrides" load_override fields self).2 =
     Setting.getKey <$> getAllSettings include_machine false self) ∧
  SettingsCategory.getKey <$>
    getAllCategories (load_section "overrides" load_override fields self).2 =
  SettingsCategory.getKey <$> getAllCategories self.
Proof.
  assert (H : tree_obs Setting._key
                (load_section "overrides" load_override fields self).2 =
              tree_obs Setting._key self ∧
              SettingsCategory._key <$>
                _categories (load_section "overrides" load_override fields self).2 =
              SettingsCategory._key <$> _categories self).
  { unfold load_section.
    destruct (dict_get "overrides" fields) as [[| | | | | |entries]|]; try done.
    apply (for_each_invariant
             (λ m, tree_obs Setting._key m = tree_obs Setting._key self ∧
                   SettingsCategory._key <$> _categories m =
                   SettingsCategory._key <$> _categories self)); [| done].
    intros [k v] m _ [Hm1 Hm2]. unfold load_override.
    destruct (getSettingByKey m k) as [r|]; [| done].
    by rewrite tree_obs_key_fillByDict_at, category_keys_fillByDict_at. }
  destruct H as [Hkeys Hcategories].
  split; [intros k; by rewrite !getSettingByKey_keys, Hkeys |].
  split; [| exact Hcategories].
  intros b. change Setting.getKey with Setting._key.
  by rewrite !getAllSettings_obs, Hkeys.
Qed.

(** X13. An entry of [machine_settings] finds or creates: when a setting with
    the key exists anywhere in the tree, in a category as well, no setting is
    created; otherwise exactly one machine-level setting with the key is
    appended. The categories are never given a setting, and afterwards the
    key is retrievable, also when applying the fragment raised. *)
Theorem machine_setting_entry_finds_or_creates (key : string) (value : Json)
    (self : MachineSettings) :
  Setting.getKey <$>
    getMachineSettings (load_machine_setting (key, value) self).2 =
  (Setting.getKey <$> getMachineSettings self) ++
  match getSettingByKey self key with
  | Some _ => []
  | None => [key]
  end ∧
  Setting.getKey <$>
    getAllSettings false false (load_machine_setting (key, value) self).2 =
  Setting.getKey <$> getAllSettings false false self ∧
  is_Some (getSettingByKey (load_machine_setting (key, value) self).2 key).
Proof.
  split; [| split].
  3: { apply has_key_getSettingByKey. apply load_machine_setting_has_key. }
  - change Setting.getKey with Setting._key.
    unfold load_machine_setting, getMachineSettings.
    destruct (getSettingByKey self key) as [r|].
    + rewrite app_nil_r.
      exact (f_equal snd (tree_obs_key_fillByDict_at r value self)).
    + etransitivity;
        [exact (f_equal snd (tree_obs_key_fillByDict_at _ value _)) |].
      unfold tree_obs, addSetting.
      cbn [snd set_machine_settings set_settingChanged _machine_settings].
      by rewrite fmap_app.
  - change Setting.getKey with Setting._key.
    unfold load_machine_setting. rewrite !getAllSettings_obs.
    destruct (getSettingByKey self key) as [r|];
      by rewrite tree_obs_key_fillByDict_at.
Qed.

Lemma category_fill_setting_key (entry : string * Json)
    (category : SettingsCategory.t) :
  SettingsCategory._key (SettingsCategory.fill_setting entry category).2 =
  SettingsCategory._key category.
Proof.
  destruct entry as [k value]. unfold SettingsCategory.fill_setting.
  destruct (SettingsCategory.getSettingByKey category k) as [i|].
  - destruct (_ !! i) as [s|]; [| done].
    by destruct (Setting.fillByDict value s).
  - cbn [SettingsCategory.with_settings SettingsCategory._settings].
    destruct (_ !! _) as [s|]; [| done].
    by destruct (Setting.fillByDict value s).
Qed.

Lemma category_fillByDict_key (value : Json) (category : SettingsCategory.t) :
  SettingsCategory._key (SettingsCategory.fillByDict value category).2 =
  SettingsCategory._key category.
Proof.
  destruct value as [| | | | | |fields]; try done.
  unfold SettingsCategory.fillByDict.
  assert (Hfields : ∀ (l : list (string * Json)) (c : SettingsCategory.t),
             SettingsCategory._key
               (foldl (λ c f, SettingsCategory.fill_field f c) c l) =
             SettingsCategory._key c).
  { induction l as [|f l IH]; intros c; [done |]. cbn [foldl]. by rewrite IH. }
  destruct (dict_get "settings" fields) as [[| | | | | |entries]|];
    cbn [snd]; try apply Hfields.
  unfold SettingsCategory.fill_settings.
  apply (for_each_invariant
           (λ c, SettingsCategory._key c = SettingsCategory._key category));
    [| apply Hfields].
  intros entry c _ Hc. by rewrite category_fill_setting_key.
Qed.

Lemma getSettingsCategory_keys (self : MachineSettings) (key : string) :
  getSettingsCategory self key =
  find_key_in key (SettingsCategory._key <$> _categories self).
Proof.
  unfold getSettingsCategory, find_key_in.
  rewrite (list_find_through
             (λ category, SettingsCategory.getKey category = key) (λ k, k = key)).
  - by destruct (list_find _ _) as [[? ?]|].
  - done.
Qed.

(** X14. An entry of [categories] finds or creates: when a category with the
    key exists it is filled where it is and no category is added; otherwise
    exactly one category with the key is appended. The machine-level settings
    are left as they are, and afterwards the category is retrievable, also
    when applying the fragment raised. *)
Theorem category_entry_finds_or_creates (key : string) (value : Json)
    (self : MachineSettings) :
  SettingsCategory.getKey <$>
    getAllCategories (load_category (key, value) self).2 =
  (SettingsCategory.getKey <$> getAllCategories self) ++
  match getSettingsCategory self key with
  | Some _ => []
  | None => [key]
  end ∧
  getMachineSettings (load_category (key, value) self).2 =
    getMachineSettings self ∧
  is_Some (getSettingsCategory (load_category (key, value) self).2 key).
Proof.
  assert (Hinsert : ∀ (l : list SettingsCategory.t) (c : nat)
                      (category category' : SettingsCategory.t),
             l !! c = Some category →
             SettingsCategory._key category' = SettingsCategory._key category →
             SettingsCategory._key <$> <[c := category']> l =
             SettingsCategory._key <$> l).
  { intros l c category category' Hc Hk. rewrite list_fmap_insert.
    apply list_insert_id. by rewrite list_lookup_fmap, Hc, Hk. }
  assert (Hkeys : SettingsCategory._key <$>
                    _categories (load_category (key, value) self).2 =
                  (SettingsCategory._key <$> _categories self) ++
                  match getSettingsCategory self key with
                  | Some _ => []
                  | None => [key]
                  end ∧
                  _machine_settings (load_category (key, value) self).2 =
                  _machine_settings self).
  { unfold load_category.
    destruct (getSettingsCategory self key) as [c|] eqn:E.
    - unfold getSettingsCategory in E.
      apply fmap_Some in E as ([c' category] & E & ->).
      apply list_find_Some in E as (Hc & _ & _). cbn [fst]. rewrite Hc.
      pose proof (category_fillByDict_key value category) as Hk.
      destruct (SettingsCategory.fillByDict value category) as [result category'].
      cbn [snd set_categories _categories _machine_settings] in *.
      rewrite app_nil_r. split; [| done]. by eapply Hinsert.
    - set (self1 := addSettingsCategory (SettingsCategory.new key) self).
      assert (Hnew : _categories self1 !! length (_categories self) =
                     Some (SettingsCategory.new key))
        by by apply list_lookup_middle.
      rewrite Hnew.
      pose proof (category_fillByDict_key value (SettingsCategory.new key)) as Hk.
      destruct (SettingsCategory.fillByDict value (SettingsCategory.new key))
        as [result category'].
      cbn [snd set_categories _categories _machine_settings] in *.
      split; [| done]. rewrite (Hinsert _ _ _ _ Hnew Hk).
      unfold self1, addSettingsCategory. cbn [set_categories _categories].
      by rewrite fmap_app. }
  destruct Hkeys as [Hkeys Hmachine].
  split; [exact Hkeys |]. split; [exact Hmachine |].
  rewrite getSettingsCategory_keys, Hkeys.
  rewrite (getSettingsCategory_keys self key).
  unfold find_key_in.
  destruct (list_find _ (SettingsCategory._key <$> _categories self))
    as [[c k]|] eqn:E; cbn [fmap option_fmap option_map].
  - rewrite app_nil_r, E. eauto.
  - rewrite (list_find_app_r _ _ _ E). cbn [list_find].
    rewrite decide_True by done. eauto.
Qed.

(** ** Instance files, once more *)

(** X15. [loadFromFile] never lets [FileNotFoundError] out, whatever is
    missing: the instance file, the definition or a parent of the definition.
    An instance file that is not there is reported as [InvalidFileError] for
    its own path, and the instance is left as it was. *)
Theorem loadFromFile_never_FileNotFoundError (getPath : string → option string)
    (max_str_digits depth : nat) (fs : FileSystem) (path : string)
    (self : MachineSettings) :
  (∀ file_name,
     (loadFromFile getPath max_str_digits depth fs path self).1 ≠
     Raised (FileNotFoundError file_name)) ∧
  (fs !! path = None →
   loadFromFile getPath max_str_digits depth fs path self =
     (Raised (InvalidFileError path), self)).
Proof.
  split.
  - intros file_name. unfold loadFromFile, read_config.
    destruct (fs !! path) as [[data|config|]|]; try done.
    destruct (negb (has_section config "General")); [done |].
    destruct (negb (has_option config "General" "version")); [done |].
    destruct (config_get config "General" "version" None) as [version|e]
      eqn:Hversion; cbn [and_then].
    2: { by rewrite (config_get_raises _ _ _ _ _ Hversion). }
    destruct (py_int max_str_digits version) as [v|e] eqn:Hint.
    2: { by rewrite (py_int_raises _ _ _ Hint). }
    destruct (negb (v =? MachineInstanceVersion)%Z); [done |].
    destruct (negb (has_option config "General" "name") ||
              negb (has_option config "General" "json_file")); [done |].
    destruct (config_get config "General" "json_file" None) as [json_file|e]
      eqn:Hjson.
    2: { by rewrite (config_get_raises _ _ _ _ _ Hjson). }
    destruct (getPath json_file) as [definition|]; [| done].
    destruct (loadSettingsFromFile depth fs definition self) as [[[]|e] self1].
    + destruct (config_get config "General" "name" (Some "Unknown Machine"))
        as [name|e] eqn:Hname; [done |].
      by rewrite (config_get_raises _ _ _ _ _ Hname).
    + by destruct e.
  - intros Hpath. unfold loadFromFile, read_config. by rewrite Hpath.
Qed.

(** X16. When [loadFromFile] returns, the instance file has a section General
    whose version, as the configuration gives it, reads as the integer 1, the
    display name of the instance is the name that the configuration gives,
    and the definition file of the instance is the path to which the resource
    lookup resolved the [json_file] that the configuration gives. When it
    raises, the display name is the one the instance had. *)
Theorem loadFromFile_name_and_definition (getPath : string → option string)
    (max_str_digits depth : nat) (fs : FileSystem) (path : string)
    (self : MachineSettings) :
  match (loadFromFile getPath max_str_digits depth fs path self).1 with
  | Returned _ =>
      ∃ config version json_file,
        fs !! path = Some (IniFile config) ∧
        has_section config "General" = true ∧
        config_get config "General" "version" None = Returned version ∧
        py_int max_str_digits version = Returned 1%Z ∧
        config_get config "General" "name" (Some "Unknown Machine") =
          Returned
            (getName (loadFromFile getPath max_str_digits depth fs path self).2) ∧
        config_get config "General" "json_file" None = Returned json_file ∧
        getPath json_file =
          Some (_json_file
                  (loadFromFile getPath max_str_digits depth fs path self).2)
  | Raised _ =>
      getName (loadFromFile getPath max_str_digits depth fs path self).2 =
      getName self
  end.
Proof.
  unfold loadFromFile, read_config.
  destruct (fs !! path) as [[data|config|]|] eqn:Hpath; try done.
  destruct (has_section config "General") eqn:Hsection; [| done]. cbn [negb].
  destruct (negb (has_option config "General" "version")); [done |].
  destruct (config_get config "General" "version" None) as [version|e]
    eqn:Hversion; [| done]. cbn [and_then].
  destruct (py_int max_str_digits version) as [v|e] eqn:Hint; [| done].
  destruct (negb (v =? MachineInstanceVersion)%Z) eqn:Hv; [done |].
  apply negb_false_iff, Z.eqb_eq in Hv. subst v.
  destruct (negb (has_option config "General" "name") ||
            negb (has_option config "General" "json_file")); [done |].
  destruct (config_get config "General" "json_file" None) as [json_file|e]
    eqn:Hjson; [| done].
  destruct (getPath json_file) as [definition|] eqn:Hdefinition; [| done].
  assert (Hkept : _name (loadSettingsFromFile depth fs definition self).2 =
                  _name self).
  { destruct (loadSettingsFromFile_cases depth fs definition self)
      as [[e ->] | (fields & _ & _ & _ & _ & H)]; [done |].
    exact (f_equal _name H). }
  destruct (loadSettingsFromFile depth fs definition self) as [[[]|e] self1]
    eqn:Hload.
  - destruct (config_get config "General" "name" (Some "Unknown Machine"))
      as [name|e] eqn:Hname; [| done].
    exists config, version, json_file.
    cbn [fst snd getName set_name _name _json_file].
    repeat (split; [done |]).
    by rewrite (loadSettingsFromFile_json_file _ _ _ _ _ Hload).
  - by destruct e.
Qed.

(** ** Profiles *)

Lemma profile_mutate (r : SettingRef) (f : Setting.t → Setting.t)
    (self : MachineSettings) :
  _active_profile (mutate r f self) = _active_profile self ∧
  settingChanged (mutate r f self) = settingChanged self.
Proof. by destruct r. Qed.

Lemma settingChanged_setValue_at (r : SettingRef) (value : Json)
    (self : MachineSettings) :
  settingChanged (setValue_at r value self) = settingChanged self.
Proof.
  unfold setValue_at. destruct (deref self r) as [s|]; [| done].
  destruct (profile_mutate r (Setting.setValue value) self) as [_ Hl].
  rewrite <- Hl.
  unfold valueChanged_emit, settingChanged_emit, _onSettingChanged.
  destruct (Setting._valueChanged _); [| done].
  destruct (settingChanged (mutate _ _ _)) eqn:E; [| by rewrite E].
  by destruct (_active_profile (mutate _ _ _)).
Qed.

Lemma profile_setValue_at (r : SettingRef) (value : Json) (self : MachineSettings) :
  _active_profile (setValue_at r value self) =
  match deref self r with
  | Some s =>
      if Setting._valueChanged s && settingChanged self
      then Profile.setSettingValue (Setting.getKey s) value <$> _active_profile self
      else _active_profile self
  | None => _active_profile self
  end.
Proof.
  unfold setValue_at. destruct (deref self r) as [s|]; [| done].
  unfold valueChanged_emit, settingChanged_emit, _onSettingChanged.
  destruct (profile_mutate r (Setting.setValue value) self) as [Hp Hl].
  cbn [Setting.setValue Setting._valueChanged Setting.getKey Setting.getValue
       Setting._key Setting._value].
  destruct (Setting._valueChanged s); cbn [andb]; [| done].
  rewrite Hl. destruct (settingChanged self); [| done].
  rewrite Hp. by destruct (_active_profile self).
Qed.

Lemma profile_foldl_reset_setting (refs : list SettingRef) (self : MachineSettings) :
  settingChanged self = false ∨ _active_profile self = None →
  _active_profile (foldl reset_setting self refs) = _active_profile self ∧
  settingChanged (foldl reset_setting self refs) = settingChanged self.
Proof.
  revert self. induction refs as [|r refs IH]; intros self Hquiet; [done |].
  cbn [foldl].
  assert (H : _active_profile (reset_setting self r) = _active_profile self ∧
              settingChanged (reset_setting self r) = settingChanged self).
  { unfold reset_setting. destruct (deref self r) as [s|] eqn:E; [| done].
    rewrite settingChanged_setValue_at, profile_setValue_at, E.
    split; [| done]. destruct Hquiet as [-> | ->]; [| by destruct (_ && _)].
    by rewrite andb_false_r. }
  destruct H as [Hp Hl]. rewrite <- Hp, <- Hl. apply IH.
  by rewrite Hp, Hl.
Qed.

(** X17. Activation writes into no profile. On an instance whose link to a
    profile is attached only while a profile is active, [setActiveProfile]
    leaves, when it returns, the given profile as the active one, such as it
    was given, with the link attached exactly when the profile is not the
    null one; when it raises, the profile that was active is still the active
    one, unchanged by the reset, and the link is detached. *)
Theorem setActiveProfile_active_profile (profile : option Profile.t)
    (self : MachineSettings) :
  (settingChanged self = true → is_Some (getActiveProfile self)) →
  getActiveProfile (setActiveProfile profile self).2 =
    match (setActiveProfile profile self).1 with
    | Returned _ => profile
    | Raised _ => getActiveProfile self
    end ∧
  settingChanged (setActiveProfile profile self).2 =
    match (setActiveProfile profile self).1 with
    | Returned _ => bool_decide (is_Some profile)
    | Raised _ => false
    end.
Proof.
  intros Hlinked. unfold setActiveProfile, getActiveProfile in *.
  set (self1 := match _active_profile self with
                | Some _ => set_settingChanged false self
                | None => self
                end).
  assert (H1 : _active_profile self1 = _active_profile self ∧
               settingChanged self1 = false).
  { unfold self1. destruct (_active_profile self) eqn:E; [by rewrite <- E |].
    split; [done |]. destruct (settingChanged self); [| done].
    by destruct Hlinked. }
  destruct H1 as [Hp Hl].
  destruct profile as [p|]; cbn [fst snd].
  - rewrite apply_changed_settings_eq.
    destruct (profile_foldl_reset_setting (getAllSettings_refs false self1) self1)
      as [Hp' Hl']; [by left |].
    fold (reset_settings self1) in Hp', Hl'.
    destruct (dict_keys (Profile.getChangedSettings p)); cbn [fst snd].
    + split; [done |]. cbn [set_active_profile set_settingChanged settingChanged].
      symmetry. apply bool_decide_eq_true. eauto.
    + by rewrite Hp', Hl', Hp, Hl.
  - split; [done |]. cbn [set_active_profile settingChanged]. rewrite Hl.
    symmetry. apply bool_decide_eq_false. by intros [? ?].
Qed.

Lemma setActiveProfile_active_profile_witness :
  getActiveProfile (setActiveProfile (Some empty_profile) example_machine).2 =
    match (setActiveProfile (Some empty_profile) example_machine).1 with
    | Returned _ => Some empty_profile
    | Raised _ => getActiveProfile example_machine
    end ∧
  settingChanged (setActiveProfile (Some empty_profile) example_machine).2 =
    match (setActiveProfile (Some empty_profile) example_machine).1 with
    | Returned _ => bool_decide (is_Some (Some empty_profile))
    | Raised _ => false
    end.
Proof.
  apply (setActiveProfile_active_profile (Some empty_profile) example_machine).
  vm_compute. discriminate.
Defined.

(** X18. What [setSettingValueByKey] records: the active profile is given the
    value under the key exactly when the key is found, the setting found
    notifies this instance and the link to the profile is attached; in every
    other case the active profile is left as it was. *)
Theorem setSettingValueByKey_records (key : string) (value : Json)
    (self : MachineSettings) :
  getActiveProfile (setSettingValueByKey key value self) =
  if settingChanged self &&
     match getSettingByKey self key ≫= deref self with
     | Some setting => Setting._valueChanged setting
     | None => false
     end
  then Profile.setSettingValue key value <$> getActiveProfile self
  else getActiveProfile self.
Proof.
  unfold setSettingValueByKey, getActiveProfile.
  destruct (getSettingByKey self key) as [r|] eqn:E; cbn [mbind option_bind].
  2: by rewrite andb_false_r.
  rewrite profile_setValue_at.
  destruct (getSettingByKey_Some _ _ _ E) as (s & Hs & Hkey & _). rewrite Hs.
  unfold Setting.getKey. rewrite Hkey, andb_comm.
  by destruct (_ && _).
Qed.

(** ** The wiring after the layers *)

Lemma deref_connect_settings (self : MachineSettings) (r : SettingRef) :
  deref (connect_settings self) r =
  match r with
  | InCategory _ _ => Setting.connect_valueChanged <$> deref self r
  | InMachine _ => deref self r
  end.
Proof.
  unfold connect_settings.
  assert (H : ∀ refs m,
             deref (foldl (λ m r, mutate r Setting.connect_valueChanged m) m refs) r =
             if decide (r ∈ refs)
             then Setting.connect_valueChanged <$> deref m r else deref m r).
  { induction refs as [|r0 refs IH]; intros m; cbn [foldl].
    - rewrite decide_False; [done | by intros ?%elem_of_nil].
    - rewrite IH, deref_mutate.
      destruct (decide (r0 = r)) as [-> | Hne].
      + rewrite (decide_True (P := r ∈ r :: refs)) by left.
        destruct (decide (r ∈ refs)); [| done].
        by destruct (deref m r).
      + destruct (decide (r ∈ refs)) as [Hin | Hnin].
        * rewrite (decide_True (P := r ∈ r0 :: refs)); [done | by right].
        * rewrite (decide_False (P := r ∈ r0 :: refs)); [done |].
          intros [? | ?]%elem_of_cons; [congruence | done]. }
  rewrite H. destruct (decide (r ∈ getAllSettings_refs false self)) as [Hin | Hnin].
  - apply elem_of_getAllSettings_refs in Hin as (c & i & -> & _). done.
  - destruct r as [c i | i]; [| done].
    destruct (deref self (InCategory c i)) as [s|] eqn:E; [| done].
    destruct Hnin. apply elem_of_getAllSettings_refs. exists c, i.
    split; [done |]. by rewrite E.
Qed.

Lemma load_layers_connected (fields : Dict) (self loaded : MachineSettings) :
  load_layers fields self = (Returned (), loaded) →
  ∃ m, loaded = connect_settings m.
Proof.
  unfold load_layers.
  destruct (load_section "machine_settings" _ _ _) as [[[]|e1] self1]; [| done].
  destruct (load_section "categories" _ _ _) as [[[]|e2] self2]; [| done].
  destruct (load_section "overrides" _ _ _) as [[[]|e3] self3]; [| done].
  intros [= <-]. by eexists.
Qed.

(** X19. When the loader returns, every categorized setting of the instance,
    inherited, created or overridden, notifies the instance of a change of
    its value. *)
Theorem loaded_settings_notify (depth : nat) (fs : FileSystem)
    (file_name : string) (self loaded : MachineSettings) :
  loadSettingsFromFile depth fs file_name self = (Returned (), loaded) →
  Forall (λ setting, Setting._valueChanged setting = true)
         (getAllSettings false false loaded).
Proof.
  intros Hload. apply Forall_forall.
  assert (H : ∃ m, loaded = connect_settings m).
  { destruct depth as [|depth]; [done |]. cbn [loadSettingsFromFile] in Hload.
    destruct (and_then _ _) as [[| | | | | |fields]|e]; try done.
    destruct (dict_get "inherits" fields) as [[| | | |inherits| |]|]; try done.
    - destruct (loadSettingsFromFile depth fs _ init) as [[[]|e] inherits_from];
        [| done].
      by eapply load_layers_connected.
    - by eapply load_layers_connected. }
  destruct H as [m ->]. intros setting Hin.
  apply elem_of_getAllSettings_deref in Hin as (c & i & Hs).
  rewrite deref_connect_settings in Hs.
  destruct (deref m (InCategory c i)) as [s|]; [| done].
  by injection Hs as <-.
Qed.

Lemma loaded_settings_notify_witness :
  Forall (λ setting, Setting._valueChanged setting = true)
         (getAllSettings false false example_machine).
Proof.
  apply (loaded_settings_notify 2 example_fs "machines/child.json" init).
  vm_compute; reflexivity.
Defined.

Lemma load_layers_grows (fields : Dict) (self : MachineSettings) :
  tree_grows self (load_layers fields self).2.
Proof.
  unfold load_layers.
  pose proof (load_section_grows "machine_settings" load_machine_setting fields
                self load_machine_setting_grows) as G1.
  destruct (load_section "machine_settings" _ _ _) as [[[]|e1] self1]; [| done].
  pose proof (load_section_grows "categories" load_category fields self1
                load_category_grows) as G2.
  destruct (load_section "categories" _ _ _) as [[[]|e2] self2];
    [| by eapply tree_grows_trans].
  pose proof (load_section_grows "overrides" load_override fields self2
                load_override_grows) as G3.
  destruct (load_section "overrides" _ _ _) as [[[]|e3] self3];
    cbn [snd] in *.
  - eapply tree_grows_trans; [exact G1 |].
    eapply tree_grows_trans; [exact G2 |].
    eapply tree_grows_trans; [exact G3 | apply connect_settings_grows].
  - eapply tree_grows_trans; [exact G1 |].
    eapply tree_grows_trans; [exact G2 | exact G3].
Qed.

(** X20. A definition without [inherits] replaces nothing: loaded into an
    instance that has settings already, it leaves every setting at its place
    and with its key, whether the loader returns or raises on the way. *)
Theorem load_without_parent_keeps_settings (depth : nat) (fs : FileSystem)
    (file_name : string) (self : MachineSettings) :
  (∀ fields, fs !! file_name = Some (JsonFile (JObj fields)) →
             dict_get "inherits" fields = None) →
  tree_grows self (loadSettingsFromFile depth fs file_name self).2.
Proof.
  intros Hparent. destruct depth as [|depth]; [apply tree_grows_refl |].
  cbn [loadSettingsFromFile].
  destruct (fs !! file_name) as [[[| | | | | |fields]| |]|] eqn:Hfile;
    try (unfold read_json; rewrite Hfile; apply tree_grows_refl).
  - unfold read_json. rewrite Hfile.
    destruct (and_then _ _) as [[| | | | | |fields]|e] eqn:E;
      try apply tree_grows_refl.
    exfalso. revert E. unfold check_required, check_version.
    cbn [and_then py_in py_getitem].
    repeat (destruct (is_substring _ _); try done).
  - unfold read_json. rewrite Hfile.
    destruct (and_then _ _) as [[| | | | | |fields]|e] eqn:E;
      try apply tree_grows_refl.
    exfalso. revert E. unfold check_required, check_version.
    cbn [and_then py_in py_getitem].
    repeat (destruct (existsb _ _); try done).
  - rewrite (header_checks _ _ _ Hfile).
    destruct (dict_has "id" fields && dict_has "name" fields);
      [| apply tree_grows_refl].
    destruct (version_supported fields); [| apply tree_grows_refl].
    rewrite (Hparent fields eq_refl).
    apply (tree_grows_trans _ (load_metadata file_name fields self)).
    + intros r s Hs. exists s. split; [| done]. by destruct r.
    + apply load_layers_grows.
Qed.

Lemma load_without_parent_keeps_settings_witness :
  tree_grows example_machine
    (loadSettingsFromFile 1 example_fs "machines/base.json" example_machine).2.
Proof.
  apply (load_without_parent_keeps_settings 1 example_fs "machines/base.json"
           example_machine).
  intros fields H. vm_compute in H. injection H as <-. reflexivity.
Defined.

(** ** The version of a definition *)

Lemma version_supported_iff (fields : Dict) :
  version_supported fields = true ↔ version_one (dict_get "version" fields).
Proof.
  unfold version_supported, version_one.
  destruct (dict_get "version" fields) as [[|b|z|q| | |]|];
    cbn [py_ne_int]; try (split; [done | by intros [|[|]]]).
  - rewrite negb_involutive. destruct b.
    + split; [by right; right | done].
    + split; [done | by intros [|[|]]].
  - rewrite negb_involutive, Z.eqb_eq. split.
    + intros ->. by left.
    + intros [[= ->] | [|]]; done.
  - rewrite negb_involutive. split.
    + intros H. right. left. do 2 f_equal.
      apply Qc_is_canon. apply Qeq_bool_iff in H. by rewrite H.
    + intros [| [[= ->] |]]; done.
Qed.

(** X21. The values of [version] that the loader accepts are exactly those
    that Python finds equal to the number one: the integer 1, the float 1.0
    and [true]. With any other value, or none, the document is rejected with
    [InvalidVersionError] and the instance is left as it was. With one of the
    three the type version of the instance becomes the text ["1"], ["1.0"]
    or ["True"], whatever happens afterwards, and a document that has no
    parent and no section of settings is loaded. The loader returns with
    these three only. *)
Theorem accepted_versions (depth : nat) (fs : FileSystem) (file_name : string)
    (fields : Dict) (self : MachineSettings) :
  fs !! file_name = Some (JsonFile (JObj fields)) →
  dict_has "id" fields && dict_has "name" fields = true →
  (¬ version_one (dict_get "version" fields) →
   loadSettingsFromFile (S depth) fs file_name self =
     (Raised (InvalidVersionError file_name), self)) ∧
  (version_one (dict_get "version" fields) →
   (dict_get "version" fields = Some (JInt 1) ∧
      _type_version (loadSettingsFromFile (S depth) fs file_name self).2 = "1" ∨
    dict_get "version" fields = Some (JFloat (Q2Qc 1)) ∧
      _type_version (loadSettingsFromFile (S depth) fs file_name self).2 = "1.0" ∨
    dict_get "version" fields = Some (JBool true) ∧
      _type_version (loadSettingsFromFile (S depth) fs file_name self).2 = "True") ∧
   (dict_get "inherits" fields = None →
    dict_get "machine_settings" fields = None →
    dict_get "categories" fields = None →
    dict_get "overrides" fields = None →
    (loadSettingsFromFile (S depth) fs file_name self).1 = Returned ())) ∧
  ((loadSettingsFromFile (S depth) fs file_name self).1 = Returned () →
   version_one (dict_get "version" fields)).
Proof.
  intros Hfile Hrequired. cbn [loadSettingsFromFile].
  rewrite (header_checks _ _ _ Hfile), Hrequired.
  pose proof (version_supported_iff fields) as Hiff.
  destruct (version_supported fields).
  2: { split; [done |]. split; [| done]. intros H. by apply Hiff in H. }
  split; [intros H; destruct H; by apply Hiff |].
  split; [| intros _; by apply Hiff].
  intros Hone. split.
  - assert (Htype : _type_version
                      (match dict_get "inherits" fields with
                       | Some (JStr inherits) =>
                           match loadSettingsFromFile depth fs
                                   (dirname file_name +:+ "/" +:+ inherits) init
                           with
                           | (Returned _, inherits_from) =>
                               load_layers fields
                                 (adopt inherits_from
                                    (load_metadata file_name fields self))
                           | (Raised e, _) =>
                               (Raised e, load_metadata file_name fields self)
                           end
                       | Some _ => (Raised TypeError,
                                    load_metadata file_name fields self)
                       | None =>
                           load_layers fields
                             (load_metadata file_name fields self)
                       end).2 =
                    _type_version (load_metadata file_name fields self)).
    { destruct (dict_get "inherits" fields) as [[| | | |inherits| |]|];
        try done.
      - destruct (loadSettingsFromFile depth fs _ init)
          as [[[]|e] inherits_from]; [| done].
        exact (f_equal _type_version (without_tree_load_layers fields _)).
      - exact (f_equal _type_version (without_tree_load_layers fields _)). }
    rewrite Htype. unfold load_metadata. cbn [set_metadata _type_version].
    destruct Hone as [-> | [-> | ->]]; [by left | right; by left | right; by right].
  - intros -> Hmachine Hcategories Hoverrides.
    unfold load_layers, load_section.
    by rewrite Hmachine, Hcategories, Hoverrides.
Qed.

Lemma accepted_versions_witness :
  (¬ version_one (dict_get "version" float_version_fields) →
   loadSettingsFromFile 1 lenient_fs "machines/lenient.json" init =
     (Raised (InvalidVersionError "machines/lenient.json"), init)) ∧
  (version_one (dict_get "version" float_version_fields) →
   (dict_get "version" float_version_fields = Some (JInt 1) ∧
      _type_version
        (loadSettingsFromFile 1 lenient_fs "machines/lenient.json" init).2 = "1" ∨
    dict_get "version" float_version_fields = Some (JFloat (Q2Qc 1)) ∧
      _type_version
        (loadSettingsFromFile 1 lenient_fs "machines/lenient.json" init).2 =
      "1.0" ∨
    dict_get "version" float_version_fields = Some (JBool true) ∧
      _type_version
        (loadSettingsFromFile 1 lenient_fs "machines/lenient.json" init).2 =
      "True") ∧
   (dict_get "inherits" float_version_fields = None →
    dict_get "machine_settings" float_version_fields = None →
    dict_get "categories" float_version_fields = None →
    dict_get "overrides" float_version_fields = None →
    (loadSettingsFromFile 1 lenient_fs "machines/lenient.json" init).1 =
      Returned ())) ∧
  ((loadSettingsFromFile 1 lenient_fs "machines/lenient.json" init).1 =
     Returned () →
   version_one (dict_get "version" float_version_fields)).
Proof.
  apply (accepted_versions 0 lenient_fs "machines/lenient.json"
           float_version_fields init).
  - vm_compute. reflexivity.
  - vm_compute. reflexivity.
Defined.

(** ** What a parent replaces *)

Lemma mutate_graft (r : SettingRef) (f : Setting.t → Setting.t)
    (m rest : MachineSettings) :
  mutate r f (graft m rest) = graft (mutate r f m) rest.
Proof. by destruct r. Qed.

Lemma fillByDict_at_graft (r : SettingRef) (value : Json)
    (m rest : MachineSettings) :
  fillByDict_at r value (graft m rest) =
  ((fillByDict_at r value m).1, graft (fillByDict_at r value m).2 rest).
Proof.
  unfold fillByDict_at.
  change (deref (graft m rest) r) with (deref m r).
  destruct (deref m r) as [s|]; [| done].
  destruct (Setting.fillByDict value s); [| done].
  cbn [fst snd]. by rewrite mutate_graft.
Qed.

Lemma load_machine_setting_graft (entry : string * Json)
    (m rest : MachineSettings) :
  load_machine_setting entry (graft m rest) =
  ((load_machine_setting entry m).1, graft (load_machine_setting entry m).2 rest).
Proof.
  destruct entry as [key value]. unfold load_machine_setting.
  change (getSettingByKey (graft m rest) key) with (getSettingByKey m key).
  destruct (getSettingByKey m key) as [r|]; [apply fillByDict_at_graft |].
  apply (fillByDict_at_graft _ _ (addSetting (Setting.new key) m)).
Qed.

Lemma load_category_graft (entry : string * Json) (m rest : MachineSettings) :
  load_category entry (graft m rest) =
  ((load_category entry m).1, graft (load_category entry m).2 rest).
Proof.
  destruct entry as [key value]. unfold load_category.
  change (getSettingsCategory (graft m rest) key) with (getSettingsCategory m key).
  destruct (getSettingsCategory m key) as [c|].
  - change (_categories (graft m rest)) with (_categories m).
    destruct (_categories m !! c) as [category|]; [| done].
    by destruct (SettingsCategory.fillByDict value category).
  - change (_categories (addSettingsCategory (SettingsCategory.new key)
                           (graft m rest)))
      with (_categories (addSettingsCategory (SettingsCategory.new key) m)).
    change (length (_categories (graft m rest))) with (length (_categories m)).
    destruct (_categories (addSettingsCategory _ m) !! _) as [category|];
      [| done].
    by destruct (SettingsCategory.fillByDict value category).
Qed.

Lemma load_override_graft (entry : string * Json) (m rest : MachineSettings) :
  load_override entry (graft m rest) =
  ((load_override entry m).1, graft (load_override entry m).2 rest).
Proof.
  destruct entry as [key value]. unfold load_override.
  change (getSettingByKey (graft m rest) key) with (getSettingByKey m key).
  destruct (getSettingByKey m key) as [r|]; [apply fillByDict_at_graft | done].
Qed.

Lemma load_section_graft (name : string)
    (body : string * Json → MachineSettings → Outcome unit * MachineSettings)
    (fields : Dict) (m rest : MachineSettings) :
  (∀ entry m, body entry (graft m rest) =
              ((body entry m).1, graft (body entry m).2 rest)) →
  load_section name body fields (graft m rest) =
  ((load_section name body fields m).1,
   graft (load_section name body fields m).2 rest).
Proof.
  intros Hbody. unfold load_section.
  destruct (dict_get name fields) as [[| | | | | |entries]|]; try done.
  revert m. induction entries as [|entry entries IH]; intros m; [done |].
  cbn [for_each]. rewrite Hbody.
  destruct (body entry m) as [[[]|e] m1]; [apply IH | done].
Qed.

Lemma connect_settings_graft (m rest : MachineSettings) :
  connect_settings (graft m rest) = graft (connect_settings m) rest.
Proof.
  unfold connect_settings.
  change (getAllSettings_refs false (graft m rest))
    with (getAllSettings_refs false m).
  generalize (getAllSettings_refs false m). intros refs. revert m.
  induction refs as [|r refs IH]; intros m; [done |].
  cbn [foldl]. by rewrite mutate_graft, IH.
Qed.

Lemma load_layers_graft (fields : Dict) (m rest : MachineSettings) :
  load_layers fields (graft m rest) =
  ((load_layers fields m).1, graft (load_layers fields m).2 rest).
Proof.
  unfold load_layers.
  rewrite (load_section_graft "machine_settings" load_machine_setting)
    by (intros; apply load_machine_setting_graft).
  destruct (load_section "machine_settings" _ _ m) as [[[]|e1] m1]; [| done].
  cbn [fst snd].
  rewrite (load_section_graft "categories" load_category)
    by (intros; apply load_category_graft).
  destruct (load_section "categories" _ _ m1) as [[[]|e2] m2]; [| done].
  cbn [fst snd].
  rewrite (load_section_graft "overrides" load_override)
    by (intros; apply load_override_graft).
  destruct (load_section "overrides" _ _ m2) as [[[]|e3] m3]; [| done].
  cbn [fst snd]. by rewrite connect_settings_graft.
Qed.

(** X22. A definition with [inherits] replaces the settings of the instance:
    whether the loader returns or raises, and with what, does not depend on
    the instance it is called on, and when it returns, the categories and
    the machine-level settings are those built from the parent and the
    document alone; nothing of the settings that the instance had is
    left. *)
Theorem parent_replaces_settings (depth : nat) (fs : FileSystem)
    (file_name : string) (fields : Dict) (self self' : MachineSettings) :
  fs !! file_name = Some (JsonFile (JObj fields)) →
  is_Some (dict_get "inherits" fields) →
  (loadSettingsFromFile depth fs file_name self).1 =
    (loadSettingsFromFile depth fs file_name self').1 ∧
  ((loadSettingsFromFile depth fs file_name self).1 = Returned () →
   getAllCategories (loadSettingsFromFile depth fs file_name self).2 =
     getAllCategories (loadSettingsFromFile depth fs file_name self').2 ∧
   getMachineSettings (loadSettingsFromFile depth fs file_name self).2 =
     getMachineSettings (loadSettingsFromFile depth fs file_name self').2).
Proof.
  intros Hfile [parent Hparent]. destruct depth as [|depth]; [done |].
  cbn [loadSettingsFromFile]. rewrite (header_checks _ _ _ Hfile).
  destruct (dict_has "id" fields && dict_has "name" fields); [| done].
  destruct (version_supported fields); [| done].
  rewrite Hparent. destruct parent as [| | | |inherits| |]; try done.
  destruct (loadSettingsFromFile depth fs _ init) as [[[]|e] inherits_from];
    [| done].
  change (adopt inherits_from (load_metadata file_name fields self))
    with (graft (adopt inherits_from (load_metadata file_name fields self'))
                (load_metadata file_name fields self)).
  rewrite load_layers_graft. cbn [fst snd]. split; [done |].
  intros _. split; reflexivity.
Qed.

Lemma parent_replaces_settings_witness :
  (loadSettingsFromFile 2 example_fs "machines/child.json" tuned_machine).1 =
    (loadSettingsFromFile 2 example_fs "machines/child.json" init).1 ∧
  ((loadSettingsFromFile 2 example_fs "machines/child.json" tuned_machine).1 =
     Returned () →
   getAllCategories
     (loadSettingsFromFile 2 example_fs "machines/child.json" tuned_machine).2 =
     getAllCategories
       (loadSettingsFromFile 2 example_fs "machines/child.json" init).2 ∧
   getMachineSettings
     (loadSettingsFromFile 2 example_fs "machines/child.json" tuned_machine).2 =
     getMachineSettings
       (loadSettingsFromFile 2 example_fs "machines/child.json" init).2).
Proof.
  apply (parent_replaces_settings 2 example_fs "machines/child.json" child_fields
           tuned_machine init).
  - vm_compute. reflexivity.
  - vm_compute. eauto.
Defined.
